(** * modlist-generator: the metadata-extraction pipeline

    A shallow embedding of [src/extractors/base.py], [fabric.py], [quilt.py],
    [forge.py] and [src/scanner.py], and the properties of the extractor
    selection, the version-constraint parser and the folder scan.

    Conventions of the embedding.
    - A Python [str] is a [string]: a sequence of code points below 256.  On
      that range [\d] is [0-9] and the white space of [str.strip] and [\s] is
      09-0D, 1C-1F, 20, 85 and A0.
    - A value decoded by [json.loads] or [tomllib.loads] is a [value].
    - An exception raised inside a [try] block is [None] in [option]; an
      exception that leaves [scan_folder] is a [Raise] of its outcome. *)

From Stdlib Require Import List String Ascii Bool Arith PeanoNat Lia ZArith.
From Stdlib Require Import Permutation Sorted.
Import ListNotations.

Set Warnings "-register-all".

Open Scope string_scope.
Open Scope list_scope.
Open Scope nat_scope.

(* ================================================================== *)
(** ** Python strings *)

Module PyStr.

Definition ord (c : ascii) : nat := nat_of_ascii c.

Definition between (lo hi n : nat) : bool := (lo <=? n) && (n <=? hi).

(** [\d] on code points below 256. *)
Definition isdigit (c : ascii) : bool := between 48 57 (ord c).

(** [str.isspace] and [\s] on code points below 256. *)
Definition isspace (c : ascii) : bool :=
  between 9 13 (ord c) || between 28 31 (ord c) || (ord c =? 32)
  || (ord c =? 133) || (ord c =? 160).

Definition same (c d : ascii) : bool := Ascii.eqb c d.

Definition newline : ascii := ascii_of_nat 10.

(** [str.lower] on one code point below 256: A-Z, and the Latin-1 capitals
    C0-DE without the multiplication sign D7. *)
Definition lower_char (c : ascii) : ascii :=
  let n := ord c in
  if between 65 90 n || (between 192 222 n && negb (n =? 215))
  then ascii_of_nat (n + 32) else c.

Fixpoint lower (s : string) : string :=
  match s with
  | EmptyString => EmptyString
  | String c r => String (lower_char c) (lower r)
  end.

Fixpoint lstrip (s : string) : string :=
  match s with
  | String c r => if isspace c then lstrip r else s
  | EmptyString => EmptyString
  end.

(** [rstrip]: a character is dropped when it is white space and all that
    follows it was dropped. *)
Fixpoint rstrip (s : string) : string :=
  match s with
  | EmptyString => EmptyString
  | String c r =>
      match rstrip r with
      | EmptyString => if isspace c then EmptyString else String c EmptyString
      | r' => String c r'
      end
  end.

Definition strip (s : string) : string := rstrip (lstrip s).

(** [s.startswith(p)]. *)
Definition startswith (p s : string) : bool := String.prefix p s.

(** [sub in s] on strings. *)
Fixpoint contains (sub s : string) : bool :=
  String.prefix sub s
  || match s with
     | EmptyString => false
     | String _ r => contains sub r
     end.

Fixpoint rev_string (s : string) : string :=
  match s with
  | EmptyString => EmptyString
  | String c r => (rev_string r ++ String c EmptyString)%string
  end.

(** [s.endswith(p)]. *)
Definition endswith (p s : string) : bool :=
  String.prefix (rev_string p) (rev_string s).

(** [s.split(sep)] for a one-character separator: never the empty list. *)
Fixpoint split (sep : ascii) (s : string) : list string :=
  match s with
  | EmptyString => [EmptyString]
  | String c r =>
      if same c sep then EmptyString :: split sep r
      else match split sep r with
           | w :: ws => String c w :: ws
           | [] => [String c EmptyString]
           end
  end.

(** [s.split(sep, 1)]: the text before the first separator and the text
    after it; [None] when there is no separator (the result then has one
    element and the unpacking into two names raises). *)
Fixpoint split_once (sep : ascii) (s : string) : option (string * string) :=
  match s with
  | EmptyString => None
  | String c r =>
      if same c sep then Some (EmptyString, r)
      else match split_once sep r with
           | Some (k, v) => Some (String c k, v)
           | None => None
           end
  end.

(** [sep.join(parts)]. *)
Definition join (sep : string) (parts : list string) : string :=
  String.concat sep parts.

Definition nonempty (s : string) : bool :=
  match s with EmptyString => false | _ => true end.

(** [s] occurs in [t] as a contiguous run of characters. *)
Definition substring_of (s t : string) : Prop :=
  exists pre post, t = (pre ++ s ++ post)%string.

End PyStr.

(* ================================================================== *)
(** ** Regular expressions: the fragment of [re] the patterns use *)

Module Re.

(** Repetition is only ever applied to a character class in the source
    patterns, so [Rep] takes a class. *)
Inductive regex : Type :=
| Cls (p : ascii -> bool)      (* one character of a class *)
| Rep (p : ascii -> bool)      (* greedy [p*] *)
| Cat (r1 r2 : regex)          (* concatenation *)
| Opt (r : regex)              (* greedy [(?:r)?] *)
| Grp (r : regex)              (* capture group 1 *)
| Bol                          (* [^] *)
| Eol.                         (* [$] *)

(** [p+] *)
Definition Rep1 (p : ascii -> bool) : regex := Cat (Cls p) (Rep p).

(** A continuation gets the position reached, the text still to read and
    the text captured so far by group 1. *)
Definition cont (R : Type) : Type :=
  nat -> list ascii -> option (list ascii) -> option R.

(** Greedy repetition with backtracking: the longest run first. *)
Fixpoint rep {R} (p : ascii -> bool) (k : cont R)
         (i : nat) (s : list ascii) (g : option (list ascii)) : option R :=
  match s with
  | a :: s' =>
      if p a then
        match rep p k (S i) s' g with
        | Some x => Some x
        | None => k i s g
        end
      else k i s g
  | [] => k i s g
  end.

(** The backtracking matcher, in continuation-passing style: the first
    successful path in the order [re] explores them. *)
Fixpoint exec {R} (r : regex) (k : cont R)
         (i : nat) (s : list ascii) (g : option (list ascii)) : option R :=
  match r with
  | Cls p =>
      match s with
      | a :: s' => if p a then k (S i) s' g else None
      | [] => None
      end
  | Rep p => rep p k i s g
  | Cat r1 r2 => exec r1 (exec r2 k) i s g
  | Opt r1 =>
      match exec r1 k i s g with
      | Some x => Some x
      | None => k i s g
      end
  | Grp r1 => exec r1 (fun j s' _ => k j s' (Some (firstn (j - i) s))) i s g
  | Bol => if i =? 0 then k i s g else None
  | Eol =>
      match s with
      | [] => k i s g
      | [a] => if PyStr.same a PyStr.newline then k i s g else None
      | _ => None
      end
  end.

(** A match of [r] that starts at position [i], where [s] is the text from
    [i] on: the end position and [match.group(1)]. *)
Definition match_at (r : regex) (i : nat) (s : list ascii)
  : option (nat * option (list ascii)) :=
  exec r (fun j _ g => Some (j, g)) i s None.

(** [pattern.finditer]: the non-overlapping matches from left to right,
    each given by its [group(1)].  [skip] counts the characters of the last
    match still to pass.  After an empty match the search moves on by one
    character; no pattern of the source matches the empty string. *)
Fixpoint finditer_from (r : regex) (i : nat) (s : list ascii) (skip : nat)
  : list (option (list ascii)) :=
  match skip with
  | S n =>
      match s with
      | [] => []
      | _ :: s' => finditer_from r (S i) s' n
      end
  | 0 =>
      match match_at r i s with
      | Some (j, g) =>
          g :: match s with
               | [] => []
               | _ :: s' => finditer_from r (S i) s' (j - i - 1)
               end
      | None =>
          match s with
          | [] => []
          | _ :: s' => finditer_from r (S i) s' 0
          end
      end
  end.

Definition finditer (r : regex) (s : string) : list (option (list ascii)) :=
  finditer_from r 0 (list_ascii_of_string s) 0.

(** The language of a pattern, anchors read as the empty word. *)
Fixpoint lang (r : regex) (w : list ascii) : Prop :=
  match r with
  | Cls p => exists a, w = [a] /\ p a = true
  | Rep p => Forall (fun a => p a = true) w
  | Cat r1 r2 => exists u v, w = u ++ v /\ lang r1 u /\ lang r2 v
  | Opt r1 => w = [] \/ lang r1 w
  | Grp r1 => lang r1 w
  | Bol => w = []
  | Eol => w = []
  end.

(** The bodies of the capture groups of a pattern. *)
Fixpoint groups (r : regex) : list regex :=
  match r with
  | Cls _ | Rep _ | Bol | Eol => []
  | Cat r1 r2 => groups r1 ++ groups r2
  | Opt r1 => groups r1
  | Grp r1 => r1 :: groups r1
  end.

End Re.

(* ================================================================== *)
(** ** Python values *)

Module Py.

(** What [json.loads] and [tomllib.loads] return.  [VOther] stands for a
    float or a TOML date or time: a value that is no string, list or dict
    and of which the code tests nothing but its truth value.  A dict is an
    association list in insertion order; a decoded dict holds each key once,
    and a key is looked up at its first occurrence. *)
Inductive value : Type :=
| VNone
| VBool (b : bool)
| VInt (z : Z)
| VOther (truth : bool)
| VStr (s : string)
| VList (l : list value)
| VDict (d : list (string * value)).

(** [bool(v)] *)
Definition truthy (v : value) : bool :=
  match v with
  | VNone => false
  | VBool b => b
  | VInt z => negb (z =? 0)%Z
  | VOther t => t
  | VStr s => PyStr.nonempty s
  | VList l => match l with [] => false | _ => true end
  | VDict d => match d with [] => false | _ => true end
  end.

(** [a or b] *)
Definition por (a b : value) : value := if truthy a then a else b.

Fixpoint lookup (d : list (string * value)) (key : string) : option value :=
  match d with
  | [] => None
  | (k, v) :: r => if String.eqb k key then Some v else lookup r key
  end.

(** [key in d] for a dict [d]. *)
Definition has_key (d : list (string * value)) (key : string) : bool :=
  match lookup d key with Some _ => true | None => false end.

(** [d.get(key, default)] for a dict [d]. *)
Definition dget (d : list (string * value)) (key : string) (default : value)
  : value :=
  match lookup d key with Some v => v | None => default end.

(** [x.get(key, default)] for any [x]: only a dict has [get]; on anything
    else the call raises [AttributeError]. *)
Definition get (x : value) (key : string) (default : value) : option value :=
  match x with
  | VDict d => Some (dget d key default)
  | _ => None
  end.

(** [d.get(key, default)] for a dict [d] and a key that is any value: a
    list or a dict is unhashable and the call raises [TypeError]; a key that
    is no string is never found, the keys of [d] being strings. *)
Definition dget_value (d : list (string * value)) (key default : value)
  : option value :=
  match key with
  | VStr k => Some (dget d k default)
  | VList _ | VDict _ => None
  | _ => Some default
  end.

(** [x.lower()]: only a string has [lower]. *)
Definition lower (x : value) : option string :=
  match x with
  | VStr s => Some (PyStr.lower s)
  | _ => None
  end.

(** [x == s] for a string [s]. *)
Definition eq_str (x : value) (s : string) : bool :=
  match x with
  | VStr t => String.eqb t s
  | _ => false
  end.

Definition keys (d : list (string * value)) : list string := map fst d.
Definition values (d : list (string * value)) : list value := map snd d.

(** [s in files] for a list of strings. *)
Definition mem (s : string) (l : list string) : bool :=
  existsb (String.eqb s) l.

(** What the interpreter and the installed packages decide: whether a TOML
    parser could be imported ([tomllib is not None]), and the order in which
    [list(set(l))] lists the distinct elements of [l] (the hash order of
    the set, built by adding the elements of [l] from left to right). *)
Record Runtime : Type := {
  tomllib : bool;
  set_order : list string -> list string
}.

(** The iteration order of a set lists each element once. *)
Definition set_order_ok (rt : Runtime) : Prop :=
  forall l, Permutation (set_order rt l) (nodup string_dec l).

End Py.

(* ================================================================== *)
(** ** src/models.py *)

Module Models.
Import Py.

(** [ModInfo].  The dataclass does not check its field types, and the
    extractors store what the metadata holds: [name], [version], [mod_id]
    and the elements of [dependencies] are values. *)
Record ModInfo : Type := {
  name : value;
  loader : string;
  version : value;
  filename : string;
  mod_id : value;
  dependencies : list value;
  author : option string;
  description : option string;
  mc_versions : list string;
  disabled : bool
}.

(** [ScanResult], without [scan_duration] and [generated_at], which hold
    the wall-clock time. *)
Record ScanResult : Type := {
  mods : list ModInfo;
  errors : list string;
  total_files : nat
}.

End Models.

(* ================================================================== *)
(** ** Paths and archives *)

Module Zip.
Import Py.

(** A [pathlib.Path]: the directory part, [str(path.parent)], and the
    final component, [path.name]. *)
Record Path : Type := { parent : string; name : string }.

Definition Path_eq_dec (p q : Path) : {p = q} + {p <> q}.
Proof. decide equality; apply string_dec. Defined.

(** [str(path)], as [pathlib] writes a POSIX path whose directory part is
    [str(path.parent)]: the directory part alone when the name is empty (a
    root, or ["."]), the name alone under the directory ["."] (a relative
    path of one component), and no second separator after a directory part
    that ends with one (a root). *)
Definition str (p : Path) : string :=
  if String.eqb (name p) "" then parent p
  else if String.eqb (parent p) "." then name p
  else if PyStr.endswith "/" (parent p) then (parent p ++ name p)%string
  else (parent p ++ "/" ++ name p)%string.

(** [name.rfind(c)] *)
Fixpoint rfind (c : ascii) (s : string) : option nat :=
  match s with
  | EmptyString => None
  | String a r =>
      match rfind c r with
      | Some i => Some (S i)
      | None => if PyStr.same a c then Some 0 else None
      end
  end.

(** [path.stem]: the name without its last suffix; a dot that is the first
    or the last character of the name starts no suffix. *)
Definition stem (p : Path) : string :=
  match rfind "."%char (name p) with
  | Some i =>
      if (0 <? i) && (i <? String.length (name p) - 1)
      then String.substring 0 i (name p)
      else name p
  | None => name p
  end.

(** The content of one member of an archive, with what the decoders of the
    standard library make of it: [raw] is the bytes, [utf8] is
    [raw.decode('utf-8')] ([None] when it raises [UnicodeDecodeError]),
    [utf8_replace] is [raw.decode('utf-8', errors='replace')], and [json]
    and [toml] are [json.loads] and [tomllib.loads] of the text that
    [_safe_decode] returns ([None] when they raise). *)
Record Member : Type := {
  raw : string;
  utf8 : option string;
  utf8_replace : string;
  json : option value;
  toml : option value
}.

(** An open [zipfile.ZipFile]: [namelist()], and [jar.open(n).read()],
    which is [None] when it raises. *)
Record ZipFile : Type := {
  namelist : list string;
  read : string -> option Member
}.

(** What [zipfile.ZipFile(path, 'r')] does: it raises [BadZipFile], raises
    another exception [e] (with [str(e)] the message), or opens. *)
Inductive Open : Type :=
| BadZipFile
| Raises (msg : string)
| Opened (jar : ZipFile).

End Zip.

(* ================================================================== *)
(** ** src/extractors/base.py *)

Module Base.
Import Py Re.

Definition digit : ascii -> bool := PyStr.isdigit.
Definition space : ascii -> bool := PyStr.isspace.
Definition chr (c : ascii) : ascii -> bool := fun a => PyStr.same a c.
Definition one_of (cs : list ascii) : ascii -> bool :=
  fun a => existsb (PyStr.same a) cs.

Declare Scope re_scope.
Delimit Scope re_scope with re.
Notation "a >> b" := (Cat a b) (at level 61, right associativity) : re_scope.

(** [\d+\.\d+(?:\.\d+)?] *)
Definition version3 : regex :=
  (Rep1 digit >> Cls (chr ".") >> Rep1 digit
   >> Opt (Cls (chr ".") >> Rep1 digit))%re.

(** [\d+\.\d+] *)
Definition version2 : regex :=
  (Rep1 digit >> Cls (chr ".") >> Rep1 digit)%re.

(** [MC_VERSION_PATTERNS], in the order of the source. *)
Definition MC_VERSION_PATTERNS : list regex :=
  [ (* ^(\d+\.\d+(?:\.\d+)?)$ *)
    (Bol >> Grp version3 >> Eol)%re;
    (* [><=~^]*\s*(\d+\.\d+(?:\.\d+)?) *)
    (Rep (one_of [">"; "<"; "="; "~"; "^"]%char) >> Rep space
     >> Grp version3)%re;
    (* [\[\(](\d+\.\d+(?:\.\d+)?)\s*, *)
    (Cls (one_of ["["; "("]%char) >> Grp version3 >> Rep space
     >> Cls (chr ","))%re;
    (* ,\s*(\d+\.\d+(?:\.\d+)?)[\]\)] *)
    (Cls (chr ",") >> Rep space >> Grp version3
     >> Cls (one_of ["]"; ")"]%char))%re;
    (* (\d+\.\d+)(?:\.[x*])? *)
    (Grp version2 >> Opt (Cls (chr ".") >> Cls (one_of ["x"; "*"]%char)))%re
  ].

(** [_safe_decode]: UTF-8, and Latin-1 (every byte read as the code point
    of the same number) when that raises [UnicodeDecodeError]. *)
Definition _safe_decode (m : Zip.Member) : string :=
  match Zip.utf8 m with
  | Some t => t
  | None => Zip.raw m
  end.

(** The [id] of a dependency given as an object:
    [dep.get('modId') or dep.get('id') or dep.get('mod_id')]. *)
Definition dep_id_of (dep : list (string * value)) : value :=
  por (por (dget dep "modId" VNone) (dget dep "id" VNone))
      (dget dep "mod_id" VNone).

(** The inner loop of [_extract_dependencies] over a list. *)
Fixpoint deps_of_list (deps : list value) : list value :=
  match deps with
  | [] => []
  | VStr s :: r => VStr s :: deps_of_list r
  | VDict dep :: r =>
      let dep_id := dep_id_of dep in
      if truthy dep_id then dep_id :: deps_of_list r else deps_of_list r
  | _ :: r => deps_of_list r
  end.

(** [_extract_dependencies(data, dep_fields)] for a dict [data]. *)
Fixpoint _extract_dependencies (data : list (string * value))
         (dep_fields : list string) : list value :=
  match dep_fields with
  | [] => []
  | field :: r =>
      match lookup data field with
      | Some (VDict deps) =>
          map VStr (keys deps) ++ _extract_dependencies data r
      | Some (VList deps) => deps_of_list deps ++ _extract_dependencies data r
      | _ => _extract_dependencies data r
      end
  end.

(** [s.strip() or None] *)
Definition strip_or_none (s : string) : option string :=
  if PyStr.nonempty (PyStr.strip s) then Some (PyStr.strip s) else None.

(** The loop of [_normalize_authors] over a list: the names collected. *)
Fixpoint author_names (authors : list value) : list string :=
  match authors with
  | [] => []
  | VStr a :: r =>
      if PyStr.nonempty (PyStr.strip a) then PyStr.strip a :: author_names r
      else author_names r
  | VDict a :: r =>
      let name := por (por (dget a "name" VNone) (dget a "username" VNone))
                      (dget a "id" VNone) in
      match name with
      | VStr n =>
          if PyStr.nonempty n && PyStr.nonempty (PyStr.strip n)
          then PyStr.strip n :: author_names r
          else author_names r
      | _ => author_names r
      end
  | _ :: r => author_names r
  end.

(** [_normalize_authors(authors)] *)
Definition _normalize_authors (authors : value) : option string :=
  if negb (truthy authors) then None
  else match authors with
       | VStr s => strip_or_none s
       | VList l =>
           match author_names l with
           | [] => None
           | names => Some (PyStr.join ", " names)
           end
       | _ => None
       end.

(** The [description] of every extractor:
    [description.strip() or None] for a string, [None] otherwise. *)
Definition description_of (v : value) : option string :=
  match v with
  | VStr s => strip_or_none s
  | _ => None
  end.

(** [versions.add(version)] on a set kept as a list without repetition. *)
Definition set_add (x : string) (l : list string) : list string :=
  if mem x l then l else l ++ [x].

(** The body of the loop over the matches of one pattern. *)
Definition add_match (versions : list string) (g : option (list ascii))
  : list string :=
  match g with
  | Some (c :: w) =>
      let version := string_of_list_ascii (c :: w) in
      if 2 <=? List.length (PyStr.split "." version)
      then set_add version versions else versions
  | _ => versions
  end.

Definition add_pattern (constraint : string) (versions : list string)
           (pattern : regex) : list string :=
  fold_left add_match (finditer pattern constraint) versions.

Fixpoint insert (x : string) (l : list string) : list string :=
  match l with
  | [] => [x]
  | y :: r => if String.leb x y then x :: l else y :: insert x r
  end.

(** [sorted(versions)]: strings are ordered by code point, a proper prefix
    before the longer string. *)
Definition sorted (l : list string) : list string :=
  fold_right insert [] l.

(** [_parse_mc_versions] on a string that is not empty. *)
Definition parse_str (version_constraint : string) : list string :=
  let constraint := PyStr.strip version_constraint in
  sorted (fold_left (add_pattern constraint) MC_VERSION_PATTERNS []).

(** [_parse_mc_versions(version_constraint)] *)
Fixpoint _parse_mc_versions (rt : Runtime) (version_constraint : value)
  : list string :=
  if negb (truthy version_constraint) then []
  else match version_constraint with
       | VList items =>
           set_order rt
             ((fix each (l : list value) : list string :=
                 match l with
                 | [] => []
                 | item :: r => _parse_mc_versions rt item ++ each r
                 end) items)
       | VStr s => parse_str s
       | _ => []
       end.

End Base.

(* ================================================================== *)
(** ** The extractor interface ([BaseExtractor]) *)

Module BaseExtractor.

(** The four abstract members of [BaseExtractor].  The [extract] of every
    extractor of the repository catches [Exception] and returns [None]. *)
Record t : Type := {
  name : string;
  priority : nat;
  can_extract : Zip.ZipFile -> list string -> bool;
  extract : Zip.ZipFile -> Zip.Path -> list string -> option Models.ModInfo
}.

End BaseExtractor.

(** Sequencing of steps that may raise. *)
Notation "x <- e ;; k" :=
  (match e with Some x => k | None => None end)
  (at level 61, e at next level, right associativity).

(* ================================================================== *)
(** ** src/extractors/fabric.py *)

Module FabricExtractor.
Import Py Zip Models Base.

Definition METADATA_FILE : string := "fabric.mod.json".
Definition name : string := "Fabric".
Definition priority : nat := 1.

Definition can_extract (jar : ZipFile) (files : list string) : bool :=
  mem METADATA_FILE files.

(** [extract]; [None] when the member cannot be read, is not JSON, or is
    JSON but no object ([data.get] raises). *)
Definition extract (rt : Runtime) (jar : ZipFile) (jar_path : Path)
           (files : list string) : option ModInfo :=
  m <- read jar METADATA_FILE ;;
  data <- json m ;;
  match data with
  | VDict data =>
      Some {|
        Models.name := dget data "name" (dget data "id" (VStr (stem jar_path)));
        loader := "fabric";
        version := dget data "version" (VStr "Unknown");
        filename := Zip.name jar_path;
        mod_id := dget data "id" (VStr "");
        dependencies := _extract_dependencies data ["depends"; "recommends"];
        author := _normalize_authors (dget data "authors" VNone);
        description := description_of (dget data "description" VNone);
        mc_versions :=
          match dget data "depends" (VDict []) with
          | VDict depends =>
              match lookup depends "minecraft" with
              | Some c => _parse_mc_versions rt c
              | None => []
              end
          | _ => []
          end;
        disabled := false
      |}
  | _ => None
  end.

Definition instance (rt : Runtime) : BaseExtractor.t :=
  {| BaseExtractor.name := name;
     BaseExtractor.priority := priority;
     BaseExtractor.can_extract := can_extract;
     BaseExtractor.extract := extract rt |}.

End FabricExtractor.

(* ================================================================== *)
(** ** src/extractors/quilt.py *)

Module QuiltExtractor.
Import Py Zip Models Base.

Definition METADATA_FILE : string := "quilt.mod.json".
Definition name : string := "Quilt".
Definition priority : nat := 2.

Definition can_extract (jar : ZipFile) (files : list string) : bool :=
  mem METADATA_FILE files.

(** The loop over [depends]: the dependencies and the Minecraft versions
    collected so far. *)
Fixpoint depends_loop (rt : Runtime) (depends : list value)
         (acc : list value * list string) : list value * list string :=
  match depends with
  | [] => acc
  | VDict dep :: r =>
      let dep_id := dget dep "id" VNone in
      if truthy dep_id then
        if eq_str dep_id "minecraft" then
          let versions :=
            por (dget dep "versions" VNone) (dget dep "version" VNone) in
          depends_loop rt r (fst acc, _parse_mc_versions rt versions)
        else depends_loop rt r (fst acc ++ [dep_id], snd acc)
      else depends_loop rt r acc
  | VStr s :: r => depends_loop rt r (fst acc ++ [VStr s], snd acc)
  | _ :: r => depends_loop rt r acc
  end.

(** The author: [contributors] first, then [authors]. *)
Definition author_of (metadata : list (string * value)) : option string :=
  let contributors := dget metadata "contributors" VNone in
  let author :=
    if truthy contributors then
      match contributors with
      | VDict c => Some (PyStr.join ", " (keys c))
      | _ => _normalize_authors contributors
      end
    else None in
  match author with
  | Some (String c a) => Some (String c a)
  | _ => _normalize_authors (dget metadata "authors" VNone)
  end.

(** [extract]; [None] when the member cannot be read or is not JSON, and
    when [data], [quilt_loader] or [metadata] is no object. *)
Definition extract (rt : Runtime) (jar : ZipFile) (jar_path : Path)
           (files : list string) : option ModInfo :=
  m <- read jar METADATA_FILE ;;
  data <- json m ;;
  quilt_loader <- get data "quilt_loader" (VDict []) ;;
  metadata <- get quilt_loader "metadata" (VDict []) ;;
  mod_id <- get quilt_loader "id" (VStr "") ;;
  name <- get metadata "name" (por mod_id (VStr (stem jar_path))) ;;
  version <- get quilt_loader "version" (VStr "Unknown") ;;
  depends <- get quilt_loader "depends" (VList []) ;;
  let found :=
    match depends with
    | VList l => depends_loop rt l ([], [])
    | _ => ([], [])
    end in
  match metadata with
  | VDict md =>
      Some {|
        Models.name := name;
        loader := "quilt";
        version := version;
        filename := Zip.name jar_path;
        mod_id := mod_id;
        dependencies := fst found;
        author := author_of md;
        description := description_of (dget md "description" VNone);
        mc_versions := snd found;
        disabled := false
      |}
  | _ => None
  end.

Definition instance (rt : Runtime) : BaseExtractor.t :=
  {| BaseExtractor.name := name;
     BaseExtractor.priority := priority;
     BaseExtractor.can_extract := can_extract;
     BaseExtractor.extract := extract rt |}.

End QuiltExtractor.

(* ================================================================== *)
(** ** src/extractors/forge.py *)

Module ForgeTomlExtractor.
Import Py Zip Models Base.

Definition TOML_FILES : list string :=
  ["META-INF/neoforge.mods.toml"; "META-INF/mods.toml"].
Definition MANIFEST : string := "META-INF/MANIFEST.MF".
Definition name : string := "Forge/NeoForge TOML".
Definition priority : nat := 3.

Definition can_extract (rt : Runtime) (jar : ZipFile) (files : list string)
  : bool :=
  if negb (tomllib rt) then false
  else existsb (fun toml_file => mem toml_file files) TOML_FILES.

(** [_find_toml_file]: the first of [TOML_FILES] that is in [files]. *)
Definition _find_toml_file (files : list string) : option string :=
  find (fun toml_file => mem toml_file files) TOML_FILES.

(** [x[0]]: the first element of a list that is not empty, the first
    character of a string that is not empty; anything else raises. *)
Definition first_item (x : value) : option value :=
  match x with
  | VList (v :: _) => Some v
  | VStr (String c _) => Some (VStr (String c EmptyString))
  | _ => None
  end.

(** [s in x] for a string [s]: a key of a dict, an element of a list, a
    substring of a string; anything else raises [TypeError]. *)
Definition contains_str (x : value) (s : string) : option bool :=
  match x with
  | VDict d => Some (has_key d s)
  | VList l => Some (existsb (fun v => eq_str v s) l)
  | VStr t => Some (PyStr.contains s t)
  | _ => None
  end.

(** [x[s]] for a string [s]: the value of key [s] in a dict; anything else
    raises. *)
Definition getitem_str (x : value) (s : string) : option value :=
  match x with
  | VDict d => lookup d s
  | _ => None
  end.

(** The loop over one list of dependencies: whether an entry has the
    [modId] ["neoforge"]; [None] when a [modId] is no string. *)
Fixpoint names_neoforge (mod_deps : list value) : option bool :=
  match mod_deps with
  | [] => Some false
  | VDict dep :: r =>
      mod_id <- lower (dget dep "modId" (VStr "")) ;;
      if String.eqb mod_id "neoforge" then Some true else names_neoforge r
  | _ :: r => names_neoforge r
  end.

(** The loop over [dependencies.values()]. *)
Fixpoint any_names_neoforge (vs : list value) : option bool :=
  match vs with
  | [] => Some false
  | VList mod_deps :: r =>
      found <- names_neoforge mod_deps ;;
      if found then Some true else any_names_neoforge r
  | _ :: r => any_names_neoforge r
  end.

(** [_detect_loader(toml_file, data, jar_path)]; [None] when it raises. *)
Definition _detect_loader (toml_file : string) (data : value)
           (jar_path : Path) : option string :=
  (* Check filename of TOML file *)
  if PyStr.contains "neoforge.mods.toml" toml_file then Some "neoforge" else
  (* Check modLoader field *)
  v <- get data "modLoader" (VStr "") ;;
  mod_loader <- lower v ;;
  if PyStr.contains "neoforge" mod_loader then Some "neoforge" else
  (* Check dependencies for neoforge *)
  dependencies <- get data "dependencies" (VDict []) ;;
  found <- match dependencies with
           | VDict d => any_names_neoforge (values d)
           | _ => Some false
           end ;;
  if found then Some "neoforge" else
  (* Check mods array for neoforge dependency declarations *)
  mods <- get data "mods" (VList []) ;;
  found <- (if truthy mods then
              mod0 <- first_item mods ;;
              v <- get mod0 "modId" (VStr "") ;;
              mod_id <- lower v ;;
              present <- contains_str dependencies mod_id ;;
              if present then
                mod_deps <- getitem_str dependencies mod_id ;;
                match mod_deps with
                | VList l => names_neoforge l
                | _ => Some false
                end
              else Some false
            else Some false) ;;
  if found then Some "neoforge" else
  (* Check JAR filename for hints *)
  if PyStr.contains "neoforge" (PyStr.lower (Zip.name jar_path))
  then Some "neoforge" else
  (* Check loaderVersion *)
  v <- get data "loaderVersion" (VStr "") ;;
  loader_version <- lower v ;;
  if PyStr.contains "neoforge" loader_version then Some "neoforge"
  else Some "forge".

(** The loop of [_extract_dependencies_from_toml]. *)
Fixpoint toml_deps (mod_deps : list value) : list value :=
  match mod_deps with
  | [] => []
  | VDict dep :: r =>
      let dep_id := dget dep "modId" (VStr "") in
      if truthy dep_id
         && negb (existsb (eq_str dep_id) ["minecraft"; "forge"; "neoforge"])
      then dep_id :: toml_deps r else toml_deps r
  | _ :: r => toml_deps r
  end.

(** [_extract_dependencies_from_toml(data, mod_id)]; [None] when it
    raises. *)
Definition _extract_dependencies_from_toml (data mod_id : value)
  : option (list value) :=
  deps_section <- get data "dependencies" (VDict []) ;;
  match deps_section with
  | VDict d =>
      mod_deps <- dget_value d mod_id (VList []) ;;
      match mod_deps with
      | VList l => Some (toml_deps l)
      | _ => Some []
      end
  | _ => Some []
  end.

(** The loop of [_extract_mc_versions_from_toml]: the first entry whose
    [modId] is ["minecraft"] decides. *)
Fixpoint toml_mc_versions (rt : Runtime) (mod_deps : list value)
  : option (list string) :=
  match mod_deps with
  | [] => Some []
  | VDict dep :: r =>
      mod_id <- lower (dget dep "modId" (VStr "")) ;;
      if String.eqb mod_id "minecraft"
      then Some (_parse_mc_versions rt (dget dep "versionRange" (VStr "")))
      else toml_mc_versions rt r
  | _ :: r => toml_mc_versions rt r
  end.

(** [_extract_mc_versions_from_toml(data, mod_id)]; [None] when it
    raises. *)
Definition _extract_mc_versions_from_toml (rt : Runtime)
           (data mod_id : value) : option (list string) :=
  deps_section <- get data "dependencies" (VDict []) ;;
  match deps_section with
  | VDict d =>
      mod_deps <- dget_value d mod_id (VList []) ;;
      match mod_deps with
      | VList l => toml_mc_versions rt l
      | _ => Some []
      end
  | _ => Some []
  end.

(** The loop of [_get_version_from_manifest] over the lines. *)
Fixpoint implementation_version (lines : list string) : option string :=
  match lines with
  | [] => None
  | line :: r =>
      match PyStr.split_once ":" (PyStr.strip line) with
      | Some (key, value) =>
          if String.eqb (PyStr.strip key) "Implementation-Version"
          then Some (PyStr.strip value)
          else implementation_version r
      | None => implementation_version r
      end
  end.

(** [_get_version_from_manifest(jar, files)] *)
Definition _get_version_from_manifest (jar : ZipFile) (files : list string)
  : option string :=
  if negb (mem MANIFEST files) then None
  else
    m <- read jar MANIFEST ;;
    implementation_version (PyStr.split PyStr.newline (_safe_decode m)).

(** [extract]; [None] when no TOML file is listed, and when reading,
    parsing or a later step raises. *)
Definition extract (rt : Runtime) (jar : ZipFile) (jar_path : Path)
           (files : list string) : option ModInfo :=
  toml_file <- _find_toml_file files ;;
  m <- read jar toml_file ;;
  data <- (if tomllib rt then toml m else None) ;;
  (* Get the first mod entry *)
  mods <- get data "mods" (VList []) ;;
  if negb (truthy mods) then None else
  mod0 <- first_item mods ;;
  match mod0 with
  | VDict mod0 =>
      let mod_id := dget mod0 "modId" (VStr "") in
      let name :=
        dget mod0 "displayName" (dget mod0 "modId" (VStr (stem jar_path))) in
      (* Handle version placeholders *)
      version <- match dget mod0 "version" (VStr "Unknown") with
                 | VStr v =>
                     if PyStr.startswith "${" v && PyStr.endswith "}" v then
                       match _get_version_from_manifest jar files with
                       | Some (String c w) => Some (VStr (String c w))
                       | _ => Some (VStr v)
                       end
                     else Some (VStr v)
                 | _ => None
                 end ;;
      loader <- _detect_loader toml_file data jar_path ;;
      dependencies <- _extract_dependencies_from_toml data mod_id ;;
      mc_versions <- _extract_mc_versions_from_toml rt data mod_id ;;
      Some {|
        Models.name := name;
        Models.loader := loader;
        Models.version := version;
        filename := Zip.name jar_path;
        Models.mod_id := mod_id;
        Models.dependencies := dependencies;
        author := description_of (dget mod0 "authors" VNone);
        description := description_of (dget mod0 "description" VNone);
        Models.mc_versions := mc_versions;
        disabled := false
      |}
  | _ => None
  end.

Definition instance (rt : Runtime) : BaseExtractor.t :=
  {| BaseExtractor.name := name;
     BaseExtractor.priority := priority;
     BaseExtractor.can_extract := can_extract rt;
     BaseExtractor.extract := extract rt |}.

End ForgeTomlExtractor.

Module LegacyForgeExtractor.
Import Py Zip Models Base.

Definition METADATA_FILE : string := "mcmod.info".
Definition name : string := "Legacy Forge".
Definition priority : nat := 4.

Definition can_extract (jar : ZipFile) (files : list string) : bool :=
  mem METADATA_FILE files.

(** The first described unit of [mcmod.info]; [None] is the early
    [return None] on a shape that is neither a list with an element nor an
    object. *)
Definition first_mod (data : value) : option value :=
  match data with
  | VList (mod0 :: _) => Some mod0
  | VDict d =>
      match lookup d "modList" with
      | Some (VList l) =>
          match l with
          | mod0 :: _ => Some mod0
          | [] => Some (VDict [])
          end
      | _ => Some (VDict d)
      end
  | _ => None
  end.

Fixpoint only_strings (deps : list value) : list value :=
  match deps with
  | [] => []
  | VStr s :: r => VStr s :: only_strings r
  | _ :: r => only_strings r
  end.

(** [extract]; [None] when the member cannot be read, is not JSON, has
    another shape, or its first unit is no object. *)
Definition extract (rt : Runtime) (jar : ZipFile) (jar_path : Path)
           (files : list string) : option ModInfo :=
  m <- read jar METADATA_FILE ;;
  data <- json m ;;
  mod0 <- first_mod data ;;
  match mod0 with
  | VDict mod0 =>
      let deps := por (dget mod0 "dependencies" (VList []))
                      (dget mod0 "requiredMods" (VList [])) in
      let mc_version := dget mod0 "mcversion" VNone in
      Some {|
        Models.name :=
          dget mod0 "name" (dget mod0 "modid" (VStr (stem jar_path)));
        loader := "forge";
        version := dget mod0 "version" (VStr "Unknown");
        filename := Zip.name jar_path;
        mod_id := dget mod0 "modid" (VStr "");
        dependencies :=
          match deps with
          | VList l => only_strings l
          | _ => []
          end;
        author :=
          _normalize_authors
            (por (dget mod0 "authorList" VNone) (dget mod0 "authors" VNone));
        description := description_of (dget mod0 "description" VNone);
        mc_versions :=
          match mc_version with
          | VStr (String c w) => _parse_mc_versions rt mc_version
          | _ => []
          end;
        disabled := false
      |}
  | _ => None
  end.

Definition instance (rt : Runtime) : BaseExtractor.t :=
  {| BaseExtractor.name := name;
     BaseExtractor.priority := priority;
     BaseExtractor.can_extract := can_extract;
     BaseExtractor.extract := extract rt |}.

End LegacyForgeExtractor.

(* ================================================================== *)
(** ** src/extractors/__init__.py *)

(** [ALL_EXTRACTORS], in the order of the source. *)
Definition ALL_EXTRACTORS (rt : Py.Runtime) : list BaseExtractor.t :=
  [ FabricExtractor.instance rt;
    QuiltExtractor.instance rt;
    ForgeTomlExtractor.instance rt;
    LegacyForgeExtractor.instance rt ].

(* ================================================================== *)
(** ** src/scanner.py *)

Module ModScanner.
Import Py Zip Models.

(** [workers] is the [int] the scanner was made with: it may be zero or
    negative. *)
Record t : Type := {
  workers : Z;
  extractors : list BaseExtractor.t
}.

Fixpoint insert_by_priority (e : BaseExtractor.t) (l : list BaseExtractor.t)
  : list BaseExtractor.t :=
  match l with
  | [] => [e]
  | x :: r =>
      if BaseExtractor.priority e <=? BaseExtractor.priority x
      then e :: l else x :: insert_by_priority e r
  end.

(** [sorted(extractors, key=lambda e: e.priority)]: a stable sort. *)
Definition sorted_by_priority (l : list BaseExtractor.t)
  : list BaseExtractor.t :=
  fold_right insert_by_priority [] l.

(** [__init__]: [extractors or ALL_EXTRACTORS], sorted by priority.  An
    empty list is false and gives the default too. *)
Definition init (rt : Runtime) (workers : Z)
           (extractors : option (list BaseExtractor.t)) : t :=
  {| workers := workers;
     extractors :=
       sorted_by_priority
         match extractors with
         | Some (e :: l) => e :: l
         | _ => ALL_EXTRACTORS rt
         end |}.

(** The copy of a record made for a disabled file: every field taken
    over, [disabled=True]. *)
Definition as_disabled (mod_info : ModInfo) : ModInfo :=
  {| Models.name := Models.name mod_info;
     loader := loader mod_info;
     version := version mod_info;
     filename := filename mod_info;
     mod_id := mod_id mod_info;
     dependencies := dependencies mod_info;
     author := author mod_info;
     description := description mod_info;
     mc_versions := mc_versions mod_info;
     disabled := true |}.

(** The loop over [self.extractors]: the record of the first extractor
    that can extract and whose [extract] returns one. *)
Fixpoint first_extracted (extractors : list BaseExtractor.t)
         (jar : ZipFile) (jar_path : Path) (files : list string)
  : option ModInfo :=
  match extractors with
  | [] => None
  | extractor :: r =>
      if BaseExtractor.can_extract extractor jar files then
        match BaseExtractor.extract extractor jar jar_path files with
        | Some mod_info => Some mod_info
        | None => first_extracted r jar jar_path files
        end
      else first_extracted r jar jar_path files
  end.

(** [_detect_loader_from_filename] *)
Definition _detect_loader_from_filename (filename : string) : string :=
  let filename_lower := PyStr.lower filename in
  if PyStr.contains "fabric" filename_lower then "fabric"
  else if PyStr.contains "neoforge" filename_lower then "neoforge"
  else if PyStr.contains "forge" filename_lower then "forge"
  else if PyStr.contains "quilt" filename_lower then "quilt"
  else "unknown".

(** The body of the loop over the lines of the manifest: [name] and
    [version] so far. *)
Definition manifest_line (acc : option string * option string)
           (line : string) : option string * option string :=
  match PyStr.split_once ":" (PyStr.strip line) with
  | Some (key, value) =>
      let key := PyStr.strip key in
      let value := PyStr.strip value in
      if mem key ["Implementation-Title"; "Bundle-Name";
                  "Automatic-Module-Name"]
      then (Some value, snd acc)
      else if mem key ["Implementation-Version"; "Bundle-Version"]
      then (fst acc, Some value)
      else acc
  | None => acc
  end.

(** [_fallback_extraction] *)
Definition _fallback_extraction (jar : ZipFile) (jar_path : Path)
           (files : list string) : option ModInfo :=
  if mem "META-INF/MANIFEST.MF" files then
    m <- read jar "META-INF/MANIFEST.MF" ;;
    let content := utf8_replace m in
    match fold_left manifest_line (PyStr.split PyStr.newline content)
                    (None, None) with
    | (Some (String c n), Some (String d v)) =>
        Some {| Models.name := VStr (String c n);
                loader := _detect_loader_from_filename (Zip.name jar_path);
                version := VStr (String d v);
                filename := Zip.name jar_path;
                mod_id := VNone;
                dependencies := [];
                author := None;
                description := None;
                mc_versions := [];
                disabled := false |}
    | _ => None
    end
  else None.

(** The record made from the filename alone. *)
Definition minimal (jar_path : Path) (disabled : bool) : ModInfo :=
  {| Models.name := VStr (stem jar_path);
     loader := "unknown";
     version := VStr "Unknown";
     filename := Zip.name jar_path;
     mod_id := VNone;
     dependencies := [];
     author := None;
     description := None;
     mc_versions := [];
     Models.disabled := disabled |}.

(** The exceptions that leave [scan_folder], with [str(e)]. *)
Inductive Exception : Type :=
| FileNotFoundError (msg : string)
| ValueError (msg : string)
| NotImplementedError (msg : string).

(** What a step that may raise gives. *)
Inductive Search (A : Type) : Type :=
| Found (a : A)
| Fails (e : Exception).

Arguments Found {A} a.
Arguments Fails {A} e.

(** What a scan reads of the file system: the tests on the root, the
    opening of a file as an archive, and what iterating
    [path.glob(pattern)] and [path.rglob(pattern)] gives: the paths found,
    or the exception that [pathlib] raises for the pattern (in CPython 3.11
    [ValueError] for the empty pattern of [glob], [NotImplementedError] for
    an absolute pattern). *)
Record FileSystem : Type := {
  path_exists : Path -> bool;
  is_dir : Path -> bool;
  glob : Path -> string -> Search (list Path);
  rglob : Path -> string -> Search (list Path);
  zipfile : Path -> Open
}.

(** [_extract_single_mod(jar_path, disabled)]: the record or [None], and
    the error message or [None]. *)
Definition _extract_single_mod (self : t) (fs : FileSystem)
           (jar_path : Path) (disabled : bool)
  : option ModInfo * option string :=
  match zipfile fs jar_path with
  | Opened jar =>
      let files := namelist jar in
      (* Try each extractor in priority order *)
      match first_extracted (extractors self) jar jar_path files with
      | Some mod_info =>
          (Some (if disabled then as_disabled mod_info else mod_info), None)
      | None =>
          (* Fallback: try alternative extraction methods *)
          match _fallback_extraction jar jar_path files with
          | Some mod_info =>
              (Some (if disabled then as_disabled mod_info else mod_info),
               None)
          | None =>
              (* No metadata found - create basic info from filename *)
              (Some (minimal jar_path disabled),
               Some ("No mod metadata found in " ++ Zip.name jar_path)%string)
          end
      end
  | BadZipFile =>
      (None,
       Some ("Invalid or corrupted JAR file: " ++ Zip.name jar_path)%string)
  | Raises e =>
      (None,
       Some ("Failed to process " ++ Zip.name jar_path ++ ": " ++ e)%string)
  end.

(** How [scan_folder] ends. *)
Inductive Outcome : Type :=
| Raise (e : Exception)
| Return (result : ScanResult).

Definition path_in (f : Path) (l : list Path) : bool :=
  if in_dec Path_eq_dec f l then true else false.

(** The body of the loop over the completed tasks: the record is appended
    when there is one, the error when it is a string that is not empty. *)
Definition collect (self : t) (fs : FileSystem) (disabled_set : list Path)
           (result : ScanResult) (jar_path : Path) : ScanResult :=
  let '(mod_info, error) :=
    _extract_single_mod self fs jar_path (path_in jar_path disabled_set) in
  {| mods := match mod_info with
             | Some m => mods result ++ [m]
             | None => mods result
             end;
     errors := match error with
               | Some (String c e) => errors result ++ [String c e]
               | _ => errors result
               end;
     total_files := total_files result |}.

(** The loop over [exclude_patterns]: each pattern is searched, in the
    order given, and what it finds is taken out of [all_files]; a search
    that raises ends the loop. *)
Fixpoint exclude (find : string -> Search (list Path))
         (exclude_patterns : list string) (all_files : list Path)
  : Search (list Path) :=
  match exclude_patterns with
  | [] => Found all_files
  | pattern :: r =>
      match find pattern with
      | Found excluded =>
          exclude find r
                  (filter (fun f => negb (path_in f excluded)) all_files)
      | Fails e => Fails e
      end
  end.

(** The files a scan considers: found by the two patterns, without those
    an exclusion pattern finds; with them, the disabled files found.  The
    searches are made in the order of the source, and the first one that
    raises ends the scan. *)
Definition discover (fs : FileSystem) (folder_path : Path) (recursive : bool)
           (exclude_patterns : list string) (include_disabled : bool)
  : Search (list Path * list Path) :=
  let find := if recursive then rglob fs folder_path
              else glob fs folder_path in
  match find "*.jar" with
  | Fails e => Fails e
  | Found jar_files =>
      match (if include_disabled then find "*.jar.disabled"
             else Found []) with
      | Fails e => Fails e
      | Found disabled_files =>
          match exclude find exclude_patterns
                        (jar_files ++ disabled_files) with
          | Fails e => Fails e
          | Found all_files => Found (all_files, disabled_files)
          end
      end
  end.

(** [scan_folder], without a progress callback.  [as_completed] gives the
    order in which the tasks submitted for [all_files] complete.
    [exclude_patterns=None] is the empty list.  When there are files,
    [ThreadPoolExecutor(max_workers=self.workers)] raises [ValueError]
    unless [workers] is positive. *)
Definition scan_folder (self : t) (fs : FileSystem)
           (as_completed : list Path -> list Path)
           (folder_path : Path) (recursive : bool)
           (exclude_patterns : list string) (include_disabled : bool)
  : Outcome :=
  if negb (path_exists fs folder_path) then
    Raise (FileNotFoundError ("Folder not found: " ++ str folder_path)%string)
  else if negb (is_dir fs folder_path) then
    Raise (ValueError
             ("Path is not a directory: " ++ str folder_path)%string)
  else
    match discover fs folder_path recursive exclude_patterns
                   include_disabled with
    | Fails e => Raise e
    | Found (all_files, disabled_set) =>
        match all_files with
        | [] => Return {| mods := []; errors := []; total_files := 0 |}
        | _ =>
            if (workers self <=? 0)%Z then
              Raise (ValueError "max_workers must be greater than 0")
            else
              Return (fold_left (collect self fs disabled_set)
                                (as_completed all_files)
                                {| mods := []; errors := [];
                                   total_files := List.length all_files |})
        end
    end.

End ModScanner.

(* ================================================================== *)
(** ** The vocabulary of the properties *)

Module Spec.
Import Py Zip Models.

(** The three outcomes of the inspection of one file: a record and no
    error, a record and an error, no record and an error.  An error is a
    string that is not empty. *)
Inductive shape : option ModInfo * option string -> Prop :=
| Success (m : ModInfo) : shape (Some m, None)
| NoMetadata (m : ModInfo) (c : ascii) (e : string) :
    shape (Some m, Some (String c e))
| Unreadable (c : ascii) (e : string) : shape (None, Some (String c e)).

Definition by_priority (a b : BaseExtractor.t) : Prop :=
  BaseExtractor.priority a <= BaseExtractor.priority b.

(** An extractor is passed over, for an archive, when it cannot extract or
    when its [extract] returns nothing. *)
Definition passed (jar : ZipFile) (jar_path : Path) (e : BaseExtractor.t)
  : Prop :=
  BaseExtractor.can_extract e jar (namelist jar) = false
  \/ BaseExtractor.extract e jar jar_path (namelist jar) = None.

(** The file system [fs] with other archives behind its paths. *)
Definition with_archives (fs : ModScanner.FileSystem) (z : Path -> Open)
  : ModScanner.FileSystem :=
  {| ModScanner.path_exists := ModScanner.path_exists fs;
     ModScanner.is_dir := ModScanner.is_dir fs;
     ModScanner.glob := ModScanner.glob fs;
     ModScanner.rglob := ModScanner.rglob fs;
     ModScanner.zipfile := z |}.

(** The aggregate a scan starts from. *)
Definition empty_result (n : nat) : ScanResult :=
  {| mods := []; errors := []; total_files := n |}.

(** What a match of [r] over the text [w] can leave as [group(1)]: what it
    was before, or a part [u] of [w] that is in the language of the body of
    a group of [r]. *)
Definition captured (r : Re.regex) (w : list ascii)
           (g g' : option (list ascii)) : Prop :=
  g' = g
  \/ exists body u pre post,
      In body (Re.groups r) /\ Re.lang body u /\ g' = Some u
      /\ w = pre ++ u ++ post.

(** A decimal numeral: one digit or more. *)
Definition numeral (s : string) : bool :=
  PyStr.nonempty s && forallb PyStr.isdigit (list_ascii_of_string s).

(** [major.minor] or [major.minor.patch]: two or three numerals with dots
    between them. *)
Definition dotted_numerals (v : string) : bool :=
  let parts := PyStr.split "." v in
  (2 <=? List.length parts) && (List.length parts <=? 3)
  && forallb numeral parts.

(** The order of [sorted] on strings. *)
Definition str_le (a b : string) : Prop := String.leb a b = true.

End Spec.

(* ================================================================== *)
(** ** Concrete inputs *)

Module Examples.
Import Py Zip Models ModScanner.

(** A runtime whose sets list their elements in the order [nodup] keeps. *)
Definition rt0 : Runtime :=
  {| tomllib := true; set_order := nodup string_dec |}.

(** A runtime whose sets list their elements the other way round; CPython
    with [PYTHONHASHSEED=0] lists [{'1.19', '1.20'}] in this order. *)
Definition rt_rev : Runtime :=
  {| tomllib := true; set_order := fun l => rev (nodup string_dec l) |}.

(** A member that is plain ASCII text. *)
Definition plain (text : string) (json toml : option value) : Member :=
  {| raw := text; utf8 := Some text; utf8_replace := text;
     json := json; toml := toml |}.

Definition mods_dir : Path := {| parent := "/srv"; Zip.name := "mods" |}.
Definition in_mods (n : string) : Path :=
  {| parent := "/srv/mods"; Zip.name := n |}.

(** [fabric.mod.json] is cut off after its first brace, [quilt.mod.json]
    is the empty object. *)
Definition both_jar : ZipFile :=
  {| namelist := ["fabric.mod.json"; "quilt.mod.json"];
     read := fun n =>
       if String.eqb n "fabric.mod.json" then Some (plain "{" None None)
       else if String.eqb n "quilt.mod.json"
       then Some (plain "{}" (Some (VDict [])) None)
       else None |}.

(** Both metadata files are the empty object. *)
Definition twin_jar : ZipFile :=
  {| namelist := ["quilt.mod.json"; "fabric.mod.json"];
     read := fun n =>
       if String.eqb n "fabric.mod.json" || String.eqb n "quilt.mod.json"
       then Some (plain "{}" (Some (VDict [])) None)
       else None |}.

(** No metadata file and no manifest. *)
Definition bare_jar : ZipFile :=
  {| namelist := ["assets/icon.png"]; read := fun _ => None |}.

(** Only a manifest, with a title and a version. *)
Definition manifest_jar : ZipFile :=
  {| namelist := ["META-INF/MANIFEST.MF"];
     read := fun n =>
       if String.eqb n "META-INF/MANIFEST.MF"
       then Some (plain "Manifest-Version: 1.0
Implementation-Title: Waystones
Implementation-Version: 14.1.3
" None None)
       else None |}.

(** A [fabric.mod.json] cut off after its first brace, beside the same
    manifest. *)
Definition patched_jar : ZipFile :=
  {| namelist := ["fabric.mod.json"; "META-INF/MANIFEST.MF"];
     read := fun n =>
       if String.eqb n "fabric.mod.json" then Some (plain "{" None None)
       else read manifest_jar n |}.

(** A [neoforge.mods.toml] whose [modLoader] names another loader. *)
Definition neoforge_toml : string :=
  "modLoader = 'javafml'
loaderVersion = '[47,)'
[[mods]]
modId = 'sodium'
version = '0.6.0'
[[dependencies.sodium]]
modId = 'minecraft'
versionRange = '[1.21,1.22)'
".

Definition neoforge_data : value :=
  VDict [("modLoader", VStr "javafml");
         ("loaderVersion", VStr "[47,)");
         ("mods", VList [VDict [("modId", VStr "sodium");
                                ("version", VStr "0.6.0")]]);
         ("dependencies",
          VDict [("sodium",
                  VList [VDict [("modId", VStr "minecraft");
                                ("versionRange", VStr "[1.21,1.22)")]])])].

Definition neoforge_jar : ZipFile :=
  {| namelist := ["META-INF/neoforge.mods.toml"; "META-INF/mods.toml"];
     read := fun n =>
       if String.eqb n "META-INF/neoforge.mods.toml"
          || String.eqb n "META-INF/mods.toml"
       then Some (plain neoforge_toml None (Some neoforge_data))
       else None |}.

(** A folder of five files, one of them no archive and one disabled. *)
Definition jars : list Path :=
  [in_mods "both.jar"; in_mods "broken.jar"; in_mods "bare.jar";
   in_mods "sodium-neoforge.jar"].

Definition off : list Path := [in_mods "waystones.jar.disabled"].

Definition find_in_mods (d : Path) (pattern : string) : list Path :=
  if Path_eq_dec d mods_dir then
    if String.eqb pattern "*.jar" then jars
    else if String.eqb pattern "*.jar.disabled" then off
    else if String.eqb pattern "bare*" then [in_mods "bare.jar"]
    else if String.eqb pattern "*" then jars ++ off
    else []
  else [].

(** The searches as CPython 3.11 makes them: an absolute pattern is
    refused, and so is the empty pattern of [glob]. *)
Definition rglob_in_mods (d : Path) (pattern : string)
  : Search (list Path) :=
  if PyStr.startswith "/" pattern
  then Fails (NotImplementedError "Non-relative patterns are unsupported")
  else Found (find_in_mods d pattern).

Definition glob_in_mods (d : Path) (pattern : string)
  : Search (list Path) :=
  if String.eqb pattern ""
  then Fails (ValueError "Unacceptable pattern: ''")
  else rglob_in_mods d pattern.

Definition disk : FileSystem :=
  {| path_exists := fun p =>
       path_in p (mods_dir :: jars ++ off);
     is_dir := fun p => if Path_eq_dec p mods_dir then true else false;
     glob := glob_in_mods;
     rglob := rglob_in_mods;
     zipfile := fun p =>
       if String.eqb (Zip.name p) "both.jar" then Opened both_jar
       else if String.eqb (Zip.name p) "broken.jar" then BadZipFile
       else if String.eqb (Zip.name p) "bare.jar" then Opened bare_jar
       else if String.eqb (Zip.name p) "sodium-neoforge.jar"
       then Opened neoforge_jar
       else if String.eqb (Zip.name p) "waystones.jar.disabled"
       then Opened manifest_jar
       else Raises "[Errno 2] No such file or directory" |}.

(** The same metadata under [META-INF/mods.toml] only. *)
Definition forge_jar : ZipFile :=
  {| namelist := ["META-INF/mods.toml"];
     read := fun n =>
       if String.eqb n "META-INF/mods.toml"
       then Some (plain neoforge_toml None (Some neoforge_data))
       else None |}.

Definition scanner : ModScanner.t := ModScanner.init rt0 4 None.

End Examples.

(* ================================================================== *)
(** ** src/models.py: the methods of [ScanResult] *)

Module ScanResultMethods.
Import Py Zip Models.

(** [filter_by_loader(loader)] *)
Definition filter_by_loader (self : ScanResult) (loader : string)
  : list ModInfo :=
  filter (fun m => String.eqb (PyStr.lower (Models.loader m))
                              (PyStr.lower loader))
         (mods self).

(** The key functions of [sort_mods], [None] for a field that is no key.  A
    key is [None] when [lower] raises: [name] or [version] is no string. *)
Definition sort_keys (by_ : string) : option (ModInfo -> option string) :=
  if String.eqb by_ "name" then Some (fun m => lower (Models.name m))
  else if String.eqb by_ "loader"
  then Some (fun m => Some (PyStr.lower (loader m)))
  else if String.eqb by_ "version" then Some (fun m => lower (version m))
  else if String.eqb by_ "filename"
  then Some (fun m => Some (PyStr.lower (filename m)))
  else None.

(** The keys of all records, computed before the sort; [None] when one of
    them raises. *)
Fixpoint keyed (key : ModInfo -> option string) (l : list ModInfo)
  : option (list (string * ModInfo)) :=
  match l with
  | [] => Some []
  | m :: r =>
      k <- key m ;;
      kr <- keyed key r ;;
      Some ((k, m) :: kr)
  end.

(** Whether a record with key [a] goes before one with key [b]. *)
Definition goes_first (reverse : bool) (a b : string) : bool :=
  if reverse then String.leb b a else String.leb a b.

Fixpoint insert_keyed (reverse : bool) (x : string * ModInfo)
         (l : list (string * ModInfo)) : list (string * ModInfo) :=
  match l with
  | [] => [x]
  | y :: r =>
      if goes_first reverse (fst x) (fst y) then x :: l
      else y :: insert_keyed reverse x r
  end.

(** [list.sort(key=..., reverse=...)] on the keyed records: a stable sort,
    also when reversed (records with equal keys keep their order). *)
Definition sort_keyed (reverse : bool) (l : list (string * ModInfo))
  : list (string * ModInfo) :=
  fold_right (insert_keyed reverse) [] l.

(** [sort_mods(by, reverse)]: the aggregate after the call; [None] when a
    key raises [AttributeError], which leaves the list as it was. *)
Definition sort_mods (self : ScanResult) (by_ : string) (reverse : bool)
  : option ScanResult :=
  match sort_keys by_ with
  | Some key =>
      km <- keyed key (mods self) ;;
      Some {| mods := map snd (sort_keyed reverse km);
              errors := errors self;
              total_files := total_files self |}
  | None => Some self
  end.

(** A key of the dicts of [get_duplicates]: a string, or a number ([True]
    is the key [1]). *)
Inductive Key : Type :=
| KStr (s : string)
| KInt (z : Z).

Definition Key_eq_dec (a b : Key) : {a = b} + {a <> b}.
Proof. decide equality; [apply string_dec | apply Z.eq_dec]. Defined.

Definition key_eqb (a b : Key) : bool :=
  if Key_eq_dec a b then true else false.

(** [mod.mod_id or mod.name.lower()] as a key.  [None] when the expression
    or its use as a key raises: a [mod_id] that is a list or a dict cannot
    be hashed, and a [name] that is no string has no [lower].  [None] also
    for a [mod_id] that is a float or a date, whose equality [VOther] does
    not determine: such a record is outside this model. *)
Definition key_of (m : ModInfo) : option Key :=
  if truthy (mod_id m) then
    match mod_id m with
    | VStr s => Some (KStr s)
    | VInt z => Some (KInt z)
    | VBool _ => Some (KInt 1)
    | _ => None
    end
  else
    match Models.name m with
    | VStr n => Some (KStr (PyStr.lower n))
    | _ => None
    end.

(** [seen[key]] *)
Fixpoint seen_get (seen : list (Key * list ModInfo)) (key : Key)
  : option (list ModInfo) :=
  match seen with
  | [] => None
  | (k, l) :: r => if key_eqb k key then Some l else seen_get r key
  end.

(** [seen[key].append(mod)] for a key of [seen]. *)
Fixpoint seen_append (seen : list (Key * list ModInfo)) (key : Key)
         (m : ModInfo) : list (Key * list ModInfo) :=
  match seen with
  | [] => []
  | (k, l) :: r =>
      if key_eqb k key then (k, l ++ [m]) :: r
      else (k, l) :: seen_append r key m
  end.

(** The state of the loop of [get_duplicates]: [seen], and the keys of
    [duplicates] in the order they were first set.  The values of
    [duplicates] are the very lists of [seen], so a later [append] shows in
    both; they are read from [seen] at the end. *)
Definition dup_state : Type := (list (Key * list ModInfo) * list Key)%type.

Definition dup_step (st : dup_state) (m : ModInfo) : option dup_state :=
  key <- key_of m ;;
  match seen_get (fst st) key with
  | Some _ =>
      Some (seen_append (fst st) key m,
            if existsb (key_eqb key) (snd st) then snd st
            else snd st ++ [key])
  | None => Some (fst st ++ [(key, [m])], snd st)
  end.

Fixpoint dup_loop (l : list ModInfo) (st : dup_state) : option dup_state :=
  match l with
  | [] => Some st
  | m :: r => st' <- dup_step st m ;; dup_loop r st'
  end.

(** [get_duplicates()]: the dict as an association list. *)
Definition get_duplicates (self : ScanResult)
  : option (list (Key * list ModInfo)) :=
  st <- dup_loop (mods self) ([], []) ;;
  Some (map (fun k => (k, match seen_get (fst st) k with
                          | Some l => l
                          | None => []
                          end))
            (snd st)).

End ScanResultMethods.

(* ================================================================== *)
(** ** main.py: the options of the command line that the filters read *)

Module Args.

(** [filter_loader] and [sort_by] are [None] when the option is not
    given. *)
Record t : Type := {
  filter_loader : option string;
  exclude_unknown : bool;
  no_duplicates : bool;
  sort_by : option string
}.

End Args.

(* ================================================================== *)
(** ** main.py: the filters applied to a scan result *)

Module Main.
Import Py Zip Models ScanResultMethods.

(** [--exclude-unknown]: [[m for m in result.mods if m.loader != 'unknown']] *)
Definition exclude_unknown (l : list ModInfo) : list ModInfo :=
  filter (fun m => negb (String.eqb (loader m) "unknown")) l.

(** The loop of [--no-duplicates]: [seen] and [unique_mods] so far. *)
Fixpoint unique_loop (l : list ModInfo) (seen : list Key)
         (unique_mods : list ModInfo) : option (list ModInfo) :=
  match l with
  | [] => Some unique_mods
  | m :: r =>
      key <- key_of m ;;
      if existsb (key_eqb key) seen then unique_loop r seen unique_mods
      else unique_loop r (seen ++ [key]) (unique_mods ++ [m])
  end.

(** [--no-duplicates]: the records whose key was not seen before. *)
Definition no_duplicates (l : list ModInfo) : option (list ModInfo) :=
  unique_loop l [] [].

(** [result.mods = mods] *)
Definition set_mods (result : ScanResult) (mods_ : list ModInfo)
  : ScanResult :=
  {| mods := mods_;
     errors := errors result;
     total_files := total_files result |}.

(** The filters and the sort that [main] applies to the result of the
    scan, in the order of the source; [None] when a step raises. *)
Definition apply_filters (args : Args.t) (result : ScanResult)
  : option ScanResult :=
  (* Apply filters *)
  let result :=
    match Args.filter_loader args with
    | Some (String c l) =>
        set_mods result (filter_by_loader result (String c l))
    | _ => result
    end in
  let result :=
    if Args.exclude_unknown args
    then set_mods result (exclude_unknown (mods result))
    else result in
  result <- (if Args.no_duplicates args then
               unique_mods <- no_duplicates (mods result) ;;
               Some (set_mods result unique_mods)
             else Some result) ;;
  (* Apply sorting *)
  match Args.sort_by args with
  | Some (String c by_) => sort_mods result (String c by_) false
  | _ => Some result
  end.

End Main.

(* ================================================================== *)
(** ** More vocabulary of the properties *)

Module Spec2.
Import Py Zip Models.

(** The string starts with a character that is no white space. *)
Definition starts_clean (s : string) : Prop :=
  match s with
  | String c _ => PyStr.isspace c = false
  | EmptyString => False
  end.

(** The loader kinds a record can carry. *)
Definition loader_kinds : list string :=
  ["fabric"; "quilt"; "forge"; "neoforge"; "unknown"].

(** What the task of one file adds to the records and to the errors. *)
Definition record_of (self : ModScanner.t) (fs : ModScanner.FileSystem)
           (disabled_set : list Path) (jar_path : Path) : list ModInfo :=
  match fst (ModScanner._extract_single_mod self fs jar_path
               (ModScanner.path_in jar_path disabled_set)) with
  | Some m => [m]
  | None => []
  end.

Definition error_of (self : ModScanner.t) (fs : ModScanner.FileSystem)
           (disabled_set : list Path) (jar_path : Path) : list string :=
  match snd (ModScanner._extract_single_mod self fs jar_path
               (ModScanner.path_in jar_path disabled_set)) with
  | Some (String c e) => [String c e]
  | _ => []
  end.

(** The search of a scan: [rglob] when recursive, [glob] otherwise. *)
Definition find_files (fs : ModScanner.FileSystem) (folder_path : Path)
           (recursive : bool) (pattern : string)
  : ModScanner.Search (list Path) :=
  if recursive then ModScanner.rglob fs folder_path pattern
  else ModScanner.glob fs folder_path pattern.

(** The search for [pattern] raises nothing and finds the path. *)
Definition finds (fs : ModScanner.FileSystem) (folder_path : Path)
           (recursive : bool) (pattern : string) (p : Path) : Prop :=
  exists found,
    find_files fs folder_path recursive pattern = ModScanner.Found found
    /\ In p found.

(** The patterns a scan searches, in the order it searches them. *)
Definition searched (exclude_patterns : list string)
           (include_disabled : bool) : list string :=
  "*.jar" :: (if include_disabled then ["*.jar.disabled"] else [])
  ++ exclude_patterns.

(** Two records are in the order of a sort by [key]. *)
Definition in_order (key : ModInfo -> option string) (reverse : bool)
           (a b : ModInfo) : Prop :=
  exists ka kb,
    key a = Some ka /\ key b = Some kb
    /\ ScanResultMethods.goes_first reverse ka kb = true.

(** The record has the key [k]. *)
Definition keyed_by (k : ScanResultMethods.Key) (m : ModInfo) : bool :=
  match ScanResultMethods.key_of m with
  | Some k' => ScanResultMethods.key_eqb k' k
  | None => false
  end.

(** The two records have the same key. *)
Definition same_key (m x : ModInfo) : bool :=
  match ScanResultMethods.key_of m with
  | Some k => keyed_by k x
  | None => false
  end.

(** The first occurrence wins: a record is kept when no record before it
    has its key.  [before] are the records already passed. *)
Fixpoint first_occurrences (before l : list ModInfo) : list ModInfo :=
  match l with
  | [] => []
  | m :: r =>
      if existsb (same_key m) before
      then first_occurrences (before ++ [m]) r
      else m :: first_occurrences (before ++ [m]) r
  end.

(** The record has the sort key [k]. *)
Definition sorts_as (key : ModInfo -> option string) (k : string)
           (m : ModInfo) : bool :=
  match key m with
  | Some k' => String.eqb k' k
  | None => false
  end.

(** [l1] is [l2] with some elements left out, the others in their order. *)
Inductive sublist {A : Type} : list A -> list A -> Prop :=
| sublist_nil : sublist [] []
| sublist_keep (x : A) (l1 l2 : list A) :
    sublist l1 l2 -> sublist (x :: l1) (x :: l2)
| sublist_drop (x : A) (l1 l2 : list A) :
    sublist l1 l2 -> sublist l1 (x :: l2).

(** The entry of [depends] is an object whose [id] is ["minecraft"]. *)
Definition names_minecraft (dep : value) : bool :=
  match dep with
  | VDict d => eq_str (dget d "id" VNone) "minecraft"
  | _ => false
  end.

(** What an entry of [depends] adds to the dependencies of a Quilt
    record. *)
Definition listed (dep : value) : list value :=
  match dep with
  | VStr s => [VStr s]
  | VDict d =>
      if truthy (dget d "id" VNone)
         && negb (eq_str (dget d "id" VNone) "minecraft")
      then [dget d "id" VNone] else []
  | _ => []
  end.

(** The text is over, or goes on with a character outside the class. *)
Definition stops (p : ascii -> bool) (t : list ascii) : Prop :=
  match t with
  | [] => True
  | a :: _ => p a = false
  end.

(** A list of digits. *)
Definition digits (d : list ascii) : Prop :=
  Forall (fun a => PyStr.isdigit a = true) d.

(** What follows [major.minor] in an exact version: nothing, or a dot and
    the patch numeral. *)
Inductive patch_part : list ascii -> Prop :=
| no_patch : patch_part []
| with_patch (c : list ascii) :
    c <> [] -> digits c -> patch_part ("."%char :: c).

End Spec2.

(* ================================================================== *)
(** ** More concrete inputs *)

Module Examples2.
Import Py Zip Models ModScanner Examples.

(** A runtime without a TOML parser. *)
Definition rt_no_toml : Runtime :=
  {| tomllib := false; set_order := nodup string_dec |}.

(** A [mods.toml] with three dependencies, two of them implicit. *)
Definition jei_toml : string :=
  "modLoader = 'javafml'
[[mods]]
modId = 'jeiaddon'
version = '${file.jarVersion}'
[[dependencies.jeiaddon]]
modId = 'forge'
[[dependencies.jeiaddon]]
modId = 'minecraft'
versionRange = '[1.20.1]'
[[dependencies.jeiaddon]]
modId = 'jei'
".

Definition jei_data : value :=
  VDict [("modLoader", VStr "javafml");
         ("mods", VList [VDict [("modId", VStr "jeiaddon");
                                ("version", VStr "${file.jarVersion}")]]);
         ("dependencies",
          VDict [("jeiaddon",
                  VList [VDict [("modId", VStr "forge")];
                         VDict [("modId", VStr "minecraft");
                                ("versionRange", VStr "[1.20.1]")];
                         VDict [("modId", VStr "jei")]])])].

Definition jei_jar : ZipFile :=
  {| namelist := ["META-INF/mods.toml"; "META-INF/MANIFEST.MF"];
     read := fun n =>
       if String.eqb n "META-INF/mods.toml"
       then Some (plain jei_toml None (Some jei_data))
       else if String.eqb n "META-INF/MANIFEST.MF"
       then Some (plain "Manifest-Version: 1.0
Implementation-Version: 3.2.1
" None None)
       else None |}.

(** Three records: two of the same [mod_id], and one without a [mod_id]
    whose name is the same but for the case of its letters. *)
Definition record (name_ : string) (mod_id_ : value) (file : string)
  : ModInfo :=
  {| Models.name := VStr name_; loader := "fabric"; version := VStr "1.0";
     filename := file; mod_id := mod_id_; dependencies := [];
     author := None; description := None; mc_versions := [];
     disabled := false |}.

Definition sample_mods : list ModInfo :=
  [record "Sodium" (VStr "sodium") "sodium-0.5.jar";
   record "Lithium" (VStr "lithium") "lithium.jar";
   record "Sodium" (VStr "sodium") "sodium-0.6.jar";
   record "LITHIUM" VNone "lithium-copy.jar"].

End Examples2.

(* ================================================================== *)
(** * Properties *)

(** ** Strings *)

Lemma append_nil_r (s : string) : (s ++ "")%string = s.
Proof. induction s as [|c s IH]; simpl; [reflexivity | now rewrite IH]. Qed.

Lemma append_assoc (a b c : string) :
  ((a ++ b) ++ c)%string = (a ++ (b ++ c))%string.
Proof. induction a as [|x a IH]; simpl; [reflexivity | now rewrite IH]. Qed.

Lemma substring_of_refl (s : string) : PyStr.substring_of s s.
Proof. exists "", "". simpl. now rewrite append_nil_r. Qed.

Lemma substring_of_trans (a b c : string) :
  PyStr.substring_of a b -> PyStr.substring_of b c -> PyStr.substring_of a c.
Proof.
  intros (p & q & ->) (p' & q' & ->).
  exists (p' ++ p)%string, (q ++ q')%string.
  now rewrite !append_assoc.
Qed.

Lemma substring_of_append_l (s pre t : string) :
  PyStr.substring_of s t -> PyStr.substring_of s (pre ++ t).
Proof.
  intros (p & q & ->). exists (pre ++ p)%string, q. now rewrite append_assoc.
Qed.

Lemma substring_of_append_r (s t post : string) :
  PyStr.substring_of s t -> PyStr.substring_of s (t ++ post).
Proof.
  intros (p & q & ->). exists p, (q ++ post)%string.
  now rewrite !append_assoc.
Qed.

(* ------------------------------------------------------------------ *)
(** ** The inspection of one file *)

Section Inspection.
Import Py Zip Models ModScanner Spec.

Variable self : ModScanner.t.
Variable fs : FileSystem.

Lemma _extract_single_mod_shape (jar_path : Path) (disabled : bool) :
  shape (_extract_single_mod self fs jar_path disabled).
Proof.
  unfold _extract_single_mod.
  destruct (zipfile fs jar_path) as [| msg | jar]; simpl.
  - constructor.
  - constructor.
  - destruct (first_extracted _ _ _ _); [constructor|].
    destruct (_fallback_extraction _ _ _); constructor.
Qed.

(** One completed task adds at most one record and at most one error, and
    at least one of the two. *)
Lemma collect_counts (ds : list Path) (r : ScanResult) (jar_path : Path) :
  let r' := collect self fs ds r jar_path in
  total_files r' = total_files r
  /\ List.length (mods r) <= List.length (mods r') <= S (List.length (mods r))
  /\ List.length (errors r) <= List.length (errors r')
     <= S (List.length (errors r))
  /\ S (List.length (mods r) + List.length (errors r))
     <= List.length (mods r') + List.length (errors r').
Proof.
  unfold collect.
  destruct (_extract_single_mod_shape jar_path (path_in jar_path ds));
    simpl; rewrite ?length_app; simpl; lia.
Qed.

Lemma fold_collect_counts (ds : list Path) (l : list Path) (r : ScanResult) :
  let r' := fold_left (collect self fs ds) l r in
  total_files r' = total_files r
  /\ List.length (mods r') <= List.length (mods r) + List.length l
  /\ List.length (errors r') <= List.length (errors r) + List.length l
  /\ List.length (mods r) + List.length (errors r) + List.length l
     <= List.length (mods r') + List.length (errors r').
Proof.
  revert r. induction l as [|p l IH]; intros r; simpl.
  - lia.
  - specialize (IH (collect self fs ds r p)).
    pose proof (collect_counts ds r p) as H. simpl in *. lia.
Qed.

End Inspection.

(* ------------------------------------------------------------------ *)
(** ** The selection of an extractor *)

Section Selection.
Import Py Zip Models ModScanner Spec.

Lemma default_extractors (rt : Runtime) (workers : Z) :
  extractors (init rt workers None) = ALL_EXTRACTORS rt.
Proof. reflexivity. Qed.

Lemma insert_by_priority_perm (e : BaseExtractor.t) (l : list BaseExtractor.t) :
  Permutation (insert_by_priority e l) (e :: l).
Proof.
  induction l as [|x l IH]; simpl; [reflexivity|].
  destruct (_ <=? _); [reflexivity|].
  rewrite IH. apply perm_swap.
Qed.

(** The sort of [__init__] keeps the extractors it is given. *)
Lemma sorted_by_priority_perm (l : list BaseExtractor.t) :
  Permutation (sorted_by_priority l) l.
Proof.
  induction l as [|e l IH]; simpl; [reflexivity|].
  now rewrite insert_by_priority_perm, IH.
Qed.

Lemma insert_by_priority_sorted (e : BaseExtractor.t) (l : list BaseExtractor.t) :
  Sorted by_priority l -> Sorted by_priority (insert_by_priority e l).
Proof.
  induction 1 as [|x l Hl IH Hx]; simpl.
  - repeat constructor.
  - destruct (Nat.leb_spec (BaseExtractor.priority e) (BaseExtractor.priority x)).
    + repeat constructor; assumption.
    + constructor; [assumption|].
      destruct Hx as [|y l Hxy]; simpl.
      * constructor. unfold by_priority. lia.
      * destruct (Nat.leb_spec (BaseExtractor.priority e)
                               (BaseExtractor.priority y));
          constructor; unfold by_priority in *; lia.
Qed.

(** The sort of [__init__] puts the extractors in ascending priority. *)
Lemma sorted_by_priority_sorted (l : list BaseExtractor.t) :
  Sorted by_priority (sorted_by_priority l).
Proof.
  induction l as [|e l IH]; simpl; [constructor|].
  now apply insert_by_priority_sorted.
Qed.

Variables (jar : ZipFile) (jar_path : Path).

(** The loop returns the record of the first extractor that is not passed
    over. *)
Lemma first_extracted_Some (exs : list BaseExtractor.t) (m : ModInfo) :
  first_extracted exs jar jar_path (namelist jar) = Some m <->
  exists before e after,
    exs = before ++ e :: after
    /\ Forall (passed jar jar_path) before
    /\ BaseExtractor.can_extract e jar (namelist jar) = true
    /\ BaseExtractor.extract e jar jar_path (namelist jar) = Some m.
Proof.
  split.
  - induction exs as [|x exs IH]; simpl; [discriminate|].
    destruct (BaseExtractor.can_extract x jar (namelist jar)) eqn:Hc.
    + destruct (BaseExtractor.extract x jar jar_path (namelist jar)) as [m'|] eqn:He.
      * intros [= ->]. exists [], x, exs. repeat split; auto.
      * intros H. destruct (IH H) as (b & e & a & -> & Hb & H1 & H2).
        exists (x :: b), e, a. repeat split; auto.
        constructor; [right; exact He | exact Hb].
    + intros H. destruct (IH H) as (b & e & a & -> & Hb & H1 & H2).
      exists (x :: b), e, a. repeat split; auto.
      constructor; [left; exact Hc | exact Hb].
  - intros (b & e & a & -> & Hb & H1 & H2).
    induction Hb as [|x b Hx Hb IH]; simpl.
    + now rewrite H1, H2.
    + destruct Hx as [Hx | Hx]; rewrite Hx.
      * exact IH.
      * destruct (BaseExtractor.can_extract x jar (namelist jar)); exact IH.
Qed.

Lemma first_extracted_None (exs : list BaseExtractor.t) :
  first_extracted exs jar jar_path (namelist jar) = None <->
  Forall (passed jar jar_path) exs.
Proof.
  induction exs as [|x exs IH]; simpl.
  - split; [constructor | reflexivity].
  - destruct (BaseExtractor.can_extract x jar (namelist jar)) eqn:Hc.
    + destruct (BaseExtractor.extract x jar jar_path (namelist jar)) eqn:He.
      * split; [discriminate|].
        intros H. inversion H as [|? ? [H1 | H1] ?]; subst; congruence.
      * rewrite IH. split; intros H.
        -- constructor; [right; exact He | exact H].
        -- now inversion H.
    + rewrite IH. split; intros H.
      * constructor; [left; exact Hc | exact H].
      * now inversion H.
Qed.

End Selection.

(* ------------------------------------------------------------------ *)
(** ** The scan of a folder *)

Section Scan.
Import Py Zip Models ModScanner Spec.

Variable self : ModScanner.t.
Variable fs : FileSystem.
Variable as_completed : list Path -> list Path.
Variables (folder_path : Path) (recursive : bool).
Variables (exclude_patterns : list string) (include_disabled : bool).

(** A scan of a directory whose searches raise nothing returns when no
    file is left, and when the scanner has a positive number of workers;
    every discovered file is counted, and when there are files the
    aggregate is what the completed tasks add, one after the other, to the
    empty aggregate. *)
Lemma scan_folder_returns (all_files disabled_set : list Path) :
  path_exists fs folder_path = true ->
  is_dir fs folder_path = true ->
  discover fs folder_path recursive exclude_patterns include_disabled
  = Found (all_files, disabled_set) ->
  all_files = [] \/ (0 < workers self)%Z ->
  exists r,
    scan_folder self fs as_completed folder_path recursive exclude_patterns
                include_disabled = Return r
    /\ total_files r = List.length all_files
    /\ (all_files = [] -> r = empty_result 0)
    /\ (all_files <> [] ->
        r = fold_left (collect self fs disabled_set)
                      (as_completed all_files)
                      (empty_result (List.length all_files))).
Proof.
  intros He Hd Hdisc Hw. unfold scan_folder. rewrite He, Hd, Hdisc. simpl.
  destruct all_files as [|p l].
  - eexists. repeat split. intros H. now contradiction H.
  - destruct Hw as [Hw | Hw]; [discriminate|].
    apply Z.leb_gt in Hw. rewrite Hw.
    eexists. split; [reflexivity|]. split; [|split].
    + pose proof (fold_collect_counts self fs disabled_set
                    (as_completed (p :: l))
                    (empty_result (List.length (p :: l)))) as H.
      simpl in H. destruct H as [H _]. exact H.
    + discriminate.
    + reflexivity.
Qed.

(** A scan that returns passed the tests on the root, raised in no search,
    and had a positive number of workers unless no file was left. *)
Lemma scan_folder_inv (r : ScanResult) :
  scan_folder self fs as_completed folder_path recursive exclude_patterns
              include_disabled = Return r ->
  path_exists fs folder_path = true /\ is_dir fs folder_path = true
  /\ exists all_files disabled_set,
      discover fs folder_path recursive exclude_patterns include_disabled
      = Found (all_files, disabled_set)
      /\ (all_files = [] \/ (0 < workers self)%Z).
Proof.
  unfold scan_folder.
  destruct (path_exists fs folder_path); [|discriminate].
  destruct (is_dir fs folder_path); [|discriminate]. cbn [negb].
  destruct (discover _ _ _ _ _) as [[all ds]|e]; [|discriminate].
  intros H. split; [reflexivity|]. split; [reflexivity|].
  exists all, ds. split; [reflexivity|].
  destruct all as [|p l]; [now left|]. right.
  destruct (workers self <=? 0)%Z eqn:E; [discriminate|].
  now apply Z.leb_gt.
Qed.

(** The aggregate after a run of completed tasks: what each task adds, in
    the order of completion. *)
Lemma fold_collect_flat (ds l : list Path) (r0 : ScanResult) :
  fold_left (collect self fs ds) l r0
  = {| mods := mods r0 ++ flat_map (Spec2.record_of self fs ds) l;
       errors := errors r0 ++ flat_map (Spec2.error_of self fs ds) l;
       total_files := total_files r0 |}.
Proof.
  revert r0. induction l as [|p l IH]; intros r0; simpl.
  - rewrite !app_nil_r. now destruct r0.
  - rewrite IH. unfold collect, Spec2.record_of, Spec2.error_of.
    destruct (_extract_single_mod self fs p (path_in p ds)) as [[m|] [[|c e]|]];
      simpl; rewrite <- ?app_assoc; reflexivity.
Qed.

(** A scan that returns gives what the tasks add, in the order of
    completion, and counts the files considered. *)
Lemma scan_folder_flat (r : ScanResult) :
  scan_folder self fs as_completed folder_path recursive exclude_patterns
              include_disabled = Return r ->
  exists all_files disabled_set,
    discover fs folder_path recursive exclude_patterns include_disabled
    = Found (all_files, disabled_set)
    /\ (all_files = [] \/ (0 < workers self)%Z)
    /\ r = {| mods := flat_map (Spec2.record_of self fs disabled_set)
                               (match all_files with
                                | [] => []
                                | _ => as_completed all_files
                                end);
              errors := flat_map (Spec2.error_of self fs disabled_set)
                                 (match all_files with
                                  | [] => []
                                  | _ => as_completed all_files
                                  end);
              total_files := List.length all_files |}.
Proof.
  intros Hscan.
  destruct (scan_folder_inv _ Hscan) as (He & Hd & all & ds & Hdisc & Hw).
  exists all, ds. split; [exact Hdisc|]. split; [exact Hw|].
  destruct (scan_folder_returns all ds He Hd Hdisc Hw)
    as (r' & Hr & _ & Hempty & Hfold).
  rewrite Hr in Hscan. injection Hscan as <-.
  destruct all as [|p l].
  - now rewrite (Hempty eq_refl).
  - rewrite Hfold by discriminate. now rewrite fold_collect_flat.
Qed.

(** The files after a completed task are processed from the aggregate the
    task left. *)
Lemma fold_collect_split (ds pre post : list Path) (p : Path)
      (r0 : ScanResult) :
  fold_left (collect self fs ds) (pre ++ p :: post) r0
  = fold_left (collect self fs ds) post
              (collect self fs ds (fold_left (collect self fs ds) pre r0) p).
Proof. now rewrite fold_left_app. Qed.

End Scan.

(* ------------------------------------------------------------------ *)
(** ** The claims about the scanner *)

Section ScannerClaims.
Import Py Zip Models ModScanner Spec.

Variable self : ModScanner.t.
Variable fs : FileSystem.


(** C10.  The inspection of one file gives a record and no error when an
    extractor or the manifest fallback produces a record, the minimal
    record and an error when the archive opens and nothing produces one, and
    no record and an error when the file does not open as an archive.  In a
    completed scan the records and the errors are what the files considered
    give, file by file: each gives at most one record and at most one
    error, and at least one of the two.  So there are no more records and
    no more errors than files considered, and together no fewer. *)
Theorem scan_counts
        (as_completed : list Path -> list Path) (folder_path : Path)
        (recursive : bool) (exclude_patterns : list string)
        (include_disabled : bool) (r : ScanResult) :
  (forall l, Permutation (as_completed l) l) ->
  scan_folder self fs as_completed folder_path recursive exclude_patterns
              include_disabled = Return r ->
  (forall jar_path disabled,
      (forall jar m,
          zipfile fs jar_path = Opened jar ->
          first_extracted (extractors self) jar jar_path (namelist jar)
          = Some m
          \/ (first_extracted (extractors self) jar jar_path (namelist jar)
              = None
              /\ _fallback_extraction jar jar_path (namelist jar) = Some m) ->
          _extract_single_mod self fs jar_path disabled
          = (Some (if disabled then as_disabled m else m), None))
      /\ (forall jar,
             zipfile fs jar_path = Opened jar ->
             first_extracted (extractors self) jar jar_path (namelist jar)
             = None ->
             _fallback_extraction jar jar_path (namelist jar) = None ->
             _extract_single_mod self fs jar_path disabled
             = (Some (minimal jar_path disabled),
                Some ("No mod metadata found in "
                      ++ Zip.name jar_path)%string))
      /\ (zipfile fs jar_path = BadZipFile ->
          _extract_single_mod self fs jar_path disabled
          = (None,
             Some ("Invalid or corrupted JAR file: "
                   ++ Zip.name jar_path)%string))
      /\ (forall msg,
             zipfile fs jar_path = Raises msg ->
             _extract_single_mod self fs jar_path disabled
             = (None,
                Some ("Failed to process " ++ Zip.name jar_path
                      ++ ": " ++ msg)%string))
      /\ shape (_extract_single_mod self fs jar_path disabled))
  /\ (exists all_files disabled_set,
         discover fs folder_path recursive exclude_patterns include_disabled
         = Found (all_files, disabled_set)
         /\ total_files r = List.length all_files
         /\ mods r = flat_map (Spec2.record_of self fs disabled_set)
                              (as_completed all_files)
         /\ errors r = flat_map (Spec2.error_of self fs disabled_set)
                                (as_completed all_files)
         /\ forall p,
             List.length (Spec2.record_of self fs disabled_set p) <= 1
             /\ List.length (Spec2.error_of self fs disabled_set p) <= 1
             /\ 1 <= List.length (Spec2.record_of self fs disabled_set p)
                     + List.length (Spec2.error_of self fs disabled_set p))
  /\ List.length (mods r) <= total_files r
  /\ List.length (errors r) <= total_files r
  /\ total_files r <= List.length (mods r) + List.length (errors r).
Proof.
  intros Hperm Hscan. split; [|split].
  - intros jar_path disabled. unfold _extract_single_mod.
    split; [|split; [|split; [|split]]].
    + intros jar m -> [-> | [-> ->]]; reflexivity.
    + intros jar -> -> ->. reflexivity.
    + intros ->. reflexivity.
    + intros msg ->. reflexivity.
    + apply _extract_single_mod_shape.
  - destruct (scan_folder_flat self fs as_completed folder_path recursive
                exclude_patterns include_disabled r Hscan)
      as (all & ds & Hdisc & _ & ->).
    exists all, ds. split; [exact Hdisc|]. cbn [mods errors total_files].
    assert (Hac : match all with
                  | [] => []
                  | _ :: _ => as_completed all
                  end = as_completed all).
    { destruct all; [|reflexivity].
      symmetry. apply Permutation_nil. symmetry. apply Hperm. }
    rewrite Hac. repeat split; intros;
      unfold Spec2.record_of, Spec2.error_of;
      destruct (_extract_single_mod_shape self fs p (path_in p ds));
      simpl; lia.
  - destruct (scan_folder_inv self fs as_completed folder_path recursive
                exclude_patterns include_disabled r Hscan)
      as (He & Hd & all & ds & Hdisc & Hw).
    destruct (scan_folder_returns self fs as_completed folder_path recursive
                exclude_patterns include_disabled all ds He Hd Hdisc Hw)
      as (r' & Hr & Htot & Hempty & Hfold).
    rewrite Hr in Hscan. injection Hscan as <-.
    destruct all as [|p l].
    + rewrite (Hempty eq_refl). simpl. lia.
    + rewrite Hfold by discriminate.
      pose proof (fold_collect_counts self fs ds (as_completed (p :: l))
                    (empty_result (List.length (p :: l)))) as H.
      rewrite (Permutation_length (Hperm (p :: l))) in H.
      unfold empty_result in *. simpl in *. lia.
Qed.

(** C8.  A file that cannot be opened as an archive gives no record and one
    error, which names the file; in a scan whose searches raise nothing
    and whose scanner has a positive number of workers, the file is counted
    in [total_files], and the files that complete after it are collected as
    before. *)
Theorem unreadable_file_is_one_error
        (as_completed : list Path -> list Path) (folder_path : Path)
        (recursive : bool) (exclude_patterns : list string)
        (include_disabled : bool) (all_files disabled_set : list Path)
        (jar_path : Path) :
  path_exists fs folder_path = true ->
  is_dir fs folder_path = true ->
  discover fs folder_path recursive exclude_patterns include_disabled
  = Found (all_files, disabled_set) ->
  (0 < workers self)%Z ->
  In jar_path all_files ->
  (zipfile fs jar_path = BadZipFile
   \/ exists msg, zipfile fs jar_path = Raises msg) ->
  exists e r,
    (forall disabled,
        _extract_single_mod self fs jar_path disabled = (None, Some e))
    /\ PyStr.substring_of (Zip.name jar_path) e
    /\ scan_folder self fs as_completed folder_path recursive
                   exclude_patterns include_disabled = Return r
    /\ total_files r = List.length all_files
    /\ forall pre post,
        as_completed all_files = pre ++ jar_path :: post ->
        r = fold_left (collect self fs disabled_set) post
              (let a := fold_left (collect self fs disabled_set) pre
                                  (empty_result (List.length all_files)) in
               {| mods := mods a;
                  errors := errors a ++ [e];
                  total_files := total_files a |}).
Proof.
  intros He Hd Hdisc Hw Hin Hbad.
  destruct (scan_folder_returns self fs as_completed folder_path recursive
              exclude_patterns include_disabled all_files disabled_set
              He Hd Hdisc (or_intror Hw)) as (r & Hr & Htot & _ & Hfold).
  assert (Hne : all_files <> []) by (intros ->; contradiction).
  specialize (Hfold Hne).
  assert (Hone : exists c e,
             (forall disabled,
                 _extract_single_mod self fs jar_path disabled
                 = (None, Some (String c e)))
             /\ PyStr.substring_of (Zip.name jar_path) (String c e)).
  { unfold _extract_single_mod.
    destruct Hbad as [-> | [msg ->]]; simpl; do 2 eexists;
      (split; [reflexivity|]).
    - apply (substring_of_append_l _ "Invalid or corrupted JAR file: ").
      apply substring_of_refl.
    - apply (substring_of_append_l _ "Failed to process ").
      apply substring_of_append_r, substring_of_refl. }
  destruct Hone as (c & e & Hex & Hsub).
  exists (String c e), r. repeat split; auto.
  intros pre post Hac. rewrite Hfold, Hac, fold_collect_split.
  f_equal. unfold collect at 1. now rewrite Hex.
Qed.


(** C3.  For a file flagged as disabled, the record an extractor or the
    manifest fallback produced is emitted with [disabled] true and with
    every other field as produced. *)
Theorem disabled_sets_only_the_flag
        (jar_path : Path) (jar : ZipFile) (m : ModInfo) :
  zipfile fs jar_path = Opened jar ->
  first_extracted (extractors self) jar jar_path (namelist jar) = Some m
  \/ (first_extracted (extractors self) jar jar_path (namelist jar) = None
      /\ _fallback_extraction jar jar_path (namelist jar) = Some m) ->
  _extract_single_mod self fs jar_path false = (Some m, None)
  /\ exists m',
      _extract_single_mod self fs jar_path true = (Some m', None)
      /\ disabled m' = true
      /\ Models.name m' = Models.name m
      /\ loader m' = loader m
      /\ version m' = version m
      /\ filename m' = filename m
      /\ mod_id m' = mod_id m
      /\ dependencies m' = dependencies m
      /\ author m' = author m
      /\ description m' = description m
      /\ mc_versions m' = mc_versions m.
Proof.
  intros Hopen Hm. unfold _extract_single_mod. rewrite Hopen.
  destruct Hm as [-> | [-> ->]]; (split; [reflexivity|]);
    eexists; (split; [reflexivity|]); simpl; repeat split.
Qed.

End ScannerClaims.

Section SelectionClaim.
Import Py Zip Models ModScanner Spec.

(** C1, amended.  The extractors of a scanner are kept in ascending
    priority; the default ones are Fabric (1), Quilt (2), Forge TOML (3) and
    Legacy Forge (4), tried in this order.  The record
    comes from the first extractor that can extract and whose [extract]
    returns a record; an extractor whose [extract] returns nothing is passed
    over like one that cannot extract, and the later ones are tried.  When
    every extractor is passed over, the manifest fallback is consulted, and
    its record is the one returned; only when it gives none is the record
    made from the filename, with an error.  For an
    archive that lists [fabric.mod.json], a record that [FabricExtractor]
    extracts is the one returned. *)
Theorem extractors_tried_until_one_succeeds
        (rt : Runtime) (workers : Z) (fs : FileSystem) (jar_path : Path)
        (disabled : bool) (jar : ZipFile) :
  zipfile fs jar_path = Opened jar ->
  map BaseExtractor.priority (extractors (init rt workers None))
  = [1; 2; 3; 4]
  /\ map BaseExtractor.name (extractors (init rt workers None))
     = ["Fabric"; "Quilt"; "Forge/NeoForge TOML"; "Legacy Forge"]
  /\ (forall given,
         Sorted by_priority (extractors (init rt workers given)))
  /\ (forall m,
         first_extracted (extractors (init rt workers None)) jar jar_path
                         (namelist jar) = Some m
         <-> exists before e after,
             extractors (init rt workers None) = before ++ e :: after
             /\ Forall (passed jar jar_path) before
             /\ BaseExtractor.can_extract e jar (namelist jar) = true
             /\ BaseExtractor.extract e jar jar_path (namelist jar) = Some m)
  /\ (forall m,
         first_extracted (extractors (init rt workers None)) jar jar_path
                         (namelist jar) = Some m ->
         _extract_single_mod (init rt workers None) fs jar_path disabled
         = (Some (if disabled then as_disabled m else m), None))
  /\ (Forall (passed jar jar_path) (extractors (init rt workers None)) ->
      first_extracted (extractors (init rt workers None)) jar jar_path
                      (namelist jar) = None
      /\ _extract_single_mod (init rt workers None) fs jar_path disabled
         = match _fallback_extraction jar jar_path (namelist jar) with
           | Some m =>
               (Some (if disabled then as_disabled m else m), None)
           | None =>
               (Some (minimal jar_path disabled),
                Some ("No mod metadata found in "
                      ++ Zip.name jar_path)%string)
           end)
  /\ (mem "fabric.mod.json" (namelist jar) = true ->
      forall m,
        FabricExtractor.extract rt jar jar_path (namelist jar) = Some m ->
        first_extracted (extractors (init rt workers None)) jar jar_path
                        (namelist jar) = Some m).
Proof.
  intros Hopen. split; [reflexivity|]. split; [reflexivity|].
  split; [intros given; apply sorted_by_priority_sorted|].
  split; [intros m; apply first_extracted_Some|]. split; [|split].
  - intros m Hm. unfold _extract_single_mod. now rewrite Hopen, Hm.
  - intros Hpassed. apply first_extracted_None in Hpassed.
    split; [exact Hpassed|].
    unfold _extract_single_mod. rewrite Hopen, Hpassed.
    now destruct (_fallback_extraction jar jar_path (namelist jar)).
  - intros Hmem m Hm. rewrite default_extractors.
    unfold ALL_EXTRACTORS, first_extracted.
    cbn [BaseExtractor.can_extract BaseExtractor.extract
         FabricExtractor.instance].
    unfold FabricExtractor.can_extract, FabricExtractor.METADATA_FILE.
    now rewrite Hmem, Hm.
Qed.

Lemma extractors_tried_until_one_succeeds_witness :
  zipfile (with_archives Examples.disk (fun _ => Opened Examples.twin_jar))
          (Examples.in_mods "twin.jar") = Opened Examples.twin_jar
  /\ mem "fabric.mod.json" (namelist Examples.twin_jar) = true
  /\ (exists m,
         FabricExtractor.extract Examples.rt0 Examples.twin_jar
           (Examples.in_mods "twin.jar") (namelist Examples.twin_jar) = Some m
         /\ loader m = "fabric"
         /\ _extract_single_mod (init Examples.rt0 4 None)
              (with_archives Examples.disk
                             (fun _ => Opened Examples.twin_jar))
              (Examples.in_mods "twin.jar") true
            = (Some (as_disabled m), None))
  /\ exists m,
      _fallback_extraction Examples.patched_jar
        (Examples.in_mods "waystones.jar") (namelist Examples.patched_jar)
      = Some m
      /\ Models.name m = VStr "Waystones"
      /\ _extract_single_mod (init Examples.rt0 4 None)
           (with_archives Examples.disk
                          (fun _ => Opened Examples.patched_jar))
           (Examples.in_mods "waystones.jar") false
         = (Some m, None).
Proof.
  split; [reflexivity|]. split; [reflexivity|]. split.
  - eexists. split; [reflexivity|]. split; [reflexivity|].
    destruct (extractors_tried_until_one_succeeds Examples.rt0 4
                (with_archives Examples.disk
                               (fun _ => Opened Examples.twin_jar))
                (Examples.in_mods "twin.jar") true Examples.twin_jar eq_refl)
      as (_ & _ & _ & _ & Hres & _ & Hfab).
    apply Hres, Hfab; reflexivity.
  - eexists. split; [reflexivity|]. split; [reflexivity|].
    destruct (extractors_tried_until_one_succeeds Examples.rt0 4
                (with_archives Examples.disk
                               (fun _ => Opened Examples.patched_jar))
                (Examples.in_mods "waystones.jar") false
                Examples.patched_jar eq_refl)
      as (_ & _ & _ & _ & _ & Hfall & _).
    refine (proj2 (Hfall _)).
    repeat constructor; first [left; reflexivity | right; reflexivity].
Defined.

(** C1 as stated fails.  The archive lists [fabric.mod.json] and
    [quilt.mod.json]; the first extractor that can extract is
    [FabricExtractor], whose [extract] returns nothing on the broken JSON;
    the loop then goes on to [QuiltExtractor], and the record returned is a
    Quilt record. *)
Lemma failed_extract_is_not_final :
  find (fun e => BaseExtractor.can_extract e Examples.both_jar
                   (namelist Examples.both_jar))
       (extractors Examples.scanner)
  = Some (FabricExtractor.instance Examples.rt0)
  /\ FabricExtractor.extract Examples.rt0 Examples.both_jar
       (Examples.in_mods "both.jar") (namelist Examples.both_jar) = None
  /\ first_extracted (extractors Examples.scanner) Examples.both_jar
       (Examples.in_mods "both.jar") (namelist Examples.both_jar)
     = QuiltExtractor.extract Examples.rt0 Examples.both_jar
         (Examples.in_mods "both.jar") (namelist Examples.both_jar)
  /\ exists m,
      _extract_single_mod Examples.scanner Examples.disk
        (Examples.in_mods "both.jar") false = (Some m, None)
      /\ loader m = "quilt".
Proof.
  split; [reflexivity|]. split; [reflexivity|]. split; [reflexivity|].
  eexists. split; reflexivity.
Qed.

End SelectionClaim.

Section ScannerWitnesses.
Import Py Zip Models ModScanner Spec Examples.


Lemma scan_counts_witness :
  (forall l : list Path, Permutation (rev l) l)
  /\ exists r,
      scan_folder scanner disk (@rev Path) mods_dir false [] true = Return r
      /\ total_files r = 5
      /\ map filename (mods r)
         = ["waystones.jar.disabled"; "sodium-neoforge.jar"; "bare.jar";
            "both.jar"]
      /\ errors r = ["No mod metadata found in bare.jar";
                     "Invalid or corrupted JAR file: broken.jar"]
      /\ _extract_single_mod scanner disk (in_mods "broken.jar") false
         = (None, Some "Invalid or corrupted JAR file: broken.jar")
      /\ List.length (mods r) <= total_files r
      /\ List.length (errors r) <= total_files r
      /\ total_files r <= List.length (mods r) + List.length (errors r).
Proof.
  assert (Hp : forall l : list Path, Permutation (rev l) l)
    by (intros l; symmetry; apply Permutation_rev).
  split; [exact Hp|].
  eexists. split; [vm_compute; reflexivity|]. split; [reflexivity|].
  split; [reflexivity|]. split; [reflexivity|].
  destruct (scan_counts scanner disk (@rev Path) mods_dir false [] true _ Hp
                        eq_refl) as (Hcause & _ & Hcount).
  split; [|exact Hcount].
  destruct (Hcause (in_mods "broken.jar") false) as (_ & _ & Hbad & _).
  exact (Hbad eq_refl).
Defined.

Lemma unreadable_file_is_one_error_witness :
  zipfile disk (in_mods "broken.jar") = BadZipFile
  /\ exists r,
      scan_folder scanner disk (fun l => l) mods_dir false [] true = Return r
      /\ total_files r = 5
      /\ errors r = ["Invalid or corrupted JAR file: broken.jar";
                     "No mod metadata found in bare.jar"]
      /\ List.length (mods r) = 4.
Proof.
  split; [reflexivity|].
  destruct (unreadable_file_is_one_error scanner disk (fun l => l) mods_dir
              false [] true (jars ++ off) off (in_mods "broken.jar")
              eq_refl eq_refl eq_refl eq_refl
              (or_intror (or_introl eq_refl))
              (or_introl eq_refl))
    as (e & r & Hex & _ & Hscan & Htot & Hrest).
  exists r. split; [exact Hscan|]. split; [exact Htot|].
  specialize (Hex false). injection Hex as <-.
  rewrite (Hrest [in_mods "both.jar"]
                 [in_mods "bare.jar"; in_mods "sodium-neoforge.jar";
                  in_mods "waystones.jar.disabled"] eq_refl).
  split; reflexivity.
Defined.


Lemma disabled_sets_only_the_flag_witness :
  exists m m',
    _extract_single_mod scanner disk (in_mods "waystones.jar.disabled") false
    = (Some m, None)
    /\ _extract_single_mod scanner disk (in_mods "waystones.jar.disabled")
         true = (Some m', None)
    /\ Models.name m = VStr "Waystones"
    /\ Models.name m' = VStr "Waystones"
    /\ disabled m = false
    /\ disabled m' = true.
Proof.
  eexists.
  destruct (disabled_sets_only_the_flag scanner disk
              (in_mods "waystones.jar.disabled") manifest_jar _ eq_refl
              (or_intror (conj eq_refl eq_refl)))
    as (H & m' & H' & Hd & Hn & _).
  exists m'. split; [exact H|]. split; [exact H'|].
  split; [reflexivity|]. split; [rewrite Hn; reflexivity|].
  split; [reflexivity | exact Hd].
Defined.

End ScannerWitnesses.

(* ------------------------------------------------------------------ *)
(** ** The loader of a Forge or NeoForge archive *)

Section ForgeClaim.
Import Py Zip Models ForgeTomlExtractor.

Lemma _detect_loader_neoforge_file (data : value) (jar_path : Path) :
  _detect_loader "META-INF/neoforge.mods.toml" data jar_path
  = Some "neoforge".
Proof. reflexivity. Qed.

Lemma _find_toml_file_neoforge (files : list string) :
  mem "META-INF/neoforge.mods.toml" files = true ->
  _find_toml_file files = Some "META-INF/neoforge.mods.toml".
Proof.
  intros H. unfold _find_toml_file, TOML_FILES. simpl. now rewrite H.
Qed.

(** C6.  When the archive lists [META-INF/neoforge.mods.toml], that file is
    the one read, [_detect_loader] answers [neoforge] by its first rule
    whatever the metadata holds, and a record that [extract] returns has
    the loader [neoforge]. *)
Theorem neoforge_file_decides
        (rt : Runtime) (jar : ZipFile) (jar_path : Path) :
  mem "META-INF/neoforge.mods.toml" (namelist jar) = true ->
  _find_toml_file (namelist jar) = Some "META-INF/neoforge.mods.toml"
  /\ (forall data p,
         _detect_loader "META-INF/neoforge.mods.toml" data p
         = Some "neoforge")
  /\ (forall m,
         extract rt jar jar_path (namelist jar) = Some m ->
         loader m = "neoforge").
Proof.
  intros Hmem. pose proof (_find_toml_file_neoforge _ Hmem) as Hfind.
  split; [exact Hfind|]. split; [intros; apply _detect_loader_neoforge_file|].
  intros m. unfold extract. rewrite Hfind.
  repeat match goal with
         | |- match ?x with _ => _ end = Some _ -> _ =>
             let E := fresh "E" in destruct x eqn:E; try discriminate
         end.
  rewrite _detect_loader_neoforge_file in *.
  intros [= <-]. simpl. congruence.
Qed.

Lemma neoforge_file_decides_witness :
  mem "META-INF/neoforge.mods.toml" (namelist Examples.neoforge_jar) = true
  /\ get Examples.neoforge_data "modLoader" VNone = Some (VStr "javafml")
  /\ (exists m,
         extract Examples.rt0 Examples.neoforge_jar
                 (Examples.in_mods "sodium.jar")
                 (namelist Examples.neoforge_jar) = Some m
         /\ loader m = "neoforge")
  /\ (exists m,
         extract Examples.rt0 Examples.forge_jar
                 (Examples.in_mods "sodium.jar")
                 (namelist Examples.forge_jar) = Some m
         /\ loader m = "forge").
Proof.
  split; [reflexivity|]. split; [reflexivity|]. split.
  - eexists. split; [reflexivity|].
    apply (neoforge_file_decides Examples.rt0 Examples.neoforge_jar
             (Examples.in_mods "sodium.jar") eq_refl).
    reflexivity.
  - eexists. split; reflexivity.
Defined.

End ForgeClaim.

(* ------------------------------------------------------------------ *)
(** ** The matcher *)

Section Matcher.
Import Re Spec.

Lemma rep_sound {R : Type} (p : ascii -> bool) (k : cont R)
      (s : list ascii) (i : nat) (g : option (list ascii)) (x : R) :
  rep p k i s g = Some x ->
  exists w s',
    s = w ++ s' /\ Forall (fun a => p a = true) w
    /\ k (i + List.length w) s' g = Some x.
Proof.
  revert i. induction s as [|a s IH]; intros i; simpl.
  - intros H. exists [], []. simpl. rewrite Nat.add_0_r. auto.
  - destruct (p a) eqn:Hp.
    + destruct (rep p k (S i) s g) as [y|] eqn:Hr.
      * intros [= ->]. destruct (IH (S i) Hr) as (w & s' & -> & Hw & Hk).
        exists (a :: w), s'. simpl. repeat split; auto.
        now rewrite Nat.add_succ_r.
      * intros H. exists [], (a :: s). simpl. rewrite Nat.add_0_r. auto.
    + intros H. exists [], (a :: s). simpl. rewrite Nat.add_0_r. auto.
Qed.

Lemma captured_left (r1 r2 : regex) (w1 w2 : list ascii)
      (g g' : option (list ascii)) :
  captured r1 w1 g g' -> captured (Cat r1 r2) (w1 ++ w2) g g'.
Proof.
  intros [-> | (body & u & pre & post & Hin & Hl & -> & ->)].
  - now left.
  - right. exists body, u, pre, (post ++ w2). simpl.
    repeat split; auto.
    + apply in_or_app. now left.
    + now rewrite <- !app_assoc.
Qed.

Lemma captured_right (r1 r2 : regex) (w1 w2 : list ascii)
      (g g1 g' : option (list ascii)) :
  captured r1 w1 g g1 -> captured r2 w2 g1 g' ->
  captured (Cat r1 r2) (w1 ++ w2) g g'.
Proof.
  intros H1 [-> | (body & u & pre & post & Hin & Hl & -> & ->)].
  - now apply captured_left.
  - right. exists body, u, (w1 ++ pre), post. simpl.
    repeat split; auto.
    + apply in_or_app. now right.
    + now rewrite <- !app_assoc.
Qed.

(** A successful run of the matcher reads a word of the language of the
    pattern, goes on with the continuation behind it, and leaves as group 1
    what was captured before or a part of that word. *)
Lemma exec_sound (r : regex) :
  forall (R : Type) (k : cont R) (i : nat) (s : list ascii)
         (g : option (list ascii)) (x : R),
    exec r k i s g = Some x ->
    exists w s' g',
      s = w ++ s' /\ lang r w
      /\ k (i + List.length w) s' g' = Some x
      /\ captured r w g g'.
Proof.
  induction r as [p | p | r1 IH1 r2 IH2 | r1 IH1 | r1 IH1 | | ];
    intros R k i s g x; simpl.
  - destruct s as [|a s]; [discriminate|].
    destruct (p a) eqn:Hp; [|discriminate].
    intros H. exists [a], s, g. simpl. rewrite Nat.add_1_r.
    repeat split; auto. { now exists a. } now left.
  - intros H. destruct (rep_sound p k s i g x H) as (w & s' & -> & Hw & Hk).
    exists w, s', g. repeat split; auto. now left.
  - intros H.
    destruct (IH1 _ _ _ _ _ _ H) as (w1 & s1 & g1 & -> & L1 & H1 & C1).
    destruct (IH2 _ _ _ _ _ _ H1) as (w2 & s2 & g2 & -> & L2 & H2 & C2).
    exists (w1 ++ w2), s2, g2. rewrite length_app, Nat.add_assoc.
    repeat split; auto.
    + now rewrite app_assoc.
    + now exists w1, w2.
    + now apply captured_right with g1.
  - destruct (exec r1 k i s g) as [y|] eqn:He.
    + intros [= ->].
      destruct (IH1 _ _ _ _ _ _ He) as (w & s' & g' & -> & L & H & C).
      exists w, s', g'. repeat split; auto.
    + intros H. exists [], s, g. simpl. rewrite Nat.add_0_r.
      repeat split; auto. now left.
  - intros H.
    destruct (IH1 _ _ _ _ _ _ H) as (w & s' & g' & -> & L & Hk & C).
    replace (i + List.length w - i) with (List.length w) in Hk by lia.
    rewrite firstn_app, Nat.sub_diag, firstn_all in Hk. simpl in Hk.
    rewrite app_nil_r in Hk.
    exists w, s', (Some w). repeat split; auto.
    right. exists r1, w, [], []. simpl. rewrite app_nil_r. auto.
  - destruct (i =? 0); [|discriminate].
    intros H. exists [], s, g. simpl. rewrite Nat.add_0_r.
    repeat split; auto. now left.
  - intros H. exists [], s, g. simpl. rewrite Nat.add_0_r.
    assert (Hk : k i s g = Some x).
    { destruct s as [|a [|b s]]; try discriminate; auto.
      destruct (PyStr.same a PyStr.newline); [auto | discriminate]. }
    repeat split; auto. now left.
Qed.

(** A match reads a word of the language of the pattern from where it
    starts, and its group 1 is a part of that word. *)
Lemma match_at_sound (r : regex) (i j : nat) (s : list ascii)
      (g : option (list ascii)) :
  match_at r i s = Some (j, g) ->
  exists w s',
    s = w ++ s' /\ j = i + List.length w /\ lang r w /\ captured r w None g.
Proof.
  unfold match_at. intros H.
  destruct (exec_sound r _ _ _ _ _ _ H) as (w & s' & g' & -> & L & [= <- <-] & C).
  now exists w, s'.
Qed.

(** Every group 1 that [finditer] yields is a part of the text, in the
    language of the body of a group of the pattern. *)
Lemma finditer_from_sound (r : regex) (s : list ascii) :
  forall (i skip : nat) (u : list ascii),
    In (Some u) (finditer_from r i s skip) ->
    exists body pre post,
      In body (groups r) /\ lang body u /\ s = pre ++ u ++ post.
Proof.
  assert (Hcons : forall a t u,
             (exists body pre post,
                 In body (groups r) /\ lang body u /\ t = pre ++ u ++ post) ->
             exists body pre post,
               In body (groups r) /\ lang body u /\ a :: t = pre ++ u ++ post).
  { intros a t u (body & pre & post & Hin & Hl & ->).
    now exists body, (a :: pre), post. }
  induction s as [|a s IH]; intros i skip u.
  - destruct skip as [|n]; simpl; [|contradiction].
    destruct (match_at r i []) as [[j g]|] eqn:Hm; simpl; [|contradiction].
    intros [-> | []].
    destruct (match_at_sound _ _ _ _ _ Hm) as (w & s' & Hs & _ & _ & C).
    destruct C as [C | (body & u' & pre & post & Hin & Hl & [= ->] & ->)];
      [discriminate|].
    exists body, pre, (post ++ s'). repeat split; auto.
    now rewrite Hs, <- !app_assoc.
  - destruct skip as [|n]; simpl.
    + destruct (match_at r i (a :: s)) as [[j g]|] eqn:Hm; simpl.
      * intros [-> | Hin].
        -- destruct (match_at_sound _ _ _ _ _ Hm) as (w & s' & Hs & _ & _ & C).
           destruct C as [C | (body & u' & pre & post & Hin & Hl & [= ->] & ->)];
             [discriminate|].
           exists body, pre, (post ++ s'). repeat split; auto.
           now rewrite Hs, <- !app_assoc.
        -- apply Hcons. eapply IH. exact Hin.
      * intros Hin. apply Hcons. eapply IH. exact Hin.
    + intros Hin. apply Hcons. eapply IH. exact Hin.
Qed.

End Matcher.

(* ------------------------------------------------------------------ *)
(** ** The version-constraint parser *)

Section Parser.
Import Py Re Base Spec.

Lemma string_of_list_ascii_app (a b : list ascii) :
  string_of_list_ascii (a ++ b)
  = (string_of_list_ascii a ++ string_of_list_ascii b)%string.
Proof. induction a as [|c a IH]; simpl; [reflexivity | now rewrite IH]. Qed.

Lemma lstrip_suffix (s : string) :
  exists pre, s = (pre ++ PyStr.lstrip s)%string.
Proof.
  induction s as [|c s (pre & IH)]; simpl.
  - now exists "".
  - destruct (PyStr.isspace c).
    + exists (String c pre). simpl. now rewrite <- IH.
    + now exists "".
Qed.

Lemma rstrip_prefix (s : string) :
  exists post, s = (PyStr.rstrip s ++ post)%string.
Proof.
  induction s as [|c s (post & IH)]; simpl.
  - now exists "".
  - destruct (PyStr.rstrip s) as [|d r] eqn:Hr.
    + destruct (PyStr.isspace c).
      * exists (String c s). reflexivity.
      * exists s. reflexivity.
    + exists post. simpl. now rewrite IH at 1.
Qed.

(** The stripped constraint is a part of the constraint. *)
Lemma strip_substring (s : string) : PyStr.substring_of (PyStr.strip s) s.
Proof.
  unfold PyStr.strip.
  destruct (lstrip_suffix s) as (pre & Hpre).
  destruct (rstrip_prefix (PyStr.lstrip s)) as (post & Hpost).
  exists pre, post. now rewrite <- Hpost.
Qed.

Lemma digit_is_no_dot (a : ascii) :
  digit a = true -> PyStr.same a "." = false.
Proof.
  destruct a as [[] [] [] [] [] [] [] []]; vm_compute; congruence.
Qed.

Lemma split_digits (d : list ascii) :
  Forall (fun a => digit a = true) d ->
  PyStr.split "." (string_of_list_ascii d) = [string_of_list_ascii d].
Proof.
  induction 1 as [|a d Ha Hd IH]; simpl; [reflexivity|].
  now rewrite (digit_is_no_dot a Ha), IH.
Qed.

Lemma split_digits_dot (d rest : list ascii) :
  Forall (fun a => digit a = true) d ->
  PyStr.split "." (string_of_list_ascii (d ++ "."%char :: rest))
  = string_of_list_ascii d :: PyStr.split "." (string_of_list_ascii rest).
Proof.
  induction 1 as [|a d Ha Hd IH]; simpl; [reflexivity|].
  now rewrite (digit_is_no_dot a Ha), IH.
Qed.

Lemma lang_Rep1 (p : ascii -> bool) (w : list ascii) :
  lang (Rep1 p) w -> w <> [] /\ Forall (fun a => p a = true) w.
Proof.
  intros (u & v & -> & (a & -> & Ha) & Hv). simpl. split; [discriminate|].
  now constructor.
Qed.

Lemma lang_chr (c : ascii) (w : list ascii) : lang (Cls (chr c)) w -> w = [c].
Proof.
  intros (a & -> & Ha). unfold chr, PyStr.same in Ha.
  apply Ascii.eqb_eq in Ha. now subst.
Qed.

Lemma numeral_digits (d : list ascii) :
  d <> [] -> Forall (fun a => digit a = true) d ->
  numeral (string_of_list_ascii d) = true.
Proof.
  intros Hne Hd. unfold numeral.
  rewrite list_ascii_of_string_of_list_ascii.
  assert (Hall : forallb PyStr.isdigit d = true).
  { apply forallb_forall. intros x Hx.
    rewrite Forall_forall in Hd. now apply Hd. }
  rewrite Hall. destruct d as [|a d]; [contradiction | reflexivity].
Qed.

(** A word of [\d+\.\d+] is two numerals with a dot between them. *)
Lemma version2_dotted (u : list ascii) :
  lang version2 u -> dotted_numerals (string_of_list_ascii u) = true.
Proof.
  intros (d1 & r1 & -> & H1 & dot & d2 & -> & Hdot & H2).
  apply lang_Rep1 in H1, H2. apply lang_chr in Hdot. subst dot.
  destruct H1 as [N1 D1], H2 as [N2 D2].
  unfold dotted_numerals. simpl app.
  rewrite (split_digits_dot d1 d2 D1), (split_digits d2 D2). simpl.
  now rewrite (numeral_digits d1 N1 D1), (numeral_digits d2 N2 D2).
Qed.

(** A word of [\d+\.\d+(?:\.\d+)?] is two or three numerals with dots
    between them. *)
Lemma version3_dotted (u : list ascii) :
  lang version3 u -> dotted_numerals (string_of_list_ascii u) = true.
Proof.
  intros (d1 & r1 & -> & H1 & dot & r2 & -> & Hdot & d2 & r3 & -> & H2 & H3).
  apply lang_Rep1 in H1, H2. apply lang_chr in Hdot. subst dot.
  destruct H1 as [N1 D1], H2 as [N2 D2].
  destruct H3 as [-> | (dot & d3 & -> & Hdot & H3)].
  - rewrite app_nil_r. unfold dotted_numerals. simpl app.
    rewrite (split_digits_dot d1 d2 D1), (split_digits d2 D2). simpl.
    now rewrite (numeral_digits d1 N1 D1), (numeral_digits d2 N2 D2).
  - apply lang_Rep1 in H3. apply lang_chr in Hdot. subst dot.
    destruct H3 as [N3 D3].
    unfold dotted_numerals. simpl app.
    rewrite (split_digits_dot d1 _ D1), (split_digits_dot d2 d3 D2),
      (split_digits d3 D3). simpl.
    now rewrite (numeral_digits d1 N1 D1), (numeral_digits d2 N2 D2),
      (numeral_digits d3 N3 D3).
Qed.

(** The groups of the five patterns are [version3] and [version2]. *)
Lemma pattern_groups (pattern body : regex) :
  In pattern MC_VERSION_PATTERNS -> In body (groups pattern) ->
  body = version3 \/ body = version2.
Proof.
  unfold MC_VERSION_PATTERNS.
  intros [<- | [<- | [<- | [<- | [<- | []]]]]]; simpl;
    intros [<- | []]; auto.
Qed.

Lemma set_add_In (x v : string) (l : list string) :
  In v (set_add x l) <-> In v l \/ (v = x /\ ~ In x l).
Proof.
  unfold set_add, mem.
  destruct (existsb (String.eqb x) l) eqn:E.
  - split; [now left|]. intros [H | [-> H]]; [exact H|].
    exfalso. apply H. apply existsb_exists in E.
    destruct E as (y & Hy & Hxy). apply String.eqb_eq in Hxy. now subst.
  - rewrite in_app_iff. simpl. split.
    + intros [H | [<- | []]]; [now left|]. right. split; [reflexivity|].
      intros Hin. assert (existsb (String.eqb x) l = true); [|congruence].
      apply existsb_exists. exists x. split; [exact Hin|].
      apply String.eqb_refl.
    + intros [H | [-> _]]; auto.
Qed.

Lemma set_add_NoDup (x : string) (l : list string) :
  NoDup l -> NoDup (set_add x l).
Proof.
  intros H. unfold set_add, mem.
  destruct (existsb (String.eqb x) l) eqn:E; [exact H|].
  apply NoDup_app; [exact H | repeat constructor; intros [] |].
  intros y Hy [<- | []].
  assert (existsb (String.eqb x) l = true); [|congruence].
  apply existsb_exists. exists x. split; [exact Hy|].
  apply String.eqb_refl.
Qed.

Lemma add_match_In (v : string) (g : option (list ascii)) (l : list string) :
  In v (add_match l g) ->
  In v l \/ exists u, g = Some u /\ v = string_of_list_ascii u.
Proof.
  unfold add_match. destruct g as [[|c w]|]; auto.
  destruct (2 <=? _); auto.
  intros H. apply set_add_In in H. destruct H as [H | [-> _]]; auto.
  right. now exists (c :: w).
Qed.

Lemma add_match_NoDup (g : option (list ascii)) (l : list string) :
  NoDup l -> NoDup (add_match l g).
Proof.
  unfold add_match. destruct g as [[|c w]|]; auto.
  destruct (2 <=? _); auto. apply set_add_NoDup.
Qed.

Lemma add_pattern_In (c v : string) (pattern : regex) (l : list string) :
  In v (add_pattern c l pattern) ->
  In v l
  \/ exists u, In (Some u) (finditer pattern c) /\ v = string_of_list_ascii u.
Proof.
  unfold add_pattern. generalize (finditer pattern c). intros gs. revert l.
  induction gs as [|g gs IH]; intros l; simpl; auto.
  intros H. destruct (IH _ H) as [H' | (u & Hu & ->)].
  - destruct (add_match_In _ _ _ H') as [? | (u & -> & ->)]; auto.
    right. exists u. auto.
  - right. exists u. auto.
Qed.

Lemma add_pattern_NoDup (c : string) (pattern : regex) (l : list string) :
  NoDup l -> NoDup (add_pattern c l pattern).
Proof.
  unfold add_pattern. generalize (finditer pattern c). intros gs. revert l.
  induction gs as [|g gs IH]; intros l H; simpl; auto.
  apply IH. now apply add_match_NoDup.
Qed.

Lemma add_patterns_In (c v : string) (patterns : list regex)
      (l : list string) :
  In v (fold_left (add_pattern c) patterns l) ->
  In v l
  \/ exists pattern u,
      In pattern patterns /\ In (Some u) (finditer pattern c)
      /\ v = string_of_list_ascii u.
Proof.
  revert l. induction patterns as [|p ps IH]; intros l; simpl; auto.
  intros H. destruct (IH _ H) as [H' | (q & u & Hq & Hu & ->)].
  - destruct (add_pattern_In _ _ _ _ H') as [? | (u & Hu & ->)]; auto.
    right. exists p, u. auto.
  - right. exists q, u. auto.
Qed.

Lemma add_patterns_NoDup (c : string) (patterns : list regex)
      (l : list string) :
  NoDup l -> NoDup (fold_left (add_pattern c) patterns l).
Proof.
  revert l. induction patterns as [|p ps IH]; intros l H; simpl; auto.
  apply IH. now apply add_pattern_NoDup.
Qed.

Lemma insert_perm (x : string) (l : list string) :
  Permutation (insert x l) (x :: l).
Proof.
  induction l as [|y l IH]; simpl; [reflexivity|].
  destruct (String.leb x y); [reflexivity|].
  rewrite IH. apply perm_swap.
Qed.

(** [sorted] rearranges its argument. *)
Lemma sorted_perm (l : list string) : Permutation (sorted l) l.
Proof.
  induction l as [|x l IH]; simpl; [reflexivity|].
  now rewrite insert_perm, IH.
Qed.

Lemma insert_Sorted (x : string) (l : list string) :
  Sorted str_le l -> Sorted str_le (insert x l).
Proof.
  induction 1 as [|y l Hl IH Hy]; simpl.
  - repeat constructor.
  - destruct (String.leb x y) eqn:E.
    + repeat constructor; assumption.
    + assert (Hyx : str_le y x).
      { destruct (String.leb_total x y) as [H | H]; [congruence | exact H]. }
      constructor; [assumption|].
      destruct Hy as [|z l Hyz]; simpl.
      * now constructor.
      * destruct (String.leb x z); now constructor.
Qed.

(** [sorted] gives a list in ascending order. *)
Lemma sorted_Sorted (l : list string) : Sorted str_le (sorted l).
Proof.
  induction l as [|x l IH]; simpl; [constructor|].
  now apply insert_Sorted.
Qed.

(** The string branch: the result is in ascending order and repeats no
    version. *)
Lemma parse_str_sorted_nodup (s : string) :
  Sorted str_le (parse_str s) /\ NoDup (parse_str s).
Proof.
  unfold parse_str. split; [apply sorted_Sorted|].
  eapply Permutation_NoDup; [symmetry; apply sorted_perm|].
  apply add_patterns_NoDup. constructor.
Qed.

(** The string branch: every version returned is two or three numerals with
    dots between them, and a part of the constraint. *)
Lemma parse_str_sound (s v : string) :
  In v (parse_str s) ->
  dotted_numerals v = true /\ PyStr.substring_of v s.
Proof.
  unfold parse_str. intros H.
  apply (Permutation_in _ (sorted_perm _)) in H.
  apply add_patterns_In in H.
  destruct H as [[] | (pattern & u & Hp & Hu & ->)].
  unfold finditer in Hu.
  destruct (finditer_from_sound _ _ _ _ _ Hu)
    as (body & pre & post & Hb & Hl & Hs).
  split.
  - destruct (pattern_groups _ _ Hp Hb) as [-> | ->].
    + now apply version3_dotted.
    + now apply version2_dotted.
  - apply substring_of_trans with (PyStr.strip s); [|apply strip_substring].
    exists (string_of_list_ascii pre), (string_of_list_ascii post).
    rewrite <- !string_of_list_ascii_app, <- Hs.
    now rewrite string_of_list_ascii_of_string.
Qed.

End Parser.

Section ParserClaims.
Import Py Re Base Spec.

(** The list branch: the results of the items, one after the other, listed
    in the order of the set. *)
Lemma parse_list (rt : Runtime) (item : value) (items : list value) :
  _parse_mc_versions rt (VList (item :: items))
  = set_order rt (flat_map (_parse_mc_versions rt) (item :: items)).
Proof.
  reflexivity.
Qed.

(** The list branch repeats no version and returns the versions of its
    items, whatever the order of the set is. *)
Lemma parse_list_nodup_union (rt : Runtime) (items : list value) :
  set_order_ok rt ->
  NoDup (_parse_mc_versions rt (VList items))
  /\ forall v,
      In v (_parse_mc_versions rt (VList items))
      <-> exists item, In item items /\ In v (_parse_mc_versions rt item).
Proof.
  intros Hok. destruct items as [|item items].
  - split; [constructor|]. intros v. split; [intros [] | intros (? & [] & _)].
  - rewrite parse_list. pose proof (Hok (flat_map (_parse_mc_versions rt)
                                                 (item :: items))) as Hp.
    split.
    + eapply Permutation_NoDup; [symmetry; exact Hp | apply NoDup_nodup].
    + intros v. split.
      * intros H. apply (Permutation_in _ Hp) in H.
        apply nodup_In, in_flat_map in H. exact H.
      * intros H. apply (Permutation_in _ (Permutation_sym Hp)).
        apply nodup_In, in_flat_map. exact H.
Qed.

(** C4.  For a string input, every version returned is of the form
    [major.minor] or [major.minor.patch], two or three decimal numerals with
    dots between them, and occurs in the input as a contiguous part. *)
Theorem versions_are_dotted_parts_of_the_input
        (rt : Runtime) (s v : string) :
  In v (_parse_mc_versions rt (VStr s)) ->
  dotted_numerals v = true /\ PyStr.substring_of v s.
Proof.
  destruct s as [|c s]; [intros []|].
  cbn [_parse_mc_versions truthy PyStr.nonempty negb].
  apply parse_str_sound.
Qed.

Lemma versions_are_dotted_parts_of_the_input_witness :
  In "1.20.1" (_parse_mc_versions Examples.rt0 (VStr " ~1.20.1 "))
  /\ dotted_numerals "1.20.1" = true
  /\ PyStr.substring_of "1.20.1" " ~1.20.1 ".
Proof.
  assert (H : In "1.20.1" (_parse_mc_versions Examples.rt0 (VStr " ~1.20.1 ")))
    by (vm_compute; auto).
  split; [exact H|].
  exact (versions_are_dotted_parts_of_the_input Examples.rt0 " ~1.20.1 "
           "1.20.1" H).
Defined.

(** C5.  The examples of the specification: ["1.20.x"] gives [1.20],
    [">=1.20 <1.21"] gives [1.20] and [1.21], the list of ["1.19"] and
    ["1.20"] gives these two in the order of the set, and [None], the empty
    string, the empty list and every value that is neither a string nor a
    list give nothing. *)
Theorem parse_examples (rt : Runtime) :
  set_order_ok rt ->
  _parse_mc_versions rt (VStr "1.20.x") = ["1.20"]
  /\ _parse_mc_versions rt (VStr ">=1.20 <1.21") = ["1.20"; "1.21"]
  /\ Permutation (_parse_mc_versions rt (VList [VStr "1.19"; VStr "1.20"]))
                 ["1.19"; "1.20"]
  /\ _parse_mc_versions rt VNone = []
  /\ _parse_mc_versions rt (VStr "") = []
  /\ _parse_mc_versions rt (VList []) = []
  /\ forall v,
      (forall s, v <> VStr s) -> (forall l, v <> VList l) ->
      _parse_mc_versions rt v = [].
Proof.
  intros Hok.
  split; [vm_compute; reflexivity|]. split; [vm_compute; reflexivity|].
  split.
  - rewrite parse_list.
    change (flat_map (_parse_mc_versions rt) [VStr "1.19"; VStr "1.20"])
      with (parse_str "1.19" ++ parse_str "1.20" ++ []).
    replace (parse_str "1.19" ++ parse_str "1.20" ++ [])
      with ["1.19"; "1.20"] by (vm_compute; reflexivity).
    exact (Hok ["1.19"; "1.20"]).
  - repeat split; try reflexivity.
    intros v Hs Hl. destruct v; simpl;
      try (destruct (negb _); reflexivity); try reflexivity.
    + now contradiction (Hs s).
    + now contradiction (Hl l).
Qed.

Lemma parse_examples_witness :
  set_order_ok Examples.rt0
  /\ _parse_mc_versions Examples.rt0 (VList [VStr "1.19"; VStr "1.20"])
     = ["1.19"; "1.20"]
  /\ _parse_mc_versions Examples.rt0 (VStr "1.20.x") = ["1.20"]
  /\ _parse_mc_versions Examples.rt0 (VInt 120) = [].
Proof.
  assert (Hok : set_order_ok Examples.rt0) by (intros l; reflexivity).
  split; [exact Hok|]. split; [vm_compute; reflexivity|].
  destruct (parse_examples Examples.rt0 Hok) as (H1 & _ & _ & _ & _ & _ & H).
  split; [exact H1|]. apply H; discriminate.
Defined.

(** C2 at a list.  Under a runtime whose sets list ["1.20"] before ["1.19"]
    (an order that lists every element once), the list of ["1.19"] and
    ["1.20"] gives ["1.20"; "1.19"], which is not in ascending order, while
    each item alone and the two in one string give sorted results. *)
Theorem list_branch_is_not_sorted :
  set_order_ok Examples.rt_rev
  /\ _parse_mc_versions Examples.rt_rev (VList [VStr "1.19"; VStr "1.20"])
     = ["1.20"; "1.19"]
  /\ String.leb "1.20" "1.19" = false
  /\ _parse_mc_versions Examples.rt_rev (VStr "1.19 1.20") = ["1.19"; "1.20"].
Proof.
  split.
  - intros l. symmetry. apply Permutation_rev.
  - repeat split; vm_compute; reflexivity.
Qed.

End ParserClaims.

(* ------------------------------------------------------------------ *)
(** ** More on strings *)

Section StringFacts.
Import Spec2.

Lemma lower_char_idempotent (c : ascii) :
  PyStr.lower_char (PyStr.lower_char c) = PyStr.lower_char c.
Proof. destruct c as [[] [] [] [] [] [] [] []]; vm_compute; reflexivity. Qed.

Lemma lower_idempotent (s : string) :
  PyStr.lower (PyStr.lower s) = PyStr.lower s.
Proof.
  induction s as [|c s IH]; simpl; [reflexivity|].
  now rewrite lower_char_idempotent, IH.
Qed.

Lemma lstrip_starts_clean (s : string) : starts_clean (PyStr.lstrip s) \/ PyStr.lstrip s = "".
Proof.
  induction s as [|c s IH]; simpl; [now right|].
  destruct (PyStr.isspace c) eqn:E; [exact IH|]. left. exact E.
Qed.

Lemma lstrip_clean (s : string) : starts_clean s -> PyStr.lstrip s = s.
Proof. destruct s as [|c s]; simpl; [intros [] | now intros ->]. Qed.

Lemma rstrip_head (c : ascii) (s : string) :
  PyStr.isspace c = false ->
  exists r, PyStr.rstrip (String c s) = String c r.
Proof.
  intros E. simpl. destruct (PyStr.rstrip s) as [|d r].
  - rewrite E. now exists "".
  - now exists (String d r).
Qed.

Lemma rstrip_idempotent (s : string) :
  PyStr.rstrip (PyStr.rstrip s) = PyStr.rstrip s.
Proof.
  induction s as [|c s IH]; simpl; [reflexivity|].
  destruct (PyStr.rstrip s) as [|d r] eqn:E.
  - destruct (PyStr.isspace c) eqn:Ec; simpl; [reflexivity|]. now rewrite Ec.
  - simpl in IH. simpl. destruct (PyStr.rstrip r) as [|e r'] eqn:E'.
    + destruct (PyStr.isspace d); [discriminate|]. now inversion IH.
    + now inversion IH.
Qed.

(** A stripped string is empty, or starts and ends with a character that is
    no white space. *)
Lemma strip_clean (s : string) :
  PyStr.strip s = ""
  \/ (starts_clean (PyStr.strip s) /\ PyStr.rstrip (PyStr.strip s) = PyStr.strip s).
Proof.
  unfold PyStr.strip.
  destruct (lstrip_starts_clean s) as [H | H].
  - right. split; [|apply rstrip_idempotent].
    destruct (PyStr.lstrip s) as [|c r]; [destruct H|]. simpl in H.
    destruct (rstrip_head c r H) as (r' & ->). exact H.
  - left. now rewrite H.
Qed.

Lemma strip_idempotent (s : string) :
  PyStr.strip (PyStr.strip s) = PyStr.strip s.
Proof.
  destruct (strip_clean s) as [H | [H1 H2]].
  - now rewrite H.
  - unfold PyStr.strip at 1. now rewrite (lstrip_clean _ H1).
Qed.

Lemma rstrip_app (a t : string) :
  PyStr.rstrip t <> "" ->
  PyStr.rstrip (a ++ t) = (a ++ PyStr.rstrip t)%string.
Proof.
  intros Hne. induction a as [|x a IH]; simpl; [reflexivity|].
  rewrite IH. destruct (a ++ PyStr.rstrip t)%string as [|d r] eqn:E.
  - destruct a; simpl in E; [contradiction | discriminate].
  - reflexivity.
Qed.

End StringFacts.

(* ------------------------------------------------------------------ *)
(** ** More on the parser and the helpers of [base.py] *)

Section BaseFacts.
Import Py Re Base Spec Spec2.

(** The string branch of [_parse_mc_versions] returns its versions in
    ascending order and none of them twice. *)
Theorem string_branch_sorted_without_repeats (rt : Runtime) (s : string) :
  Sorted str_le (_parse_mc_versions rt (VStr s))
  /\ NoDup (_parse_mc_versions rt (VStr s)).
Proof.
  destruct s as [|c s]; [split; constructor|].
  cbn [_parse_mc_versions truthy PyStr.nonempty negb].
  apply parse_str_sorted_nodup.
Qed.

Lemma parse_nonempty (rt : Runtime) (c : ascii) (s : string) :
  _parse_mc_versions rt (VStr (String c s)) = parse_str (String c s).
Proof. reflexivity. Qed.

(** White space around a constraint changes nothing: the constraint and the
    stripped constraint give the same versions. *)
Theorem surrounding_space_is_ignored (rt : Runtime) (s : string) :
  _parse_mc_versions rt (VStr (PyStr.strip s)) = _parse_mc_versions rt (VStr s).
Proof.
  destruct s as [|c s]; [reflexivity|].
  rewrite (parse_nonempty rt c s).
  destruct (PyStr.strip (String c s)) as [|d t] eqn:E.
  - unfold parse_str. rewrite E. vm_compute. reflexivity.
  - rewrite parse_nonempty. unfold parse_str.
    rewrite <- E. now rewrite strip_idempotent.
Qed.

Lemma author_names_clean (l : list value) :
  Forall (fun n => starts_clean n /\ PyStr.rstrip n = n) (author_names l).
Proof.
  induction l as [|x l IH]; simpl; [constructor|].
  destruct x as [| | | | a | |d]; auto.
  - destruct (strip_clean a) as [H | H].
    + now rewrite H.
    + destruct (PyStr.nonempty (PyStr.strip a)); auto.
  - destruct (por _ _) as [| | | | n | |]; auto.
    destruct (strip_clean n) as [H | H].
    + rewrite H. simpl. now rewrite andb_false_r.
    + destruct (PyStr.nonempty n && PyStr.nonempty (PyStr.strip n)); auto.
Qed.

Lemma join_clean (sep : string) (names : list string) :
  names <> [] ->
  Forall (fun n => starts_clean n /\ PyStr.rstrip n = n) names ->
  starts_clean (PyStr.join sep names)
  /\ PyStr.rstrip (PyStr.join sep names) = PyStr.join sep names.
Proof.
  unfold PyStr.join. intros Hne H.
  induction H as [|n names [Hs Hr] Hrest IH]; [contradiction|].
  destruct names as [|m names]; [now split|].
  destruct IH as [IHs IHr]; [discriminate|].
  change (String.concat sep (n :: m :: names))
    with (n ++ sep ++ String.concat sep (m :: names))%string.
  set (rest := String.concat sep (m :: names)) in *.
  assert (Hrest_ne : rest <> "") by (destruct rest; [destruct IHs | discriminate]).
  split.
  - destruct n; [destruct Hs | exact Hs].
  - assert (H1 : PyStr.rstrip (sep ++ rest) = (sep ++ rest)%string).
    { rewrite rstrip_app; rewrite IHr; [reflexivity | exact Hrest_ne]. }
    rewrite rstrip_app; rewrite H1; [reflexivity|].
    destruct sep; simpl; [exact Hrest_ne | discriminate].
Qed.

(** [_normalize_authors] never returns an empty string or one with white
    space around it, and gives its own result back unchanged. *)
Theorem normalized_author_is_stripped (authors : value) (a : string) :
  _normalize_authors authors = Some a ->
  a <> "" /\ PyStr.strip a = a /\ _normalize_authors (VStr a) = Some a.
Proof.
  intros H.
  assert (Hc : starts_clean a /\ PyStr.rstrip a = a).
  { unfold _normalize_authors in H.
    destruct (negb (truthy authors)); [discriminate|].
    destruct authors as [| | | | s | l |]; try discriminate.
    - unfold strip_or_none in H.
      destruct (strip_clean s) as [E | E].
      + now rewrite E in H.
      + destruct (PyStr.nonempty (PyStr.strip s)); [|discriminate].
        now injection H as <-.
    - destruct (author_names l) as [|n names] eqn:E; [discriminate|].
      assert (Hj : starts_clean (PyStr.join ", " (n :: names))
                   /\ PyStr.rstrip (PyStr.join ", " (n :: names))
                      = PyStr.join ", " (n :: names)).
      { apply join_clean; [discriminate|].
        rewrite <- E. apply author_names_clean. }
      injection H as <-. exact Hj. }
  destruct Hc as [Hs Hr].
  assert (Hstrip : PyStr.strip a = a).
  { unfold PyStr.strip. now rewrite (lstrip_clean a Hs). }
  assert (Hne : a <> "") by (destruct a; [destruct Hs | discriminate]).
  repeat split; auto.
  unfold _normalize_authors, strip_or_none. rewrite Hstrip.
  destruct a; [contradiction | reflexivity].
Qed.

Lemma normalized_author_is_stripped_witness :
  _normalize_authors
    (VList [VStr "  jellysquid "; VDict [("name", VStr "IMS ")]; VInt 7;
            VStr "   "])
  = Some "jellysquid, IMS"
  /\ PyStr.strip "jellysquid, IMS" = "jellysquid, IMS"
  /\ _normalize_authors (VStr "jellysquid, IMS") = Some "jellysquid, IMS".
Proof.
  split; [reflexivity|].
  destruct (normalized_author_is_stripped
              (VList [VStr "  jellysquid "; VDict [("name", VStr "IMS ")];
                      VInt 7; VStr "   "])
              "jellysquid, IMS" eq_refl) as (_ & H2 & H3).
  split; [exact H2 | exact H3].
Defined.

End BaseFacts.

(* ------------------------------------------------------------------ *)
(** ** More on the scanner *)

(** Case analysis along a chain of steps that may fail. *)
Ltac step_through :=
  repeat match goal with
         | |- match ?x with _ => _ end = Some _ -> _ =>
             let E := fresh "E" in destruct x eqn:E; try discriminate
         end.

Section ScannerFacts.
Import Py Zip Models ModScanner Spec Spec2.

Lemma prefix_app (p s : string) :
  String.prefix p s = true <-> exists post, s = (p ++ post)%string.
Proof.
  revert s. induction p as [|a p IH]; intros s; simpl.
  - split; [intros _; now exists s | destruct s; reflexivity].
  - destruct s as [|b s]; simpl.
    + split; [discriminate | intros (post & H); discriminate].
    + destruct (Ascii.ascii_dec a b) as [<- | Hab].
      * rewrite IH. split; intros (post & H); exists post.
        -- now rewrite H.
        -- now injection H.
      * split; [discriminate|]. intros (post & H). injection H as H1 H2.
        now contradiction Hab.
Qed.

(** The test [sub in s] answers whether [sub] occurs in [s]. *)
Lemma contains_substring (sub s : string) :
  PyStr.contains sub s = true <-> PyStr.substring_of sub s.
Proof.
  split.
  - induction s as [|c s IH]; cbn [PyStr.contains]; intros H;
      apply orb_true_iff in H; destruct H as [H | H]; try discriminate.
    + apply prefix_app in H. destruct H as (post & ->). now exists "", post.
    + apply prefix_app in H. destruct H as (post & ->). now exists "", post.
    + destruct (IH H) as (pre & post & ->). now exists (String c pre), post.
  - intros (pre & post & ->). induction pre as [|c pre IH].
    + simpl append.
      assert (Hp : String.prefix sub (sub ++ post) = true)
        by (apply prefix_app; now exists post).
      destruct (sub ++ post)%string; cbn [PyStr.contains]; now rewrite Hp.
    + simpl append. cbn [PyStr.contains]. rewrite IH. apply orb_true_r.
Qed.

Lemma contains_lower_neoforge_forge (s : string) :
  PyStr.contains "neoforge" s = true -> PyStr.contains "forge" s = true.
Proof.
  rewrite !contains_substring. intros (pre & post & ->).
  exists (pre ++ "neo")%string, post. now rewrite append_assoc.
Qed.

(** The loader read off a filename is one of the five kinds, does not depend
    on the case of the letters, is [neoforge] and not [forge] for a name
    that holds [neoforge] (unless it holds [fabric]), and is [unknown] only
    when the name holds none of the four words. *)
Theorem filename_hint (filename : string) :
  In (_detect_loader_from_filename filename) loader_kinds
  /\ _detect_loader_from_filename (PyStr.lower filename)
     = _detect_loader_from_filename filename
  /\ (PyStr.contains "neoforge" (PyStr.lower filename) = true ->
      _detect_loader_from_filename filename = "fabric"
      \/ _detect_loader_from_filename filename = "neoforge")
  /\ (_detect_loader_from_filename filename = "unknown" <->
      PyStr.contains "fabric" (PyStr.lower filename) = false
      /\ PyStr.contains "forge" (PyStr.lower filename) = false
      /\ PyStr.contains "quilt" (PyStr.lower filename) = false).
Proof.
  unfold _detect_loader_from_filename. rewrite lower_idempotent.
  pose proof (contains_lower_neoforge_forge (PyStr.lower filename)) as Hnf.
  destruct (PyStr.contains "fabric" (PyStr.lower filename));
    destruct (PyStr.contains "neoforge" (PyStr.lower filename));
    destruct (PyStr.contains "forge" (PyStr.lower filename));
    destruct (PyStr.contains "quilt" (PyStr.lower filename));
    simpl; repeat split; auto; try discriminate;
    try (intros; intuition discriminate);
    try (specialize (Hnf eq_refl); discriminate).
Qed.


Lemma _detect_loader_from_filename_kinds (filename : string) :
  In (_detect_loader_from_filename filename) loader_kinds.
Proof.
  unfold _detect_loader_from_filename, loader_kinds.
  repeat match goal with |- context [if ?c then _ else _] => destruct c end;
    simpl; auto 6.
Qed.

Lemma fabric_record (rt : Runtime) (jar : ZipFile) (p : Path)
      (files : list string) (m : ModInfo) :
  FabricExtractor.extract rt jar p files = Some m ->
  filename m = Zip.name p /\ disabled m = false /\ loader m = "fabric".
Proof.
  unfold FabricExtractor.extract. step_through. intros [= <-]. auto.
Qed.

Lemma quilt_record (rt : Runtime) (jar : ZipFile) (p : Path)
      (files : list string) (m : ModInfo) :
  QuiltExtractor.extract rt jar p files = Some m ->
  filename m = Zip.name p /\ disabled m = false /\ loader m = "quilt".
Proof.
  unfold QuiltExtractor.extract. step_through. intros [= <-]. auto.
Qed.

Lemma legacy_record (rt : Runtime) (jar : ZipFile) (p : Path)
      (files : list string) (m : ModInfo) :
  LegacyForgeExtractor.extract rt jar p files = Some m ->
  filename m = Zip.name p /\ disabled m = false /\ loader m = "forge".
Proof.
  unfold LegacyForgeExtractor.extract. step_through. intros [= <-]. auto.
Qed.

Lemma _detect_loader_kinds (toml_file : string) (data : value) (p : Path)
      (l : string) :
  ForgeTomlExtractor._detect_loader toml_file data p = Some l ->
  l = "neoforge" \/ l = "forge".
Proof.
  unfold ForgeTomlExtractor._detect_loader. step_through;
    intros [= <-]; auto.
Qed.

Lemma forge_toml_record (rt : Runtime) (jar : ZipFile) (p : Path)
      (files : list string) (m : ModInfo) :
  ForgeTomlExtractor.extract rt jar p files = Some m ->
  filename m = Zip.name p /\ disabled m = false
  /\ (loader m = "neoforge" \/ loader m = "forge").
Proof.
  unfold ForgeTomlExtractor.extract. step_through. intros [= <-]. simpl.
  repeat split.
  match goal with
  | H : ForgeTomlExtractor._detect_loader _ _ _ = Some _ |- _ =>
      exact (_detect_loader_kinds _ _ _ _ H)
  end.
Qed.

Lemma fallback_record (jar : ZipFile) (p : Path) (files : list string)
      (m : ModInfo) :
  _fallback_extraction jar p files = Some m ->
  filename m = Zip.name p /\ disabled m = false
  /\ loader m = _detect_loader_from_filename (Zip.name p).
Proof.
  unfold _fallback_extraction. step_through. intros [= <-]. auto.
Qed.

(** What the default scanner returns for one file: a record carries the
    name of the file, the flag it was inspected with, and one of the five
    loader kinds. *)
Lemma default_record (rt : Runtime) (workers : Z) (fs : FileSystem)
      (p : Path) (d : bool) (m : ModInfo) (e : option string) :
  _extract_single_mod (init rt workers None) fs p d = (Some m, e) ->
  filename m = Zip.name p /\ disabled m = d /\ In (loader m) loader_kinds.
Proof.
  unfold _extract_single_mod. destruct (zipfile fs p) as [| msg | jar];
    try discriminate.
  assert (Hflag : forall m0 : ModInfo,
             filename m0 = Zip.name p -> disabled m0 = false ->
             In (loader m0) loader_kinds ->
             filename (if d then as_disabled m0 else m0) = Zip.name p
             /\ disabled (if d then as_disabled m0 else m0) = d
             /\ In (loader (if d then as_disabled m0 else m0)) loader_kinds).
  { intros m0 H1 H2 H3. destruct d; simpl; auto. }
  destruct (first_extracted _ _ _ _) as [m0|] eqn:Hf.
  - intros [= <- <-]. apply first_extracted_Some in Hf.
    destruct Hf as (before & x & after & Hexs & _ & _ & Hx).
    assert (Hin : In x (ALL_EXTRACTORS rt)).
    { rewrite <- (default_extractors rt workers), Hexs.
      apply in_or_app. right. now left. }
    destruct Hin as [<- | [<- | [<- | [<- | []]]]]; simpl in Hx.
    + destruct (fabric_record _ _ _ _ _ Hx) as (H1 & H2 & H3).
      apply Hflag; auto. rewrite H3. simpl. auto.
    + destruct (quilt_record _ _ _ _ _ Hx) as (H1 & H2 & H3).
      apply Hflag; auto. rewrite H3. simpl. auto.
    + destruct (forge_toml_record _ _ _ _ _ Hx) as (H1 & H2 & [H3 | H3]);
        apply Hflag; auto; rewrite H3; simpl; auto.
    + destruct (legacy_record _ _ _ _ _ Hx) as (H1 & H2 & H3).
      apply Hflag; auto. rewrite H3. simpl. auto.
  - destruct (_fallback_extraction _ _ _) as [m0|] eqn:Hb.
    + intros [= <- <-].
      destruct (fallback_record _ _ _ _ Hb) as (H1 & H2 & H3).
      apply Hflag; auto. rewrite H3. apply _detect_loader_from_filename_kinds.
    + intros [= <- <-]. simpl. repeat split. auto 8.
Qed.

(** Every error of an inspection names the file. *)
Lemma error_names_the_file (self : ModScanner.t) (fs : FileSystem)
      (p : Path) (d : bool) (e : string) :
  snd (_extract_single_mod self fs p d) = Some e ->
  PyStr.substring_of (Zip.name p) e.
Proof.
  unfold _extract_single_mod. destruct (zipfile fs p) as [| msg | jar]; simpl.
  - intros [= <-].
    apply (substring_of_append_l _ "Invalid or corrupted JAR file: ").
    apply substring_of_refl.
  - intros [= <-]. apply (substring_of_append_l _ "Failed to process ").
    apply substring_of_append_r, substring_of_refl.
  - destruct (first_extracted _ _ _ _); [discriminate|].
    destruct (_fallback_extraction _ _ _); [discriminate|].
    intros [= <-]. apply (substring_of_append_l _ "No mod metadata found in ").
    apply substring_of_refl.
Qed.

Lemma path_in_In (f : Path) (l : list Path) :
  path_in f l = true <-> In f l.
Proof.
  unfold path_in. destruct (in_dec Path_eq_dec f l); split; auto.
  discriminate.
Qed.

Lemma exclude_Found (find : string -> Search (list Path))
      (patterns : list string) :
  forall l all,
    exclude find patterns l = Found all ->
    (forall pattern, In pattern patterns ->
                     exists found, find pattern = Found found)
    /\ forall p,
        In p all
        <-> In p l
            /\ forall pattern found,
                In pattern patterns -> find pattern = Found found ->
                ~ In p found.
Proof.
  induction patterns as [|pat pats IH]; intros l all; simpl.
  - intros [= <-]. split; [intros ? []|].
    intros p. split; [intros H; split; [exact H | intros ? ? []] | tauto].
  - destruct (find pat) as [excluded|e] eqn:E; [|discriminate].
    intros H. destruct (IH _ _ H) as [Hdef Hin]. split.
    + intros pattern [<- | Hp]; [now exists excluded | now apply Hdef].
    + intros p. rewrite Hin, filter_In, negb_true_iff. split.
      * intros [[Hl Hpat] Hrest]. split; [exact Hl|].
        intros pattern found [<- | Hp] Hf; [|now apply (Hrest pattern)].
        rewrite E in Hf. injection Hf as <-.
        intros Hc. apply path_in_In in Hc. congruence.
      * intros [Hl Hall]. split; [split; [exact Hl|] | ].
        -- destruct (path_in p excluded) eqn:Ep; [|reflexivity].
           apply path_in_In in Ep. exfalso. apply (Hall pat excluded); auto.
        -- intros pattern found Hp. apply Hall. now right.
Qed.

Lemma exclude_Fails (find : string -> Search (list Path))
      (patterns : list string) :
  forall l e,
    exclude find patterns l = Fails e ->
    exists pre pattern post,
      patterns = pre ++ pattern :: post
      /\ Forall (fun q => exists found, find q = Found found) pre
      /\ find pattern = Fails e.
Proof.
  induction patterns as [|pat pats IH]; intros l e; simpl; [discriminate|].
  destruct (find pat) as [excluded|e1] eqn:E.
  - intros H. destruct (IH _ _ H) as (pre & q & post & -> & Hpre & Hq).
    exists (pat :: pre), q, post. split; [reflexivity|].
    split; [constructor; [now exists excluded | exact Hpre] | exact Hq].
  - intros [= <-]. exists [], pat, pats. repeat split; [constructor | exact E].
Qed.

Lemma searched_split (exclude_patterns : list string)
      (include_disabled : bool) (pre : list string) (pattern : string)
      (post : list string) :
  exclude_patterns = pre ++ pattern :: post ->
  searched exclude_patterns include_disabled
  = ("*.jar" :: (if include_disabled then ["*.jar.disabled"] else []) ++ pre)
      ++ pattern :: post.
Proof.
  intros ->. unfold searched. simpl. now rewrite <- app_assoc.
Qed.

(** When no search raises, the files a scan considers are those found by
    [*.jar], and by [*.jar.disabled] when disabled files are included, that
    no exclusion pattern finds.  The searches are made in the order
    [*.jar], [*.jar.disabled], the exclusion patterns; the first one that
    raises ends the discovery with its exception, and when none raises the
    discovery gives its files. *)
Theorem considered_files
        (fs : FileSystem) (folder_path : Path) (recursive : bool)
        (exclude_patterns : list string) (include_disabled : bool) :
  (forall all_files disabled_files,
      discover fs folder_path recursive exclude_patterns include_disabled
      = Found (all_files, disabled_files) ->
      (forall p,
          In p all_files
          <-> (finds fs folder_path recursive "*.jar" p
               \/ (include_disabled = true
                   /\ finds fs folder_path recursive "*.jar.disabled" p))
              /\ forall pattern,
                  In pattern exclude_patterns ->
                  ~ finds fs folder_path recursive pattern p)
      /\ forall p,
          In p disabled_files
          <-> include_disabled = true
              /\ finds fs folder_path recursive "*.jar.disabled" p)
  /\ (forall e,
         discover fs folder_path recursive exclude_patterns include_disabled
         = Fails e ->
         exists pre pattern post,
           searched exclude_patterns include_disabled
           = pre ++ pattern :: post
           /\ Forall (fun q => exists found,
                          find_files fs folder_path recursive q
                          = Found found) pre
           /\ find_files fs folder_path recursive pattern = Fails e)
  /\ ((exists all_files disabled_files,
          discover fs folder_path recursive exclude_patterns
                   include_disabled = Found (all_files, disabled_files))
      <-> forall pattern,
          In pattern (searched exclude_patterns include_disabled) ->
          exists found,
            find_files fs folder_path recursive pattern = Found found).
Proof.
  assert (Hfind : forall pattern,
             find_files fs folder_path recursive pattern
             = (if recursive then rglob fs folder_path
                else glob fs folder_path) pattern)
    by (intros; unfold find_files; now destruct recursive).
  unfold discover, finds.
  set (find := if recursive then rglob fs folder_path
               else glob fs folder_path) in *.
  split; [|split; [|split]].
  - intros all ds.
    destruct (find "*.jar") as [jars|e] eqn:Ej; [|discriminate].
    destruct (if include_disabled then find "*.jar.disabled" else Found [])
      as [dis|e] eqn:Ed; [|discriminate].
    destruct (exclude find exclude_patterns (jars ++ dis)) as [all1|e] eqn:Ee;
      [|discriminate].
    intros [= <- <-]. destruct (exclude_Found _ _ _ _ Ee) as [Hdef Hin].
    split.
    + intros p. rewrite Hin, in_app_iff. split.
      * intros [Hp Hex]. split.
        -- destruct Hp as [Hp | Hp].
           ++ left. exists jars. now rewrite Hfind.
           ++ right. destruct include_disabled.
              ** split; [reflexivity|]. exists dis. now rewrite Hfind.
              ** injection Ed as <-. destruct Hp.
        -- intros pattern Hpat (found & Hf & Hp1). rewrite Hfind in Hf.
           exact (Hex pattern found Hpat Hf Hp1).
      * intros [Hp Hex]. split.
        -- destruct Hp as [(f & Hf & Hp) | (-> & f & Hf & Hp)];
             rewrite Hfind in Hf.
           ++ left. congruence.
           ++ right. congruence.
        -- intros pattern found Hpat Hf Hp1. apply (Hex pattern Hpat).
           exists found. now rewrite Hfind.
    + intros p. destruct include_disabled.
      * split.
        -- intros Hp. split; [reflexivity|]. exists dis. now rewrite Hfind.
        -- intros (_ & f & Hf & Hp). rewrite Hfind in Hf. congruence.
      * injection Ed as <-. split; [intros [] | intros [[=] _]].
  - intros e.
    destruct (find "*.jar") as [jars|e1] eqn:Ej.
    + destruct (if include_disabled then find "*.jar.disabled" else Found [])
        as [dis|e2] eqn:Ed.
      * destruct (exclude find exclude_patterns (jars ++ dis))
          as [all1|e3] eqn:Ee; [discriminate|].
        intros [= <-].
        destruct (exclude_Fails _ _ _ _ Ee) as (pre & q & post & Hs & Hpre & Hq).
        eexists. exists q, post.
        split; [exact (searched_split _ include_disabled _ _ _ Hs)|].
        split; [|now rewrite Hfind].
        constructor; [exists jars; now rewrite Hfind|].
        apply Forall_app. split.
        -- destruct include_disabled; constructor; [|constructor].
           exists dis. now rewrite Hfind.
        -- eapply Forall_impl; [|exact Hpre].
           intros a (f & Hf). exists f. now rewrite Hfind.
      * intros [= <-]. destruct include_disabled; [|discriminate].
        exists ["*.jar"], "*.jar.disabled", exclude_patterns.
        split; [reflexivity|]. split; [|now rewrite Hfind].
        constructor; [|constructor]. exists jars. now rewrite Hfind.
    + intros [= <-]. exists [], "*.jar".
      exists ((if include_disabled then ["*.jar.disabled"] else [])
              ++ exclude_patterns).
      split; [reflexivity|]. split; [constructor | now rewrite Hfind].
  - intros (all & ds & H) pattern Hp.
    destruct (find "*.jar") as [jars|e] eqn:Ej; [|discriminate].
    destruct (if include_disabled then find "*.jar.disabled" else Found [])
      as [dis|e] eqn:Ed; [|discriminate].
    destruct (exclude find exclude_patterns (jars ++ dis)) as [all1|e] eqn:Ee;
      [|discriminate].
    destruct (exclude_Found _ _ _ _ Ee) as [Hdef _].
    unfold searched in Hp. destruct Hp as [<- | Hp].
    + exists jars. now rewrite Hfind.
    + apply in_app_or in Hp. destruct Hp as [Hp | Hp].
      * destruct include_disabled; [|destruct Hp].
        destruct Hp as [<- | []]. exists dis. now rewrite Hfind.
      * destruct (Hdef pattern Hp) as (f & Hf). exists f. now rewrite Hfind.
  - intros Hall.
    destruct (Hall "*.jar") as (jars & Hj); [now left|].
    rewrite Hfind in Hj. rewrite Hj.
    assert (Hd : exists dis,
               (if include_disabled then find "*.jar.disabled" else Found [])
               = Found dis).
    { destruct include_disabled; [|now exists []].
      destruct (Hall "*.jar.disabled") as (dis & Hd);
        [right; now left|].
      rewrite Hfind in Hd. now exists dis. }
    destruct Hd as (dis & ->).
    destruct (exclude find exclude_patterns (jars ++ dis)) as [all|e] eqn:Ee;
      [now exists all, dis|].
    destruct (exclude_Fails _ _ _ _ Ee) as (pre & q & post & Hs & _ & Hq).
    destruct (Hall q) as (f & Hf).
    { unfold searched. right. apply in_or_app. right. rewrite Hs.
      apply in_or_app. right. now left. }
    rewrite Hfind in Hf. congruence.
Qed.

Lemma considered_files_witness :
  discover Examples.disk Examples.mods_dir false ["bare*"] true
  = Found ([Examples.in_mods "both.jar"; Examples.in_mods "broken.jar";
            Examples.in_mods "sodium-neoforge.jar";
            Examples.in_mods "waystones.jar.disabled"],
           [Examples.in_mods "waystones.jar.disabled"])
  /\ ~ In (Examples.in_mods "bare.jar")
          [Examples.in_mods "both.jar"; Examples.in_mods "broken.jar";
           Examples.in_mods "sodium-neoforge.jar";
           Examples.in_mods "waystones.jar.disabled"]
  /\ discover Examples.disk Examples.mods_dir false [""; "bare*"] true
     = Fails (ValueError "Unacceptable pattern: ''")
  /\ exists pre pattern post,
      searched [""; "bare*"] true = pre ++ pattern :: post
      /\ find_files Examples.disk Examples.mods_dir false pattern
         = Fails (ValueError "Unacceptable pattern: ''").
Proof.
  destruct (considered_files Examples.disk Examples.mods_dir false ["bare*"]
                             true) as (Hfound & _).
  destruct (considered_files Examples.disk Examples.mods_dir false
                             [""; "bare*"] true) as (_ & Hfails & _).
  split; [reflexivity|]. split.
  - intros Hin.
    apply (proj1 (Hfound _ _ eq_refl)) in Hin. destruct Hin as [_ Hex].
    apply (Hex "bare*"); [now left|].
    exists [Examples.in_mods "bare.jar"]. split; [reflexivity | now left].
  - split; [reflexivity|].
    destruct (Hfails _ eq_refl) as (pre & pattern & post & Hs & _ & Hf).
    exists pre, pattern, post. split; [exact Hs | exact Hf].
Defined.

(** The order in which the tasks complete changes the order of the records
    and of the errors, and nothing else. *)
Theorem completion_order_is_immaterial
        (self : ModScanner.t) (fs : FileSystem)
        (ac1 ac2 : list Path -> list Path) (folder_path : Path)
        (recursive : bool) (exclude_patterns : list string)
        (include_disabled : bool) (r1 r2 : ScanResult) :
  (forall l, Permutation (ac1 l) l) ->
  (forall l, Permutation (ac2 l) l) ->
  scan_folder self fs ac1 folder_path recursive exclude_patterns
              include_disabled = Return r1 ->
  scan_folder self fs ac2 folder_path recursive exclude_patterns
              include_disabled = Return r2 ->
  Permutation (mods r1) (mods r2)
  /\ Permutation (errors r1) (errors r2)
  /\ total_files r1 = total_files r2.
Proof.
  intros H1 H2 S1 S2.
  destruct (scan_folder_flat _ _ _ _ _ _ _ _ S1) as (all & ds & D1 & _ & ->).
  destruct (scan_folder_flat _ _ _ _ _ _ _ _ S2) as (all2 & ds2 & D2 & _ & ->).
  rewrite D1 in D2. injection D2 as <- <-. simpl.
  repeat split; apply Permutation_flat_map; destruct all; try reflexivity;
    (etransitivity; [apply H1 | symmetry; apply H2]).
Qed.

Lemma completion_order_is_immaterial_witness :
  exists r1 r2,
    scan_folder Examples.scanner Examples.disk (fun l => l) Examples.mods_dir
                false [] true = Return r1
    /\ scan_folder Examples.scanner Examples.disk (@rev Path)
                   Examples.mods_dir false [] true = Return r2
    /\ map filename (mods r1) <> map filename (mods r2)
    /\ Permutation (mods r1) (mods r2)
    /\ Permutation (errors r1) (errors r2).
Proof.
  do 2 eexists.
  split; [vm_compute; reflexivity|]. split; [vm_compute; reflexivity|].
  split; [discriminate|].
  destruct (completion_order_is_immaterial Examples.scanner Examples.disk
              (fun l => l) (@rev Path) Examples.mods_dir false [] true _ _
              (fun l => Permutation_refl l)
              (fun l => Permutation_sym (Permutation_rev l))
              eq_refl eq_refl) as (Hm & He & _).
  split; [exact Hm | exact He].
Defined.

(** A scan that returns lists what its files give, for an order of
    completion that is a rearrangement of the files. *)
Lemma scan_folder_records (self : ModScanner.t) (fs : FileSystem)
      (as_completed : list Path -> list Path) (folder_path : Path)
      (recursive : bool) (exclude_patterns : list string)
      (include_disabled : bool) (r : ScanResult) :
  (forall l, Permutation (as_completed l) l) ->
  scan_folder self fs as_completed folder_path recursive exclude_patterns
              include_disabled = Return r ->
  exists all_files disabled_files,
    discover fs folder_path recursive exclude_patterns include_disabled
    = Found (all_files, disabled_files)
    /\ (forall m,
           In m (mods r) ->
           exists p,
             In p all_files
             /\ In m (record_of self fs disabled_files p))
    /\ (forall e,
           In e (errors r) ->
           exists p,
             In p all_files
             /\ In e (error_of self fs disabled_files p)).
Proof.
  intros Hperm Hscan.
  destruct (scan_folder_flat _ _ _ _ _ _ _ _ Hscan) as (all & ds & D & _ & ->).
  exists all, ds. split; [exact D|]. simpl.
  split; intros x Hx; apply in_flat_map in Hx; destruct Hx as (p & Hp & Hx);
    exists p; (split; [|exact Hx]);
    (destruct all; [destruct Hp|]);
    exact (Permutation_in _ (Hperm _) Hp).
Qed.

(** In a scan with the default extractors every record carries the name of
    a considered file and is flagged as disabled exactly when that file was
    found by [*.jar.disabled]; every error names a considered file.  So a
    scan without disabled files flags no record. *)
Theorem records_come_from_considered_files
        (rt : Runtime) (workers : Z) (fs : FileSystem)
        (as_completed : list Path -> list Path) (folder_path : Path)
        (recursive : bool) (exclude_patterns : list string)
        (include_disabled : bool) (r : ScanResult) :
  (forall l, Permutation (as_completed l) l) ->
  scan_folder (init rt workers None) fs as_completed folder_path recursive
              exclude_patterns include_disabled = Return r ->
  exists all_files disabled_files,
    discover fs folder_path recursive exclude_patterns include_disabled
    = Found (all_files, disabled_files)
    /\ (forall m,
           In m (mods r) ->
           exists p,
             In p all_files
             /\ filename m = Zip.name p
             /\ disabled m = path_in p disabled_files)
    /\ (forall e,
           In e (errors r) ->
           exists p,
             In p all_files
             /\ PyStr.substring_of (Zip.name p) e)
    /\ (include_disabled = false ->
        forall m, In m (mods r) -> disabled m = false).
Proof.
  intros Hperm Hscan.
  destruct (scan_folder_records _ _ _ _ _ _ _ _ Hperm Hscan)
    as (all & ds & D & Hm & He).
  exists all, ds. split; [exact D|].
  assert (Hrec : forall m,
             In m (mods r) ->
             exists p, In p all /\ filename m = Zip.name p
                       /\ disabled m = path_in p ds).
  { intros m Hin. destruct (Hm m Hin) as (p & Hp & Hx).
    exists p. split; [exact Hp|].
    unfold record_of in Hx.
    destruct (_extract_single_mod _ fs p _) as [[m0|] e] eqn:E;
      simpl in Hx; [|contradiction].
    destruct Hx as [<- | []].
    destruct (default_record _ _ _ _ _ _ _ E) as (H1 & H2 & _). auto. }
  split; [exact Hrec|]. split.
  - intros e Hin. destruct (He e Hin) as (p & Hp & Hx).
    exists p. split; [exact Hp|].
    unfold error_of in Hx.
    destruct (snd (_extract_single_mod _ fs p _)) as [[|c e0]|] eqn:E;
      simpl in Hx; try contradiction.
    destruct Hx as [<- | []]. exact (error_names_the_file _ _ _ _ _ E).
  - intros -> m Hin. destruct (Hrec m Hin) as (p & _ & _ & ->).
    unfold discover in D.
    destruct ((if recursive then rglob fs folder_path
               else glob fs folder_path) "*.jar"); [|discriminate].
    destruct (exclude _ _ _); [|discriminate].
    injection D as _ <-. reflexivity.
Qed.

Lemma records_come_from_considered_files_witness :
  exists r,
    scan_folder (init Examples.rt0 4 None) Examples.disk (@rev Path)
                Examples.mods_dir false ["bare*"] true = Return r
    /\ map filename (mods r)
       = ["waystones.jar.disabled"; "sodium-neoforge.jar"; "both.jar"]
    /\ map disabled (mods r) = [true; false; false]
    /\ exists all_files disabled_files,
        discover Examples.disk Examples.mods_dir false ["bare*"] true
        = Found (all_files, disabled_files)
        /\ forall m, In m (mods r) ->
             exists p, In p all_files /\ filename m = Zip.name p.
Proof.
  eexists. split; [vm_compute; reflexivity|].
  split; [reflexivity|]. split; [reflexivity|].
  destruct (records_come_from_considered_files Examples.rt0 4 Examples.disk
              (@rev Path) Examples.mods_dir false ["bare*"] true _
              (fun l => Permutation_sym (Permutation_rev l)) eq_refl)
    as (all & ds & D & H & _ & _).
  exists all, ds. split; [exact D|].
  intros m Hm. destruct (H m Hm) as (p & Hp & Hf & _). now exists p.
Defined.

(** In a scan with the default extractors the loader of every record is one
    of [fabric], [quilt], [forge], [neoforge] and [unknown]. *)
Theorem records_have_a_loader_kind
        (rt : Runtime) (workers : Z) (fs : FileSystem)
        (as_completed : list Path -> list Path) (folder_path : Path)
        (recursive : bool) (exclude_patterns : list string)
        (include_disabled : bool) (r : ScanResult) :
  (forall l, Permutation (as_completed l) l) ->
  scan_folder (init rt workers None) fs as_completed folder_path recursive
              exclude_patterns include_disabled = Return r ->
  forall m, In m (mods r) -> In (loader m) loader_kinds.
Proof.
  intros Hperm Hscan m Hm.
  destruct (scan_folder_records _ _ _ _ _ _ _ _ Hperm Hscan)
    as (all & ds & _ & Hrec & _).
  destruct (Hrec m Hm) as (p & _ & Hx).
  unfold record_of in Hx.
  destruct (_extract_single_mod _ fs p _) as [[m0|] e] eqn:E;
    simpl in Hx; [|contradiction].
  destruct Hx as [<- | []].
  now destruct (default_record _ _ _ _ _ _ _ E) as (_ & _ & H).
Qed.

Lemma records_have_a_loader_kind_witness :
  exists r,
    scan_folder (init Examples.rt0 4 None) Examples.disk (fun l => l)
                Examples.mods_dir false [] true = Return r
    /\ map loader (mods r) = ["quilt"; "unknown"; "neoforge"; "unknown"]
    /\ Forall (fun m => In (loader m) loader_kinds) (mods r).
Proof.
  eexists. split; [vm_compute; reflexivity|]. split; [reflexivity|].
  apply Forall_forall.
  exact (records_have_a_loader_kind Examples.rt0 4 Examples.disk (fun l => l)
           Examples.mods_dir false [] true _ (fun l => Permutation_refl l)
           eq_refl).
Defined.

End ScannerFacts.

(* ------------------------------------------------------------------ *)
(** ** More on the Forge extractor *)

Section ForgeFacts.
Import Py Zip Models ForgeTomlExtractor Spec Spec2.

Lemma names_neoforge_false (l : list value) (dep : list (string * value)) :
  names_neoforge l = Some false -> In (VDict dep) l ->
  lower (dget dep "modId" (VStr "")) <> Some "neoforge".
Proof.
  induction l as [|x l IH]; simpl; [intros _ []|].
  destruct x as [| | | | | |d];
    try (intros H [Hx | Hx]; [discriminate | now apply IH]).
  destruct (lower (dget d "modId" (VStr ""))) as [mod_id|] eqn:E;
    [|discriminate].
  destruct (String.eqb mod_id "neoforge") eqn:Eq; [discriminate|].
  intros H [[= <-] | Hx]; [|now apply IH].
  rewrite E. intros [= ->]. discriminate.
Qed.

Lemma any_names_neoforge_false (vs : list value) (deps : list value) :
  any_names_neoforge vs = Some false -> In (VList deps) vs ->
  names_neoforge deps = Some false.
Proof.
  induction vs as [|x vs IH]; simpl; [intros _ []|].
  destruct x as [| | | | |l|];
    try (intros H [Hx | Hx]; [discriminate | now apply IH]).
  destruct (names_neoforge l) as [[|]|] eqn:E; try discriminate.
  intros H [[= <-] | Hx]; [exact E | now apply IH].
Qed.

(** [_detect_loader] answers [neoforge] or [forge] and nothing else.  It
    answers [forge] only when no hint names NeoForge: not the path of the
    TOML file, not the [modLoader] field, not the [modId] of a declared
    dependency, not the name of the archive, not the [loaderVersion]
    field. *)
Theorem forge_is_the_answer_without_hints
        (toml_file : string) (data : value) (jar_path : Path) :
  (forall l,
      _detect_loader toml_file data jar_path = Some l ->
      l = "neoforge" \/ l = "forge")
  /\ (_detect_loader toml_file data jar_path = Some "forge" ->
      PyStr.contains "neoforge.mods.toml" toml_file = false
      /\ (exists mod_loader,
             get data "modLoader" (VStr "") = Some (VStr mod_loader)
             /\ PyStr.contains "neoforge" (PyStr.lower mod_loader) = false)
      /\ (forall d key deps dep,
             get data "dependencies" (VDict []) = Some (VDict d) ->
             In (key, VList deps) d -> In (VDict dep) deps ->
             lower (dget dep "modId" (VStr "")) <> Some "neoforge")
      /\ PyStr.contains "neoforge" (PyStr.lower (Zip.name jar_path)) = false
      /\ (exists loader_version,
             get data "loaderVersion" (VStr "") = Some (VStr loader_version)
             /\ PyStr.contains "neoforge" (PyStr.lower loader_version)
                = false)).
Proof.
  split; [intros l; apply _detect_loader_kinds|].
  unfold _detect_loader.
  destruct (PyStr.contains "neoforge.mods.toml" toml_file) eqn:E1;
    [discriminate|].
  destruct (get data "modLoader" (VStr "")) as [v|] eqn:E2; [|discriminate].
  destruct v as [| | | | ml | |]; try discriminate. cbn [lower].
  destruct (PyStr.contains "neoforge" (PyStr.lower ml)) eqn:E3;
    [discriminate|].
  destruct (get data "dependencies" (VDict [])) as [deps|] eqn:E4;
    [|discriminate].
  destruct (match deps with
            | VDict d => any_names_neoforge (values d)
            | _ => Some false
            end) as [[|]|] eqn:E5; try discriminate.
  destruct (get data "mods" (VList [])) as [mods|]; [|discriminate].
  match goal with
  | |- match ?x with _ => _ end = _ -> _ =>
      destruct x as [[|]|]; try discriminate
  end.
  destruct (PyStr.contains "neoforge" (PyStr.lower (Zip.name jar_path)))
    eqn:E6; [discriminate|].
  destruct (get data "loaderVersion" (VStr "")) as [v|] eqn:E7;
    [|discriminate].
  destruct v as [| | | | lv | |]; try discriminate. cbn [lower].
  destruct (PyStr.contains "neoforge" (PyStr.lower lv)) eqn:E8;
    [discriminate|].
  intros _. split; [reflexivity|]. split; [now exists ml|].
  split; [|split; [reflexivity | now exists lv]].
  intros d key l dep [= ->] Hk Hdep.
  apply (names_neoforge_false l); [|exact Hdep].
  apply (any_names_neoforge_false (values d)); [exact E5|].
  unfold values. apply (in_map snd) in Hk. exact Hk.
Qed.

Lemma forge_is_the_answer_without_hints_witness :
  _detect_loader "META-INF/mods.toml" Examples2.jei_data
                 (Examples.in_mods "jei-addon.jar") = Some "forge"
  /\ _detect_loader "META-INF/mods.toml" Examples2.jei_data
                    (Examples.in_mods "jei-addon-NeoForge.jar")
     = Some "neoforge"
  /\ PyStr.contains "neoforge" (PyStr.lower "jei-addon.jar") = false.
Proof.
  split; [reflexivity|]. split; [reflexivity|].
  destruct (forge_is_the_answer_without_hints "META-INF/mods.toml"
              Examples2.jei_data (Examples.in_mods "jei-addon.jar"))
    as (_ & H).
  destruct (H eq_refl) as (_ & _ & _ & H4 & _). exact H4.
Defined.

Lemma toml_deps_explicit (l : list value) (d : value) :
  In d (toml_deps l) ->
  truthy d = true /\ eq_str d "minecraft" = false
  /\ eq_str d "forge" = false /\ eq_str d "neoforge" = false.
Proof.
  induction l as [|x l IH]; simpl; [intros []|].
  destruct x as [| | | | | |dep]; auto.
  destruct (truthy (dget dep "modId" (VStr ""))) eqn:Et; simpl; auto.
  destruct (eq_str (dget dep "modId" (VStr "")) "minecraft") eqn:E1; simpl; auto.
  destruct (eq_str (dget dep "modId" (VStr "")) "forge") eqn:E2; simpl; auto.
  destruct (eq_str (dget dep "modId" (VStr "")) "neoforge") eqn:E3; simpl; auto.
  intros [<- | H]; auto.
Qed.

(** The dependencies of a record of the TOML extractor hold no value that
    is false and none of the ids [minecraft], [forge] and [neoforge]. *)
Theorem implicit_ids_are_no_dependencies
        (rt : Runtime) (jar : ZipFile) (jar_path : Path)
        (files : list string) (m : ModInfo) (d : value) :
  extract rt jar jar_path files = Some m ->
  In d (dependencies m) ->
  truthy d = true /\ eq_str d "minecraft" = false
  /\ eq_str d "forge" = false /\ eq_str d "neoforge" = false.
Proof.
  unfold extract. step_through. intros [= <-]. simpl.
  match goal with
  | H : _extract_dependencies_from_toml _ _ = Some _ |- _ =>
      unfold _extract_dependencies_from_toml in H; revert H
  end.
  step_through; intros [= <-]; try (intros []).
  apply toml_deps_explicit.
Qed.

Lemma implicit_ids_are_no_dependencies_witness :
  exists m,
    extract Examples.rt0 Examples2.jei_jar (Examples.in_mods "jei-addon.jar")
            (namelist Examples2.jei_jar) = Some m
    /\ dependencies m = [VStr "jei"]
    /\ version m = VStr "3.2.1"
    /\ mc_versions m = ["1.20"; "1.20.1"]
    /\ eq_str (VStr "jei") "forge" = false.
Proof.
  eexists. split; [vm_compute; reflexivity|].
  split; [reflexivity|]. split; [reflexivity|]. split; [reflexivity|].
  destruct (implicit_ids_are_no_dependencies Examples.rt0 Examples2.jei_jar
              (Examples.in_mods "jei-addon.jar") (namelist Examples2.jei_jar)
              _ (VStr "jei") eq_refl (or_introl eq_refl))
    as (_ & _ & H & _).
  exact H.
Defined.


(** Without a TOML parser the TOML extractor claims no archive and extracts
    nothing; an archive that only it could read is then reported by the
    manifest fallback or, failing that, as a record of unknown loader with
    an error. *)
Theorem without_a_toml_parser
        (rt : Runtime) (workers : Z) (fs : ModScanner.FileSystem)
        (jar_path : Path) (disabled : bool) (jar : ZipFile) :
  tomllib rt = false ->
  ModScanner.zipfile fs jar_path = Opened jar ->
  can_extract rt jar (namelist jar) = false
  /\ extract rt jar jar_path (namelist jar) = None
  /\ (mem "fabric.mod.json" (namelist jar) = false ->
      mem "quilt.mod.json" (namelist jar) = false ->
      mem "mcmod.info" (namelist jar) = false ->
      ModScanner._extract_single_mod (ModScanner.init rt workers None) fs
                                     jar_path disabled
      = match ModScanner._fallback_extraction jar jar_path (namelist jar) with
        | Some m =>
            (Some (if disabled then ModScanner.as_disabled m else m), None)
        | None =>
            (Some (ModScanner.minimal jar_path disabled),
             Some ("No mod metadata found in " ++ Zip.name jar_path)%string)
        end).
Proof.
  intros Ht Hopen.
  assert (Hc : can_extract rt jar (namelist jar) = false)
    by (unfold can_extract; now rewrite Ht).
  split; [exact Hc|]. split.
  - unfold extract. rewrite Ht.
    destruct (_find_toml_file (namelist jar)); [|reflexivity].
    destruct (read jar s); reflexivity.
  - intros Hf Hq Hl. unfold ModScanner._extract_single_mod. rewrite Hopen.
    rewrite default_extractors. unfold ALL_EXTRACTORS.
    cbn [ModScanner.first_extracted BaseExtractor.can_extract
         FabricExtractor.instance QuiltExtractor.instance
         ForgeTomlExtractor.instance LegacyForgeExtractor.instance].
    unfold FabricExtractor.can_extract, QuiltExtractor.can_extract,
      LegacyForgeExtractor.can_extract, FabricExtractor.METADATA_FILE,
      QuiltExtractor.METADATA_FILE, LegacyForgeExtractor.METADATA_FILE.
    rewrite Hf, Hq, Hl, Hc. reflexivity.
Qed.

Lemma without_a_toml_parser_witness :
  fst (ModScanner._extract_single_mod
         (ModScanner.init Examples.rt0 4 None)
         (with_archives Examples.disk (fun _ => Opened Examples.forge_jar))
         (Examples.in_mods "sodium.jar") false)
  = Some {| Models.name := VStr "sodium"; loader := "forge";
            version := VStr "0.6.0"; filename := "sodium.jar";
            mod_id := VStr "sodium"; dependencies := [];
            author := None; description := None;
            mc_versions := ["1.21"; "1.22"]; disabled := false |}
  /\ ModScanner._extract_single_mod
       (ModScanner.init Examples2.rt_no_toml 4 None)
       (with_archives Examples.disk (fun _ => Opened Examples.forge_jar))
       (Examples.in_mods "sodium.jar") false
     = (Some (ModScanner.minimal (Examples.in_mods "sodium.jar") false),
        Some "No mod metadata found in sodium.jar").
Proof.
  split; [reflexivity|].
  destruct (without_a_toml_parser Examples2.rt_no_toml 4
              (with_archives Examples.disk (fun _ => Opened Examples.forge_jar))
              (Examples.in_mods "sodium.jar") false Examples.forge_jar
              eq_refl eq_refl) as (_ & _ & H).
  rewrite (H eq_refl eq_refl eq_refl). reflexivity.
Defined.

End ForgeFacts.

(* ------------------------------------------------------------------ *)
(** ** The stem of a path *)

Section Stem.
Import Zip.

Lemma rfind_suffix (base ext : string) :
  rfind "." ext = None ->
  rfind "." (base ++ String "." ext) = Some (String.length base).
Proof.
  intros He. induction base as [|a base IH]; simpl.
  - now rewrite He.
  - now rewrite IH.
Qed.

Lemma substring_prefix (base rest : string) :
  String.substring 0 (String.length base) (base ++ rest) = base.
Proof.
  induction base as [|a base IH]; simpl.
  - destruct rest; reflexivity.
  - now rewrite IH.
Qed.

Lemma length_append (a b : string) :
  String.length (a ++ b) = String.length a + String.length b.
Proof. induction a as [|x a IH]; simpl; [reflexivity | now rewrite IH]. Qed.

Lemma stem_suffix (d base ext : string) :
  rfind "." ext = None -> base <> "" -> ext <> "" ->
  stem {| parent := d; name := base ++ String "." ext |} = base.
Proof.
  intros He Hb Hx. unfold stem. cbn [name].
  rewrite (rfind_suffix base ext He), length_append. simpl String.length.
  assert (H1 : (0 <? String.length base) = true).
  { apply Nat.ltb_lt. destruct base; [contradiction | simpl; lia]. }
  assert (H2 : (String.length base
                <? String.length base + S (String.length ext) - 1) = true).
  { apply Nat.ltb_lt. destruct ext; [contradiction | simpl; lia]. }
  rewrite H1, H2. apply substring_prefix.
Qed.

(** The record made from the filename alone is named [x] for [x.jar] and
    [x.jar] for [x.jar.disabled]: the name of a disabled file keeps its
    [.jar]. *)
Theorem name_from_the_filename (d base : string) (disabled : bool) :
  (base <> "" ->
   Models.name (ModScanner.minimal {| parent := d; name := base ++ ".jar" |}
                                   disabled)
   = Py.VStr base)
  /\ Models.name
       (ModScanner.minimal {| parent := d; name := base ++ ".jar.disabled" |}
                           disabled)
     = Py.VStr (base ++ ".jar").
Proof.
  unfold ModScanner.minimal. cbn [Models.name]. split.
  - intros Hb. f_equal.
    apply (stem_suffix d base "jar"); [reflexivity | exact Hb|].
    discriminate.
  - f_equal.
    replace (base ++ ".jar.disabled")%string
      with ((base ++ ".jar") ++ String "." "disabled")%string
      by (now rewrite append_assoc).
    apply stem_suffix; [reflexivity | | discriminate].
    destruct base; discriminate.
Qed.

End Stem.

(* ------------------------------------------------------------------ *)
(** ** The methods of [ScanResult] *)

Section ResultFacts.
Import Py Zip Models ScanResultMethods Spec Spec2.

Lemma filter_twice {A : Type} (f : A -> bool) (l : list A) :
  filter f (filter f l) = filter f l.
Proof.
  induction l as [|x l IH]; simpl; [reflexivity|].
  destruct (f x) eqn:E; simpl; [now rewrite E, IH | exact IH].
Qed.

(** [filter_by_loader] compares loaders without regard to case, keeps
    exactly the records of that loader, and changes nothing when it is
    applied to its own result. *)
Theorem filter_by_loader_ignores_case (self : ScanResult) (loader : string) :
  filter_by_loader self (PyStr.lower loader) = filter_by_loader self loader
  /\ (forall m,
         In m (filter_by_loader self loader)
         <-> In m (mods self)
             /\ PyStr.lower (Models.loader m) = PyStr.lower loader)
  /\ filter_by_loader {| mods := filter_by_loader self loader;
                         errors := errors self;
                         total_files := total_files self |} loader
     = filter_by_loader self loader.
Proof.
  unfold filter_by_loader. cbn [mods]. split; [|split].
  - now rewrite lower_idempotent.
  - intros m. rewrite filter_In. now rewrite String.eqb_eq.
  - apply filter_twice.
Qed.

Lemma keyed_snd (key : ModInfo -> option string) (l : list ModInfo)
      (km : list (string * ModInfo)) :
  keyed key l = Some km ->
  map snd km = l /\ Forall (fun x => key (snd x) = Some (fst x)) km.
Proof.
  revert km. induction l as [|m l IH]; simpl; intros km.
  - intros [= <-]. split; constructor.
  - destruct (key m) as [k|] eqn:Ek; [|discriminate].
    destruct (keyed key l) as [kr|]; [|discriminate].
    intros [= <-]. destruct (IH kr eq_refl) as [H1 H2]. simpl.
    split; [now rewrite H1 | now constructor].
Qed.

Lemma keyed_None (key : ModInfo -> option string) (l : list ModInfo) :
  keyed key l = None <-> exists m, In m l /\ key m = None.
Proof.
  induction l as [|m l IH]; simpl.
  - split; [discriminate | intros (? & [] & _)].
  - destruct (key m) as [k|] eqn:Ek.
    + destruct (keyed key l) as [kr|].
      * split; [discriminate|]. intros (x & [<- | Hx] & Hn); [congruence|].
        assert (H : @None (list (string * ModInfo)) = None) by reflexivity.
        destruct IH as [_ IH]. discriminate IH. now exists x.
      * split; [|reflexivity]. intros _.
        destruct IH as [IH _]. destruct (IH eq_refl) as (x & Hx & Hn).
        exists x. auto.
    + split; [|reflexivity]. intros _. exists m. auto.
Qed.

Lemma insert_keyed_perm (reverse : bool) (x : string * ModInfo)
      (l : list (string * ModInfo)) :
  Permutation (insert_keyed reverse x l) (x :: l).
Proof.
  induction l as [|y l IH]; simpl; [reflexivity|].
  destruct (goes_first reverse (fst x) (fst y)); [reflexivity|].
  rewrite IH. apply perm_swap.
Qed.

Lemma sort_keyed_perm (reverse : bool) (l : list (string * ModInfo)) :
  Permutation (sort_keyed reverse l) l.
Proof.
  induction l as [|x l IH]; simpl; [reflexivity|].
  now rewrite insert_keyed_perm, IH.
Qed.

Lemma goes_first_total (reverse : bool) (a b : string) :
  goes_first reverse a b = false -> goes_first reverse b a = true.
Proof.
  unfold goes_first. destruct reverse; intros H.
  - destruct (String.leb_total a b) as [E | E]; congruence.
  - destruct (String.leb_total a b) as [E | E]; congruence.
Qed.

Lemma insert_keyed_sorted (reverse : bool) (x : string * ModInfo)
      (l : list (string * ModInfo)) :
  Sorted (fun a b => goes_first reverse (fst a) (fst b) = true) l ->
  Sorted (fun a b => goes_first reverse (fst a) (fst b) = true)
         (insert_keyed reverse x l).
Proof.
  induction 1 as [|y l Hl IH Hy]; simpl.
  - repeat constructor.
  - destruct (goes_first reverse (fst x) (fst y)) eqn:E.
    + repeat constructor; assumption.
    + apply goes_first_total in E. constructor; [assumption|].
      destruct Hy as [|z l Hyz]; simpl.
      * now constructor.
      * destruct (goes_first reverse (fst x) (fst z)); now constructor.
Qed.

Lemma sort_keyed_sorted (reverse : bool) (l : list (string * ModInfo)) :
  Sorted (fun a b => goes_first reverse (fst a) (fst b) = true)
         (sort_keyed reverse l).
Proof.
  induction l as [|x l IH]; simpl; [constructor|].
  now apply insert_keyed_sorted.
Qed.

Lemma sorted_snd (key : ModInfo -> option string) (reverse : bool)
      (l : list (string * ModInfo)) :
  Forall (fun x => key (snd x) = Some (fst x)) l ->
  Sorted (fun a b => goes_first reverse (fst a) (fst b) = true) l ->
  Sorted (in_order key reverse) (map snd l).
Proof.
  intros Hk Hs. induction Hs as [|x l Hl IH Hx]; simpl; [constructor|].
  inversion Hk as [|? ? Kx Kl]; subst.
  constructor; [now apply IH|].
  destruct Hx as [|y l Hxy]; simpl; constructor.
  inversion Kl as [|? ? Ky _]; subst.
  now exists (fst x), (fst y).
Qed.

Lemma goes_first_refl (reverse : bool) (a : string) :
  goes_first reverse a a = true.
Proof.
  unfold goes_first.
  destruct reverse; destruct (String.leb_total a a); assumption.
Qed.

Lemma insert_keyed_stable (reverse : bool) (k : string) (x : string * ModInfo)
      (l : list (string * ModInfo)) :
  filter (fun y => String.eqb (fst y) k) (insert_keyed reverse x l)
  = filter (fun y => String.eqb (fst y) k) (x :: l).
Proof.
  induction l as [|y l IH]; [reflexivity|].
  cbn [insert_keyed].
  destruct (goes_first reverse (fst x) (fst y)) eqn:E; [reflexivity|].
  cbn [filter] in *. rewrite IH.
  destruct (String.eqb (fst x) k) eqn:Ex; [|reflexivity].
  destruct (String.eqb (fst y) k) eqn:Ey; [|reflexivity].
  apply String.eqb_eq in Ex, Ey. rewrite Ex, Ey, goes_first_refl in E.
  discriminate.
Qed.

Lemma sort_keyed_stable (reverse : bool) (k : string)
      (l : list (string * ModInfo)) :
  filter (fun y => String.eqb (fst y) k) (sort_keyed reverse l)
  = filter (fun y => String.eqb (fst y) k) l.
Proof.
  induction l as [|x l IH]; [reflexivity|].
  cbn [sort_keyed fold_right]. rewrite insert_keyed_stable.
  cbn [filter]. unfold sort_keyed in IH. now rewrite IH.
Qed.

Lemma filter_snd (key : ModInfo -> option string) (k : string)
      (l : list (string * ModInfo)) :
  Forall (fun x => key (snd x) = Some (fst x)) l ->
  filter (sorts_as key k) (map snd l)
  = map snd (filter (fun y => String.eqb (fst y) k) l).
Proof.
  induction 1 as [|x l Hx Hl IH]; [reflexivity|].
  cbn [map filter]. unfold sorts_as at 1. rewrite Hx, IH.
  destruct (String.eqb (fst x) k); reflexivity.
Qed.

(** [sort_mods] leaves the aggregate as it is for a field that is no sort
    key.  For a sort key it raises exactly when the field of some record is
    no string, and otherwise rearranges the records into the order of
    their lower-cased fields, ascending or descending, with the records of
    equal key in the order they had, touching neither the errors nor the
    count of files. *)
Theorem sort_mods_sorts (self : ScanResult) (by_ : string) (reverse : bool) :
  (sort_keys by_ = None -> sort_mods self by_ reverse = Some self)
  /\ (forall key,
         sort_keys by_ = Some key ->
         (sort_mods self by_ reverse = None
          <-> exists m, In m (mods self) /\ key m = None)
         /\ forall r,
             sort_mods self by_ reverse = Some r ->
             Permutation (mods r) (mods self)
             /\ Sorted (in_order key reverse) (mods r)
             /\ (forall k,
                    filter (sorts_as key k) (mods r)
                    = filter (sorts_as key k) (mods self))
             /\ errors r = errors self
             /\ total_files r = total_files self).
Proof.
  unfold sort_mods. split; [now intros ->|].
  intros key ->. split.
  - rewrite <- keyed_None. destruct (keyed key (mods self));
      split; congruence.
  - intros r. destruct (keyed key (mods self)) as [km|] eqn:E;
      [|discriminate].
    intros [= <-]. cbn [mods errors total_files].
    destruct (keyed_snd _ _ _ E) as [H1 H2].
    assert (H3 : Forall (fun x => key (snd x) = Some (fst x))
                        (sort_keyed reverse km)).
    { rewrite Forall_forall in *. intros x Hx. apply H2.
      exact (Permutation_in _ (sort_keyed_perm reverse km) Hx). }
    repeat split.
    + rewrite <- H1. apply Permutation_map, sort_keyed_perm.
    + apply sorted_snd; [exact H3 | apply sort_keyed_sorted].
    + intros k. rewrite <- H1, !filter_snd by assumption.
      now rewrite sort_keyed_stable.
Qed.

Lemma sort_mods_sorts_witness :
  exists r,
    sort_mods {| mods := [ModScanner.minimal (Examples.in_mods "b.jar") false;
                          ModScanner.minimal (Examples.in_mods "A.jar") true;
                          ModScanner.minimal (Examples.in_mods "a.jar") false];
                 errors := []; total_files := 3 |} "filename" false
    = Some r
    /\ map filename (mods r) = ["A.jar"; "a.jar"; "b.jar"]
    /\ Sorted (in_order (fun m => Some (PyStr.lower (filename m))) false)
              (mods r).
Proof.
  eexists. split; [vm_compute; reflexivity|]. split; [reflexivity|].
  destruct (sort_mods_sorts
              {| mods := [ModScanner.minimal (Examples.in_mods "b.jar") false;
                          ModScanner.minimal (Examples.in_mods "A.jar") true;
                          ModScanner.minimal (Examples.in_mods "a.jar") false];
                 errors := []; total_files := 3 |} "filename" false)
    as (_ & H).
  destruct (H _ eq_refl) as (_ & H').
  destruct (H' _ eq_refl) as (_ & Hs & _). exact Hs.
Defined.

Lemma key_eqb_eq (a b : Key) : key_eqb a b = true <-> a = b.
Proof.
  unfold key_eqb. destruct (Key_eq_dec a b); split; auto. discriminate.
Qed.

Lemma key_eqb_refl (a : Key) : key_eqb a a = true.
Proof. now apply key_eqb_eq. Qed.

Lemma key_eqb_sym (a b : Key) : key_eqb a b = key_eqb b a.
Proof.
  unfold key_eqb. destruct (Key_eq_dec a b), (Key_eq_dec b a); congruence.
Qed.

Lemma seen_get_append (seen : list (Key * list ModInfo)) (km k : Key)
      (m : ModInfo) :
  seen_get (seen_append seen km m) k
  = match seen_get seen k with
    | Some l => if key_eqb km k then Some (l ++ [m]) else Some l
    | None => None
    end.
Proof.
  induction seen as [|[k0 l0] seen IH]; [reflexivity|].
  cbn [seen_append]. destruct (key_eqb k0 km) eqn:E0; cbn [seen_get].
  - apply key_eqb_eq in E0. subst k0.
    destruct (key_eqb km k); [reflexivity|].
    destruct (seen_get seen k); reflexivity.
  - destruct (key_eqb k0 k) eqn:E1; [|exact IH].
    apply key_eqb_eq in E1. subst k0.
    rewrite (key_eqb_sym km k), E0. reflexivity.
Qed.

Lemma seen_get_snoc (seen : list (Key * list ModInfo)) (km k : Key)
      (m : ModInfo) :
  seen_get (seen ++ [(km, [m])]) k
  = match seen_get seen k with
    | Some l => Some l
    | None => if key_eqb km k then Some [m] else None
    end.
Proof.
  induction seen as [|[k0 l0] seen IH]; simpl; [reflexivity|].
  destruct (key_eqb k0 k); [reflexivity | exact IH].
Qed.

Lemma filter_snoc {A : Type} (f : A -> bool) (l : list A) (x : A) :
  filter f (l ++ [x]) = filter f l ++ (if f x then [x] else []).
Proof. rewrite filter_app. reflexivity. Qed.

(** What the loop of [get_duplicates] has built after the records [done]:
    [seen] holds under each key the records of that key, and the keys of
    [duplicates] are those of two records or more. *)
Lemma dup_step_inv (done : list ModInfo) (st st' : dup_state) (m : ModInfo) :
  (forall k, seen_get (fst st) k
             = match filter (keyed_by k) done with
               | [] => None
               | l => Some l
               end) ->
  NoDup (snd st) ->
  (forall k, In k (snd st) <-> 2 <= List.length (filter (keyed_by k) done)) ->
  dup_step st m = Some st' ->
  (forall k, seen_get (fst st') k
             = match filter (keyed_by k) (done ++ [m]) with
               | [] => None
               | l => Some l
               end)
  /\ NoDup (snd st')
  /\ (forall k, In k (snd st')
                <-> 2 <= List.length (filter (keyed_by k) (done ++ [m]))).
Proof.
  intros Hseen Hnd Hdup. unfold dup_step.
  destruct (key_of m) as [km|] eqn:Ek; [|discriminate].
  assert (Hkm : forall k, keyed_by k m = key_eqb km k)
    by (intros k; unfold keyed_by; now rewrite Ek).
  destruct (seen_get (fst st) km) as [l|] eqn:Eg.
  - intros [= <-]. cbn [fst snd].
    pose proof (Hseen km) as Hl. rewrite Eg in Hl.
    split; [|split].
    + intros k. rewrite seen_get_append, Hseen, filter_snoc, Hkm.
      destruct (filter (keyed_by k) done) as [|x xs] eqn:Ef.
      * destruct (key_eqb km k) eqn:E; [|reflexivity].
        apply key_eqb_eq in E. subst k. rewrite Ef in Hl. discriminate.
      * destruct (key_eqb km k); [|now rewrite app_nil_r]. reflexivity.
    + destruct (existsb (key_eqb km) (snd st)) eqn:Ex; [exact Hnd|].
      apply NoDup_app; [exact Hnd | repeat constructor; intros [] |].
      intros k Hk [-> | []].
      assert (existsb (key_eqb k) (snd st) = true); [|congruence].
      apply existsb_exists. exists k. split; [exact Hk | apply key_eqb_refl].
    + intros k. rewrite filter_snoc, length_app, Hkm.
      assert (Hin : In k (if existsb (key_eqb km) (snd st) then snd st
                          else snd st ++ [km])
                    <-> In k (snd st) \/ k = km).
      { destruct (existsb (key_eqb km) (snd st)) eqn:Ex.
        - split; [now left|]. intros [H | ->]; [exact H|].
          apply existsb_exists in Ex. destruct Ex as (k' & Hk' & E).
          apply key_eqb_eq in E. now subst.
        - rewrite in_app_iff. simpl. intuition. }
      rewrite Hin, Hdup.
      destruct (key_eqb km k) eqn:E.
      * apply key_eqb_eq in E. subst k.
        destruct (filter (keyed_by km) done); [discriminate|].
        simpl. split; [lia | intros _; now right].
      * simpl. rewrite Nat.add_0_r. split; [|now left].
        intros [H | ->]; [exact H|]. rewrite key_eqb_refl in E. discriminate.
  - intros [= <-]. cbn [fst snd].
    pose proof (Hseen km) as Hl. rewrite Eg in Hl.
    split; [|split; [exact Hnd|]].
    + intros k. rewrite seen_get_snoc, Hseen, filter_snoc, Hkm.
      destruct (filter (keyed_by k) done) as [|x xs] eqn:Ef.
      * destruct (key_eqb km k); reflexivity.
      * destruct (key_eqb km k) eqn:E; [|now rewrite app_nil_r].
        apply key_eqb_eq in E. subst k. rewrite Ef in Hl. discriminate.
    + intros k. rewrite filter_snoc, length_app, Hkm, Hdup.
      destruct (key_eqb km k) eqn:E.
      * apply key_eqb_eq in E. subst k.
        destruct (filter (keyed_by km) done); [|discriminate].
        simpl. lia.
      * simpl. now rewrite Nat.add_0_r.
Qed.

Lemma dup_loop_inv (l done : list ModInfo) (st st' : dup_state) :
  (forall k, seen_get (fst st) k
             = match filter (keyed_by k) done with
               | [] => None
               | l => Some l
               end) ->
  NoDup (snd st) ->
  (forall k, In k (snd st) <-> 2 <= List.length (filter (keyed_by k) done)) ->
  dup_loop l st = Some st' ->
  (forall k, seen_get (fst st') k
             = match filter (keyed_by k) (done ++ l) with
               | [] => None
               | l => Some l
               end)
  /\ NoDup (snd st')
  /\ (forall k, In k (snd st')
                <-> 2 <= List.length (filter (keyed_by k) (done ++ l))).
Proof.
  revert done st. induction l as [|m l IH]; intros done st H1 H2 H3; simpl.
  - intros [= <-]. now rewrite app_nil_r.
  - destruct (dup_step st m) as [st1|] eqn:E; [|discriminate].
    intros Hl.
    destruct (dup_step_inv done st st1 m H1 H2 H3 E) as (K1 & K2 & K3).
    replace (done ++ m :: l) with ((done ++ [m]) ++ l)
      by (now rewrite <- app_assoc).
    exact (IH _ _ K1 K2 K3 Hl).
Qed.

Lemma dup_loop_defined (l : list ModInfo) (st : dup_state) :
  Forall (fun m => key_of m <> None) l -> exists st', dup_loop l st = Some st'.
Proof.
  intros H. revert st. induction H as [|m l Hm Hl IH]; intros st; simpl.
  - now exists st.
  - unfold dup_step. destruct (key_of m) as [km|]; [|contradiction].
    destruct (seen_get (fst st) km); apply IH.
Qed.

Lemma dup_loop_None (l : list ModInfo) (st : dup_state) :
  dup_loop l st = None -> exists m, In m l /\ key_of m = None.
Proof.
  revert st. induction l as [|m l IH]; intros st; simpl; [discriminate|].
  destruct (dup_step st m) as [st1|] eqn:E.
  - intros H. destruct (IH _ H) as (x & Hx & Hn). exists x. auto.
  - intros _. exists m. split; [now left|]. unfold dup_step in E.
    destruct (key_of m); [|reflexivity].
    destruct (seen_get (fst st) k); discriminate.
Qed.

(** The dict of [get_duplicates], whenever it returns one. *)
Lemma get_duplicates_groups (self : ScanResult)
      (d : list (Key * list ModInfo)) :
  get_duplicates self = Some d ->
  NoDup (map fst d)
  /\ forall k l,
      In (k, l) d
      <-> l = filter (keyed_by k) (mods self) /\ 2 <= List.length l.
Proof.
  unfold get_duplicates.
  destruct (dup_loop (mods self) ([], [])) as [[seen dups]|] eqn:E;
    [|discriminate].
  intros [= <-]. cbn [fst snd].
  destruct (dup_loop_inv (mods self) [] ([], []) (seen, dups)) as (H1 & H2 & H3);
    try exact E; cbn [fst snd].
  - reflexivity.
  - constructor.
  - intros k. simpl. split; [intros [] | lia].
  - cbn [fst snd app] in *. split.
    + rewrite map_map. cbn [fst]. now rewrite map_id.
    + intros k l. rewrite in_map_iff. split.
      * intros (k' & [= -> <-] & Hk). rewrite H1.
        apply H3 in Hk.
        destruct (filter (keyed_by k) (mods self)); [simpl in Hk; lia|].
        auto.
      * intros [-> Hl]. exists k. split; [|now apply H3].
        rewrite H1. destruct (filter (keyed_by k) (mods self)); reflexivity.
Qed.

(** [get_duplicates] returns, under each key that two or more records
    carry, all the records of that key in the order of the scan, the first
    one included, and no other key; it raises only when the key of some
    record does. *)
Theorem get_duplicates_lists_whole_groups (self : ScanResult) :
  (get_duplicates self = None ->
   exists m, In m (mods self) /\ key_of m = None)
  /\ forall d,
      get_duplicates self = Some d ->
      NoDup (map fst d)
      /\ forall k l,
          In (k, l) d
          <-> l = filter (keyed_by k) (mods self) /\ 2 <= List.length l.
Proof.
  split; [|apply get_duplicates_groups].
  unfold get_duplicates.
  destruct (dup_loop (mods self) ([], [])) eqn:E; [discriminate|].
  intros _. exact (dup_loop_None _ _ E).
Qed.

Lemma get_duplicates_lists_whole_groups_witness :
  get_duplicates {| mods := Examples2.sample_mods; errors := [];
                    total_files := 4 |}
  = Some [(KStr "sodium",
           [Examples2.record "Sodium" (VStr "sodium") "sodium-0.5.jar";
            Examples2.record "Sodium" (VStr "sodium") "sodium-0.6.jar"]);
          (KStr "lithium",
           [Examples2.record "Lithium" (VStr "lithium") "lithium.jar";
            Examples2.record "LITHIUM" VNone "lithium-copy.jar"])]
  /\ filter (keyed_by (KStr "lithium")) Examples2.sample_mods
     = [Examples2.record "Lithium" (VStr "lithium") "lithium.jar";
        Examples2.record "LITHIUM" VNone "lithium-copy.jar"].
Proof.
  split; [reflexivity|].
  destruct (get_duplicates_lists_whole_groups
              {| mods := Examples2.sample_mods; errors := [];
                 total_files := 4 |}) as (_ & H).
  destruct (H _ eq_refl) as (_ & H').
  symmetry. apply (H' (KStr "lithium")). right. left. reflexivity.
Defined.

End ResultFacts.

(* ------------------------------------------------------------------ *)
(** ** The filters of [main.py] *)

Section MainFacts.
Import Py Zip Models ScanResultMethods Main Spec Spec2.

Lemma seen_before (seen : list Key) (before : list ModInfo) (m : ModInfo)
      (km : Key) :
  (forall k, In k seen <-> exists x, In x before /\ key_of x = Some k) ->
  key_of m = Some km ->
  existsb (key_eqb km) seen = existsb (same_key m) before.
Proof.
  intros Hs Hk. apply eq_true_iff_eq. rewrite !existsb_exists. split.
  - intros (k & Hin & E). apply key_eqb_eq in E. subst k.
    apply Hs in Hin. destruct Hin as (x & Hx & Ex). exists x.
    split; [exact Hx|]. unfold same_key, keyed_by. rewrite Hk, Ex.
    apply key_eqb_refl.
  - intros (x & Hx & E). unfold same_key, keyed_by in E. rewrite Hk in E.
    destruct (key_of x) as [kx|] eqn:Ex; [|discriminate].
    apply key_eqb_eq in E. subst kx. exists km.
    split; [|apply key_eqb_refl]. apply Hs. now exists x.
Qed.

(** The loop of [--no-duplicates] appends to [unique_mods] the first
    occurrences among the records still to come, and keeps [seen] the list
    of the keys of [unique_mods]. *)
Lemma unique_loop_spec (l : list ModInfo) :
  forall (seen : list Key) (u before res : list ModInfo),
    (forall k, In k seen <-> exists x, In x before /\ key_of x = Some k) ->
    map key_of u = map Some seen ->
    NoDup seen ->
    unique_loop l seen u = Some res ->
    res = u ++ first_occurrences before l
    /\ NoDup (map key_of res)
    /\ Forall (fun m => key_of m <> None) res.
Proof.
  induction l as [|m l IH]; intros seen u before res Hs Hu Hnd; simpl.
  - intros [= <-]. rewrite app_nil_r. split; [reflexivity|]. split.
    + rewrite Hu. apply Finite.Injective_map_NoDup; [|exact Hnd].
      intros a b [= ->]. reflexivity.
    + apply Forall_forall. intros x Hx Hn.
      apply (in_map key_of) in Hx. rewrite Hu, Hn in Hx.
      apply in_map_iff in Hx. destruct Hx as (? & ? & _). discriminate.
  - destruct (key_of m) as [km|] eqn:Ek; [|discriminate].
    rewrite <- (seen_before seen before m km Hs Ek).
    assert (Hs' : forall s', (forall k, In k s' <-> In k seen \/ k = km) ->
                  forall k, In k s'
                            <-> exists x, In x (before ++ [m])
                                          /\ key_of x = Some k).
    { intros s' Hs' k. rewrite Hs', Hs. split.
      - intros [(x & Hx & Ex) | ->].
        + exists x. split; [apply in_or_app; now left | exact Ex].
        + exists m. split; [apply in_or_app; right; now left | exact Ek].
      - intros (x & Hx & Ex). apply in_app_or in Hx.
        destruct Hx as [Hx | [<- | []]].
        + left. now exists x.
        + right. congruence. }
    destruct (existsb (key_eqb km) seen) eqn:Ex.
    + intros H. apply (IH seen u (before ++ [m]) res); auto.
      apply Hs'. intros k. split; [now left|]. intros [H' | ->]; [exact H'|].
      apply existsb_exists in Ex. destruct Ex as (k' & Hk' & E).
      apply key_eqb_eq in E. now subst.
    + intros H.
      destruct (IH (seen ++ [km]) (u ++ [m]) (before ++ [m]) res) as (R1 & R2);
        auto.
      * apply Hs'. intros k. rewrite in_app_iff. simpl. intuition.
      * rewrite !map_app. simpl. now rewrite Hu, Ek.
      * apply NoDup_app; [exact Hnd | repeat constructor; intros [] |].
        intros k Hk [-> | []].
        assert (existsb (key_eqb k) seen = true); [|congruence].
        apply existsb_exists. exists k. split; [exact Hk | apply key_eqb_refl].
      * split; [|exact R2]. rewrite R1, <- app_assoc. reflexivity.
Qed.

Lemma one_record_per_key (k : Key) (u : list ModInfo) :
  NoDup (map key_of u) -> List.length (filter (keyed_by k) u) <= 1.
Proof.
  induction u as [|m u IH]; simpl; [lia|].
  intros H. inversion H as [|? ? Hm Hu]; subst.
  destruct (keyed_by k m) eqn:E; [|now apply IH].
  simpl. enough (filter (keyed_by k) u = []) as -> by (simpl; lia).
  destruct (filter (keyed_by k) u) as [|x xs] eqn:Ef; [reflexivity|].
  exfalso. apply Hm.
  assert (Hx : In x (filter (keyed_by k) u)) by (rewrite Ef; now left).
  apply filter_In in Hx. destruct Hx as [Hx Kx].
  unfold keyed_by in E, Kx.
  destruct (key_of m) as [km|]; [|discriminate].
  destruct (key_of x) as [kx|] eqn:Ekx; [|discriminate].
  apply key_eqb_eq in E, Kx. subst km kx.
  rewrite <- Ekx. now apply in_map.
Qed.

(** [--no-duplicates] keeps, in their order, the records that no earlier
    record shares the key of: the first occurrence wins.  The records kept
    have distinct keys, and [get_duplicates] finds nothing among them. *)
Theorem no_duplicates_keeps_first_occurrences
        (l u : list ModInfo) (errors_ : list string) (total : nat) :
  no_duplicates l = Some u ->
  u = first_occurrences [] l
  /\ NoDup (map key_of u)
  /\ get_duplicates {| mods := u; errors := errors_; total_files := total |}
     = Some [].
Proof.
  unfold no_duplicates. intros H.
  destruct (unique_loop_spec l [] [] [] u) as (H1 & H2 & H3); auto.
  - intros k. split; [intros [] | intros (? & [] & _)].
  - constructor.
  - split; [exact H1|]. split; [exact H2|].
    unfold get_duplicates. cbn [mods].
    destruct (dup_loop_defined u ([], []) H3) as (st & Hst).
    assert (Hd := get_duplicates_groups
                    {| mods := u; errors := errors_; total_files := total |}).
    unfold get_duplicates in *. cbn [mods] in Hd. rewrite Hst in *.
    destruct (Hd _ eq_refl) as (_ & Hg).
    destruct (map _ (snd st)) as [|[k g] d]; [reflexivity|].
    exfalso. destruct (Hg k g) as [Hg1 _].
    destruct (Hg1 (or_introl eq_refl)) as [-> Hlen].
    pose proof (one_record_per_key k u H2). lia.
Qed.

Lemma no_duplicates_keeps_first_occurrences_witness :
  no_duplicates Examples2.sample_mods
  = Some [Examples2.record "Sodium" (VStr "sodium") "sodium-0.5.jar";
          Examples2.record "Lithium" (VStr "lithium") "lithium.jar"]
  /\ get_duplicates
       {| mods := [Examples2.record "Sodium" (VStr "sodium") "sodium-0.5.jar";
                   Examples2.record "Lithium" (VStr "lithium") "lithium.jar"];
          errors := []; total_files := 4 |}
     = Some [].
Proof.
  split; [reflexivity|].
  destruct (no_duplicates_keeps_first_occurrences Examples2.sample_mods _ []
              4 eq_refl) as (_ & _ & H).
  exact H.
Defined.

End MainFacts.

(* ------------------------------------------------------------------ *)
(** ** The filters of [main.py], one after the other *)

Section FilterFacts.
Import Py Zip Models ScanResultMethods Main Spec Spec2.

Lemma sublist_refl {A : Type} (l : list A) : sublist l l.
Proof. induction l; constructor; assumption. Qed.

Lemma sublist_trans {A : Type} (l1 l2 l3 : list A) :
  sublist l1 l2 -> sublist l2 l3 -> sublist l1 l3.
Proof.
  intros H12 H23. revert l1 H12.
  induction H23 as [|x l2 l3 H IH|x l2 l3 H IH]; intros l1 H12.
  - exact H12.
  - inversion H12; subst.
    + constructor. now apply IH.
    + apply sublist_drop. now apply IH.
  - apply sublist_drop. now apply IH.
Qed.

Lemma filter_sublist {A : Type} (f : A -> bool) (l : list A) :
  sublist (filter f l) l.
Proof.
  induction l as [|x l IH]; simpl; [constructor|].
  destruct (f x); constructor; exact IH.
Qed.

Lemma first_occurrences_sublist (l before : list ModInfo) :
  sublist (first_occurrences before l) l.
Proof.
  revert before. induction l as [|m l IH]; intros before; simpl;
    [constructor|].
  destruct (existsb (same_key m) before); constructor; apply IH.
Qed.

Lemma sort_mods_perm (self r : ScanResult) (by_ : string) (reverse : bool) :
  sort_mods self by_ reverse = Some r ->
  Permutation (mods r) (mods self)
  /\ errors r = errors self /\ total_files r = total_files self.
Proof.
  unfold sort_mods. destruct (sort_keys by_) as [key|].
  - destruct (keyed key (mods self)) as [km|] eqn:Ek; [|discriminate].
    intros [= <-]. simpl. split; [|now split].
    destruct (keyed_snd _ _ _ Ek) as [<- _].
    apply Permutation_map, sort_keyed_perm.
  - intros [= <-]. now split.
Qed.

(** The loop of [--no-duplicates] and the function [first_occurrences]. *)
Lemma no_duplicates_first (l u : list ModInfo) :
  no_duplicates l = Some u ->
  u = first_occurrences [] l /\ NoDup (map key_of u).
Proof.
  unfold no_duplicates. intros H.
  destruct (unique_loop_spec l [] [] [] u) as (H1 & H2 & _); auto.
  - intros k. split; [intros [] | intros (? & [] & _)].
  - constructor.
Qed.

(** The filters and the sort of [main] add no record and change none: what
    is written is a rearrangement of records of the scan, taken in their
    order when no sort is asked for.  The errors and the number of files
    stay those of the scan, whatever is filtered out.  Each filter still
    holds at the end: the loader asked for (whatever the case of its
    letters), no loader [unknown], no key twice. *)
Theorem filters_only_remove_records
        (args : Args.t) (result r : ScanResult) :
  apply_filters args result = Some r ->
  errors r = errors result
  /\ total_files r = total_files result
  /\ (exists kept,
         sublist kept (mods result) /\ Permutation (mods r) kept
         /\ (Args.sort_by args = None -> mods r = kept))
  /\ (forall c l,
         Args.filter_loader args = Some (String c l) ->
         Forall (fun m => PyStr.lower (loader m) = PyStr.lower (String c l))
                (mods r))
  /\ (Args.exclude_unknown args = true ->
      Forall (fun m => loader m <> "unknown") (mods r))
  /\ (Args.no_duplicates args = true -> NoDup (map key_of (mods r))).
Proof.
  unfold apply_filters.
  set (r1 := match Args.filter_loader args with
             | Some (String c l) =>
                 set_mods result (filter_by_loader result (String c l))
             | _ => result
             end).
  set (r2 := if Args.exclude_unknown args
             then set_mods r1 (exclude_unknown (mods r1)) else r1).
  assert (H1 : sublist (mods r1) (mods result)
               /\ errors r1 = errors result
               /\ total_files r1 = total_files result
               /\ forall c l,
                   Args.filter_loader args = Some (String c l) ->
                   Forall (fun m => PyStr.lower (loader m)
                                    = PyStr.lower (String c l)) (mods r1)).
  { subst r1. destruct (Args.filter_loader args) as [[|c l]|]; simpl.
    - split; [apply sublist_refl|]. repeat split. discriminate.
    - split; [apply filter_sublist|]. repeat split.
      intros c' l' [= <- <-]. apply Forall_forall. intros m Hm.
      apply filter_In in Hm. destruct Hm as [_ Hm].
      now apply String.eqb_eq in Hm.
    - split; [apply sublist_refl|]. repeat split. discriminate. }
  destruct H1 as (S1 & E1 & T1 & F1).
  assert (H2 : sublist (mods r2) (mods r1)
               /\ errors r2 = errors result
               /\ total_files r2 = total_files result
               /\ (Args.exclude_unknown args = true ->
                   Forall (fun m => loader m <> "unknown") (mods r2))).
  { subst r2. destruct (Args.exclude_unknown args); simpl.
    - split; [apply filter_sublist|]. repeat split; auto.
      intros _. apply Forall_forall. intros m Hm.
      apply filter_In in Hm. destruct Hm as [_ Hm].
      apply negb_true_iff, String.eqb_neq in Hm. exact Hm.
    - split; [apply sublist_refl|]. repeat split; auto. discriminate. }
  destruct H2 as (S2 & E2 & T2 & F2).
  clearbody r2 r1.
  destruct (if Args.no_duplicates args
            then match no_duplicates (mods r2) with
                 | Some unique_mods => Some (set_mods r2 unique_mods)
                 | None => None
                 end
            else Some r2) as [r3|] eqn:E3; [|discriminate].
  assert (H3 : sublist (mods r3) (mods r2)
               /\ errors r3 = errors result
               /\ total_files r3 = total_files result
               /\ (Args.no_duplicates args = true ->
                   NoDup (map key_of (mods r3)))).
  { destruct (Args.no_duplicates args).
    - destruct (no_duplicates (mods r2)) as [u|] eqn:Eu; [|discriminate].
      injection E3 as <-. simpl.
      destruct (no_duplicates_first _ _ Eu) as [-> Hnd].
      split; [apply first_occurrences_sublist|]. repeat split; auto.
    - injection E3 as <-. split; [apply sublist_refl|].
      repeat split; auto. discriminate. }
  destruct H3 as (S3 & E3' & T3 & F3).
  assert (S : sublist (mods r3) (mods result)).
  { eapply sublist_trans; [exact S3|].
    eapply sublist_trans; [exact S2 | exact S1]. }
  assert (In3 : forall m, In m (mods r3) -> In m (mods r2) /\ In m (mods r1)).
  { assert (Hin : forall (a b : list ModInfo), sublist a b ->
                    forall m, In m a -> In m b).
    { induction 1; simpl; intuition. }
    intros m Hm. split; eauto. }
  intros Hsort.
  assert (Hr : Permutation (mods r) (mods r3)
               /\ errors r = errors r3 /\ total_files r = total_files r3
               /\ (Args.sort_by args = None -> mods r = mods r3)).
  { destruct (Args.sort_by args) as [[|c by_]|].
    - injection Hsort as <-. repeat split; auto.
    - destruct (sort_mods_perm _ _ _ _ Hsort) as (P & Ee & Et).
      repeat split; auto. discriminate.
    - injection Hsort as <-. repeat split; auto. }
  destruct Hr as (P & Ee & Et & Hn).
  split; [congruence|]. split; [congruence|].
  split; [exists (mods r3); auto|].
  assert (Hall : forall Q : ModInfo -> Prop,
             Forall Q (mods r3) -> Forall Q (mods r)).
  { intros Q HQ. apply Forall_forall. intros m Hm.
    rewrite Forall_forall in HQ. apply HQ.
    now apply (Permutation_in _ P). }
  split; [|split].
  - intros c l Hf. apply Hall. apply Forall_forall. intros m Hm.
    specialize (F1 c l Hf). rewrite Forall_forall in F1.
    apply F1. now apply In3.
  - intros He. apply Hall. apply Forall_forall. intros m Hm.
    specialize (F2 He). rewrite Forall_forall in F2.
    apply F2. now apply In3.
  - intros Hd. apply (Permutation_NoDup (l := map key_of (mods r3)));
      [apply Permutation_map; symmetry; exact P | now apply F3].
Qed.

Lemma filters_only_remove_records_witness :
  apply_filters {| Args.filter_loader := Some "Fabric";
                   Args.exclude_unknown := true;
                   Args.no_duplicates := true;
                   Args.sort_by := Some "name" |}
                {| mods := Examples2.sample_mods; errors := ["an error"];
                   total_files := 5 |}
  = Some {| mods := [Examples2.record "Lithium" (VStr "lithium") "lithium.jar";
                     Examples2.record "Sodium" (VStr "sodium")
                                      "sodium-0.5.jar"];
            errors := ["an error"]; total_files := 5 |}
  /\ NoDup (map key_of
              [Examples2.record "Lithium" (VStr "lithium") "lithium.jar";
               Examples2.record "Sodium" (VStr "sodium") "sodium-0.5.jar"]).
Proof.
  split; [reflexivity|].
  destruct (filters_only_remove_records
              {| Args.filter_loader := Some "Fabric";
                 Args.exclude_unknown := true;
                 Args.no_duplicates := true;
                 Args.sort_by := Some "name" |}
              {| mods := Examples2.sample_mods; errors := ["an error"];
                 total_files := 5 |} _ eq_refl)
    as (_ & _ & _ & _ & _ & H).
  exact (H eq_refl).
Defined.

End FilterFacts.

(* ------------------------------------------------------------------ *)
(** ** The dependencies of a Quilt file *)

Section QuiltFacts.
Import Py Zip Models Base QuiltExtractor Spec Spec2.

Lemma eq_str_truthy (v : value) (s : string) :
  eq_str v s = true -> s <> "" -> truthy v = true.
Proof.
  destruct v as [| | | | t | |]; simpl; try discriminate.
  intros H Hs. apply String.eqb_eq in H. subst t.
  destruct s; [contradiction | reflexivity].
Qed.

Lemma depends_loop_listed (rt : Runtime) (l : list value) :
  forall acc : list value * list string,
    fst (depends_loop rt l acc) = fst acc ++ flat_map listed l.
Proof.
  induction l as [|x l IH]; intros acc; [simpl; now rewrite app_nil_r|].
  destruct x as [| | | | s | |dep]; cbn [depends_loop flat_map listed app];
    try (now rewrite IH).
  - rewrite IH. cbn [fst]. now rewrite <- app_assoc.
  - destruct (truthy (dget dep "id" VNone)); cbn [andb]; [|now rewrite IH].
    destruct (eq_str (dget dep "id" VNone) "minecraft"); cbn [negb];
      rewrite IH; [reflexivity|].
    cbn [fst]. now rewrite <- app_assoc.
Qed.

Lemma listed_In (x d : value) :
  In d (listed x)
  <-> (exists s, d = VStr s /\ x = d)
      \/ (exists dep,
             x = VDict dep /\ d = dget dep "id" VNone
             /\ truthy d = true /\ eq_str d "minecraft" = false).
Proof.
  destruct x as [| | | | s | |dep]; simpl;
    try (split; [intros [] | intros [(s0 & -> & H) | (dep0 & H & _)];
                               discriminate]).
  - split.
    + intros [<- | []]. left. now exists s.
    + intros [(s0 & -> & H) | (dep0 & H & _)]; [now left | discriminate].
  - destruct (truthy (dget dep "id" VNone)) eqn:Et; simpl.
    + destruct (eq_str (dget dep "id" VNone) "minecraft") eqn:Em; simpl.
      * split; [intros []|].
        intros [(s0 & -> & H) | (dep0 & [= <-] & -> & _ & H)];
          [discriminate | congruence].
      * split.
        -- intros [<- | []]. right. now exists dep.
        -- intros [(s0 & -> & H) | (dep0 & [= <-] & -> & _)];
             [discriminate | now left].
    + split; [intros []|].
      intros [(s0 & -> & H) | (dep0 & [= <-] & -> & H & _)];
        [discriminate | congruence].
Qed.

Lemma depends_loop_no_minecraft (rt : Runtime) (l : list value) :
  forall acc : list value * list string,
    Forall (fun v => names_minecraft v = false) l ->
    snd (depends_loop rt l acc) = snd acc.
Proof.
  induction l as [|x l IH]; intros acc H; [reflexivity|].
  inversion H as [|? ? Hx Hl]; subst.
  destruct x as [| | | | s | |dep]; cbn [depends_loop];
    try (now rewrite IH).
  simpl in Hx. rewrite Hx.
  destruct (truthy (dget dep "id" VNone)); now rewrite IH.
Qed.

Lemma depends_loop_last_minecraft (rt : Runtime) (before : list value) :
  forall (acc : list value * list string) (dep : list (string * value))
         (after : list value),
    names_minecraft (VDict dep) = true ->
    Forall (fun v => names_minecraft v = false) after ->
    snd (depends_loop rt (before ++ VDict dep :: after) acc)
    = _parse_mc_versions rt (por (dget dep "versions" VNone)
                                 (dget dep "version" VNone)).
Proof.
  induction before as [|x before IH]; intros acc dep after Hm Ha.
  - cbn [app depends_loop]. simpl in Hm. rewrite Hm.
    rewrite (eq_str_truthy _ _ Hm); [|discriminate].
    now rewrite depends_loop_no_minecraft.
  - cbn [app].
    destruct x as [| | | | s | |d]; cbn [depends_loop]; try now apply IH.
    destruct (truthy (dget d "id" VNone)); [|now apply IH].
    destruct (eq_str (dget d "id" VNone) "minecraft"); now apply IH.
Qed.

(** The loop of the Quilt extractor over [depends].  An entry that is a
    string is listed as a dependency whatever it is (also the empty string
    and ["minecraft"]); an entry that is an object is listed by its [id]
    unless the [id] is false or ["minecraft"].  The Minecraft versions come
    from the last object whose [id] is ["minecraft"], by its [versions] or
    else its [version]; there are none without such an object. *)
Theorem quilt_minecraft_entry_is_no_dependency
        (rt : Runtime) (depends : list value) :
  fst (depends_loop rt depends ([], [])) = flat_map listed depends
  /\ (forall d,
      In d (fst (depends_loop rt depends ([], [])))
      <-> (exists s, d = VStr s /\ In d depends)
          \/ (exists dep,
                 In (VDict dep) depends /\ d = dget dep "id" VNone
                 /\ truthy d = true /\ eq_str d "minecraft" = false))
  /\ (Forall (fun v => names_minecraft v = false) depends ->
      snd (depends_loop rt depends ([], [])) = [])
  /\ (forall before dep after,
         depends = before ++ VDict dep :: after ->
         names_minecraft (VDict dep) = true ->
         Forall (fun v => names_minecraft v = false) after ->
         snd (depends_loop rt depends ([], []))
         = _parse_mc_versions rt (por (dget dep "versions" VNone)
                                      (dget dep "version" VNone))).
Proof.
  split; [apply depends_loop_listed|]. split; [|split].
  - intros d. rewrite depends_loop_listed. cbn [fst app].
    rewrite in_flat_map. split.
    + intros (x & Hx & Hd). apply listed_In in Hd.
      destruct Hd as [(s & -> & ->) | (dep & -> & R)].
      * left. now exists s.
      * right. now exists dep.
    + intros [(s & -> & H) | (dep & H & R)].
      * exists (VStr s). split; [exact H | now left].
      * exists (VDict dep). split; [exact H|]. apply listed_In.
        right. now exists dep.
  - intros H. now rewrite depends_loop_no_minecraft.
  - intros before dep after -> Hm Ha. now apply depends_loop_last_minecraft.
Qed.

Lemma quilt_minecraft_entry_is_no_dependency_witness :
  depends_loop Examples.rt0
    [VDict [("id", VStr "minecraft"); ("versions", VStr ">=1.19")];
     VStr "minecraft";
     VDict [("id", VStr "qsl")];
     VDict [("id", VStr "minecraft"); ("version", VStr "1.20.1")];
     VStr ""]
    ([], [])
  = ([VStr "minecraft"; VStr "qsl"; VStr ""], ["1.20"; "1.20.1"])
  /\ snd (depends_loop Examples.rt0
            ([VDict [("id", VStr "minecraft"); ("versions", VStr ">=1.19")];
              VStr "minecraft";
              VDict [("id", VStr "qsl")]]
             ++ VDict [("id", VStr "minecraft"); ("version", VStr "1.20.1")]
             :: [VStr ""])
            ([], []))
     = _parse_mc_versions Examples.rt0
         (por (dget [("id", VStr "minecraft"); ("version", VStr "1.20.1")]
                    "versions" VNone)
              (dget [("id", VStr "minecraft"); ("version", VStr "1.20.1")]
                    "version" VNone)).
Proof.
  split; [vm_compute; reflexivity|].
  destruct (quilt_minecraft_entry_is_no_dependency Examples.rt0
              ([VDict [("id", VStr "minecraft"); ("versions", VStr ">=1.19")];
                VStr "minecraft";
                VDict [("id", VStr "qsl")]]
               ++ VDict [("id", VStr "minecraft"); ("version", VStr "1.20.1")]
               :: [VStr ""]))
    as (_ & _ & _ & H).
  apply (H _ _ _ eq_refl); [reflexivity|].
  repeat constructor.
Defined.

End QuiltFacts.

(* ------------------------------------------------------------------ *)
(** ** Exact versions *)

Section ExactVersions.
Import Py Re Base Spec Spec2.

(** The greedy repetition takes the whole run when what follows matches. *)
Lemma rep_greedy {R : Type} (p : ascii -> bool) (k : cont R)
      (ds t : list ascii) (g : option (list ascii)) (x : R) :
  Forall (fun a => p a = true) ds -> stops p t ->
  forall i,
    k (i + List.length ds) t g = Some x ->
    rep p k i (ds ++ t) g = Some x.
Proof.
  intros Hds Ht. induction Hds as [|a ds Ha Hds IH]; intros i Hk.
  - simpl in *. rewrite Nat.add_0_r in Hk.
    destruct t as [|b t]; [exact Hk|]. simpl in Ht. simpl. now rewrite Ht.
  - simpl. rewrite Ha. rewrite (IH (S i)); [reflexivity|].
    simpl in Hk. now rewrite Nat.add_succ_r in Hk.
Qed.

(** It fails when what follows matches after no part of the run. *)
Lemma rep_fail {R : Type} (p : ascii -> bool) (k : cont R)
      (ds t : list ascii) (g : option (list ascii)) :
  Forall (fun a => p a = true) ds -> stops p t ->
  forall i,
    (forall u v, ds = u ++ v -> k (i + List.length u) (v ++ t) g = None) ->
    rep p k i (ds ++ t) g = None.
Proof.
  intros Hds Ht. induction Hds as [|a ds Ha Hds IH]; intros i Hk.
  - specialize (Hk [] [] eq_refl). simpl in *. rewrite Nat.add_0_r in Hk.
    destruct t as [|b t]; [exact Hk|]. simpl in Ht. simpl. now rewrite Ht.
  - simpl. rewrite Ha. rewrite (IH (S i)).
    + specialize (Hk [] (a :: ds) eq_refl). simpl in Hk.
      now rewrite Nat.add_0_r in Hk.
    + intros u v ->. specialize (Hk (a :: u) v eq_refl). simpl in Hk.
      now rewrite Nat.add_succ_r in Hk.
Qed.

Lemma Rep1_greedy {R : Type} (p : ascii -> bool) (k : cont R)
      (ds t : list ascii) (g : option (list ascii)) (x : R) (i : nat) :
  ds <> [] -> Forall (fun a => p a = true) ds -> stops p t ->
  k (i + List.length ds) t g = Some x ->
  exec (Rep1 p) k i (ds ++ t) g = Some x.
Proof.
  intros Hne Hds Ht Hk. destruct ds as [|a ds]; [contradiction|].
  inversion Hds as [|? ? Ha Hds']; subst.
  cbn [Rep1 exec app]. rewrite Ha. apply rep_greedy; auto.
  simpl in Hk. now rewrite Nat.add_succ_r in Hk.
Qed.

Lemma stops_dot (t : list ascii) : stops digit ("."%char :: t).
Proof. reflexivity. Qed.

(** [\d+\.\d+] on [a.b]: both numerals are taken whole. *)
Lemma version2_greedy {R : Type} (k : cont R) (a b t : list ascii)
      (g : option (list ascii)) (x : R) (i : nat) :
  a <> [] -> digits a -> b <> [] -> digits b -> stops digit t ->
  k (i + List.length (a ++ "."%char :: b)) t g = Some x ->
  exec version2 k i (a ++ "."%char :: b ++ t) g = Some x.
Proof.
  intros Ha Da Hb Db Ht Hk. unfold version2. cbn [exec].
  apply Rep1_greedy; auto; [apply stops_dot|].
  cbn [exec]. cbn [chr PyStr.same Ascii.eqb]. simpl (Ascii.eqb _ _).
  apply Rep1_greedy; auto.
  rewrite length_app in Hk. simpl in Hk.
  replace (S (i + List.length a) + List.length b)
    with (i + (List.length a + S (List.length b))) by lia.
  exact Hk.
Qed.

(** [\d+\.\d+(?:\.\d+)?] on [a.b]: both numerals are taken whole, and then
    the optional part is tried. *)
Lemma version3_greedy {R : Type} (k : cont R) (a b t : list ascii)
      (g : option (list ascii)) (x : R) (i : nat) :
  a <> [] -> digits a -> b <> [] -> digits b -> stops digit t ->
  exec (Opt (Cls (chr ".") >> Rep1 digit)%re) k
       (i + List.length (a ++ "."%char :: b)) t g = Some x ->
  exec version3 k i (a ++ "."%char :: b ++ t) g = Some x.
Proof.
  intros Ha Da Hb Db Ht Hk. unfold version3.
  change (exec (Rep1 digit >> Cls (chr ".") >> Rep1 digit
                >> Opt (Cls (chr ".") >> Rep1 digit))%re k i
               (a ++ "."%char :: b ++ t) g)
    with (exec (Rep1 digit)
               (exec (Cls (chr "."))
                     (exec (Rep1 digit)
                           (exec (Opt (Cls (chr ".") >> Rep1 digit)%re) k)))
               i (a ++ "."%char :: b ++ t) g).
  apply Rep1_greedy; auto; [apply stops_dot|].
  cbn [exec]. simpl (chr _ _).
  apply Rep1_greedy; auto.
  rewrite length_app in Hk. simpl in Hk.
  replace (S (i + List.length a) + List.length b)
    with (i + (List.length a + S (List.length b))) by lia.
  exact Hk.
Qed.

Lemma version3_two {R : Type} (k : cont R) (a b : list ascii)
      (g : option (list ascii)) (x : R) (i : nat) :
  a <> [] -> digits a -> b <> [] -> digits b ->
  k (i + List.length (a ++ "."%char :: b)) [] g = Some x ->
  exec version3 k i (a ++ "."%char :: b) g = Some x.
Proof.
  intros Ha Da Hb Db Hk.
  rewrite <- (app_nil_r b). apply version3_greedy; auto; exact I.
Qed.

Lemma version3_three {R : Type} (k : cont R) (a b c t : list ascii)
      (g : option (list ascii)) (x : R) (i : nat) :
  a <> [] -> digits a -> b <> [] -> digits b -> c <> [] -> digits c ->
  stops digit t ->
  k (i + List.length (a ++ "."%char :: b ++ "."%char :: c)) t g = Some x ->
  exec version3 k i (a ++ "."%char :: b ++ "."%char :: c ++ t) g = Some x.
Proof.
  intros Ha Da Hb Db Hc Dc Ht Hk.
  apply version3_greedy; auto; [apply stops_dot|].
  cbn [exec]. simpl (chr _ _).
  assert (H : exec (Rep1 digit) k
                   (S (i + List.length (a ++ "."%char :: b))) (c ++ t) g
              = Some x).
  { apply Rep1_greedy; auto.
    rewrite !length_app in *. simpl in *. rewrite length_app in Hk.
    simpl in Hk.
    match goal with
    | |- k ?n _ _ = _ =>
        replace n with (i + (List.length a
                             + S (List.length b + S (List.length c))))
          by lia
    end.
    exact Hk. }
  cbn [Rep1 exec] in H. cbn [Rep1 exec]. now rewrite H.
Qed.

Lemma firstn_length_app {A : Type} (u t : list A) :
  firstn (List.length u - 0) (u ++ t) = u.
Proof.
  rewrite Nat.sub_0_r. rewrite firstn_app, Nat.sub_diag, firstn_all.
  simpl. apply app_nil_r.
Qed.

(** After a match the search goes on where the match ended. *)
Lemma finditer_skip (r : regex) (u t : list ascii) :
  forall i,
    finditer_from r i (u ++ t) (List.length u)
    = finditer_from r (i + List.length u) t 0.
Proof.
  induction u as [|a u IH]; intros i; simpl.
  - now rewrite Nat.add_0_r.
  - rewrite IH. now rewrite Nat.add_succ_r.
Qed.

Lemma finditer_one (r : regex) (u t : list ascii) (g : option (list ascii)) :
  u <> [] ->
  match_at r 0 (u ++ t) = Some (List.length u, g) ->
  finditer_from r 0 (u ++ t) 0 = g :: finditer_from r (List.length u) t 0.
Proof.
  intros Hu Hm. destruct u as [|a u]; [contradiction|].
  cbn [app finditer_from] in *. rewrite Hm.
  cbn [List.length]. rewrite Nat.sub_0_r. cbn [Nat.sub].
  rewrite Nat.sub_0_r.
  now rewrite finditer_skip.
Qed.

(** A pattern that starts with a character of a class finds nothing in a
    text without such a character. *)
Lemma finditer_no_start (p : ascii -> bool) (r : regex) (s : list ascii) :
  Forall (fun a => p a = false) s ->
  forall i, finditer_from (Cls p >> r)%re i s 0 = [].
Proof.
  induction 1 as [|a s Ha Hs IH]; intros i; [reflexivity|].
  cbn [finditer_from]. unfold match_at at 1. cbn [exec]. rewrite Ha.
  apply IH.
Qed.

(** A digit is in no other class of the patterns. *)
Lemma digit_only (a : ascii) :
  digit a = true ->
  one_of [">"; "<"; "="; "~"; "^"]%char a = false
  /\ space a = false
  /\ one_of ["["; "("]%char a = false
  /\ chr "," a = false
  /\ one_of ["x"; "*"]%char a = false.
Proof.
  destruct a as [[] [] [] [] [] [] [] []]; vm_compute; intuition congruence.
Qed.

Lemma patch_part_stops (rest : list ascii) :
  patch_part rest -> stops digit rest.
Proof. destruct 1; reflexivity. Qed.

Lemma version3_whole {R : Type} (k : cont R) (a b rest : list ascii)
      (g : option (list ascii)) (x : R) (i : nat) :
  a <> [] -> digits a -> b <> [] -> digits b -> patch_part rest ->
  k (i + List.length (a ++ "."%char :: b ++ rest)) [] g = Some x ->
  exec version3 k i (a ++ "."%char :: b ++ rest) g = Some x.
Proof.
  intros Ha Da Hb Db [|c Hc Dc] Hk.
  - rewrite app_nil_r in *. now apply version3_two.
  - replace (a ++ "."%char :: b ++ "."%char :: c)
      with (a ++ "."%char :: b ++ "."%char :: c ++ [])
      by now rewrite app_nil_r.
    apply version3_three; auto. exact I.
Qed.

Section Exact.
Variables a b rest : list ascii.
Hypothesis (Ha : a <> []) (Da : digits a) (Hb : b <> []) (Db : digits b).
Hypothesis Hrest : patch_part rest.

Lemma exact_chars :
  Forall (fun x => digit x = true \/ x = "."%char)
         (a ++ "."%char :: b ++ rest).
Proof.
  apply Forall_app. split.
  - eapply Forall_impl; [|exact Da]. auto.
  - constructor; [now right|]. apply Forall_app. split.
    + eapply Forall_impl; [|exact Db]. auto.
    + destruct Hrest as [|c Hc Dc]; constructor; [now right|].
      eapply Forall_impl; [|exact Dc]. auto.
Qed.

Lemma finditer_exact_1 :
  finditer_from (Bol >> Grp version3 >> Eol)%re 0
                (a ++ "."%char :: b ++ rest) 0
  = [Some (a ++ "."%char :: b ++ rest)].
Proof.
  set (w := a ++ "."%char :: b ++ rest).
  assert (Hw : w <> []) by (subst w; destruct a; [contradiction | discriminate]).
  rewrite <- (app_nil_r w) at 1.
  rewrite (finditer_one _ w [] (Some w) Hw).
  - destruct w; [contradiction | reflexivity].
  - rewrite app_nil_r. unfold match_at. cbn [exec Nat.eqb].
    subst w. apply version3_whole; auto.
    cbn [exec Nat.add]. now rewrite Nat.sub_0_r, firstn_all.
Qed.

Lemma finditer_exact_2 :
  finditer_from (Rep (one_of [">"; "<"; "="; "~"; "^"]%char) >> Rep space
                 >> Grp version3)%re 0
                (a ++ "."%char :: b ++ rest) 0
  = [Some (a ++ "."%char :: b ++ rest)].
Proof.
  set (w := a ++ "."%char :: b ++ rest).
  assert (Hw : w <> []) by (subst w; destruct a; [contradiction | discriminate]).
  rewrite <- (app_nil_r w) at 1.
  rewrite (finditer_one _ w [] (Some w) Hw); [reflexivity|].
  rewrite app_nil_r. unfold match_at. cbn [exec].
  assert (E : forall (R : Type) (p : ascii -> bool) (k : cont R) g,
             (forall x, digit x = true -> p x = false) ->
             rep p k 0 w g = k 0 w g).
  { intros R p k g Hp. subst w. destruct a as [|h a']; [contradiction|].
    inversion Da; subst. simpl. now rewrite Hp. }
  rewrite E by (intros x Hx; now apply digit_only).
  rewrite E by (intros x Hx; now apply digit_only).
  cbn [exec]. subst w. apply version3_whole; auto.
  cbn [Nat.add]. now rewrite Nat.sub_0_r, firstn_all.
Qed.

Lemma finditer_exact_3 :
  finditer_from (Cls (one_of ["["; "("]%char) >> Grp version3 >> Rep space
                 >> Cls (chr ","))%re 0
                (a ++ "."%char :: b ++ rest) 0
  = [].
Proof.
  apply finditer_no_start. eapply Forall_impl; [|exact exact_chars].
  intros x [Hx | ->]; [now apply digit_only | reflexivity].
Qed.

Lemma finditer_exact_4 :
  finditer_from (Cls (chr ",") >> Rep space >> Grp version3
                 >> Cls (one_of ["]"; ")"]%char))%re 0
                (a ++ "."%char :: b ++ rest) 0
  = [].
Proof.
  apply finditer_no_start. eapply Forall_impl; [|exact exact_chars].
  intros x [Hx | ->]; [now apply digit_only | reflexivity].
Qed.

End Exact.

(** The wildcard pattern finds nothing in a numeral. *)
Lemma finditer_digits_5 (d : list ascii) :
  digits d ->
  forall i,
    finditer_from (Grp version2
                   >> Opt (Cls (chr ".") >> Cls (one_of ["x"; "*"]%char)))%re
                  i d 0
    = [].
Proof.
  induction 1 as [|x d Hx Hd IH]; intros i; [reflexivity|].
  cbn [finditer_from].
  assert (E : forall k : cont (nat * option (list ascii)),
             exec version2 k i (x :: d) None = None).
  { intros k. unfold version2. cbn [exec Rep1].
    change (digit x) with (PyStr.isdigit x). rewrite Hx.
    rewrite <- (app_nil_r d). apply rep_fail; [exact Hd | exact I|].
    intros u v ->. rewrite app_nil_r. destruct v as [|y v]; [reflexivity|].
    assert (Hy : digit y = true).
    { apply Forall_app in Hd. destruct Hd as [_ Hd]. now inversion Hd. }
    cbn [exec]. change (chr "." y) with (PyStr.same y ".").
    now rewrite (digit_is_no_dot y Hy). }
  unfold match_at at 1. cbn [exec]. rewrite E. apply IH.
Qed.

Lemma finditer_exact_5 (a b rest : list ascii) :
  a <> [] -> digits a -> b <> [] -> digits b -> patch_part rest ->
  finditer_from (Grp version2
                 >> Opt (Cls (chr ".") >> Cls (one_of ["x"; "*"]%char)))%re
                0 (a ++ "."%char :: b ++ rest) 0
  = [Some (a ++ "."%char :: b)].
Proof.
  intros Ha Da Hb Db Hrest.
  set (w := a ++ "."%char :: b).
  assert (Hw : w <> []) by (subst w; destruct a; [contradiction | discriminate]).
  replace (a ++ "."%char :: b ++ rest) with (w ++ rest)
    by (subst w; now rewrite <- app_assoc).
  rewrite (finditer_one _ w rest (Some w) Hw).
  - f_equal. destruct Hrest as [|c Hc Dc]; [reflexivity|].
    cbn [finditer_from]. unfold match_at at 1. cbn [exec]. unfold version2.
    cbn [exec Rep1]. simpl (digit "."). cbv iota.
    destruct w; [contradiction|]. apply finditer_digits_5. exact Dc.
  - assert (F : firstn (List.length (a ++ "."%char :: b) - 0)
                        (a ++ "."%char :: b ++ rest)
                 = a ++ "."%char :: b).
    { replace (a ++ "."%char :: b ++ rest)
        with ((a ++ "."%char :: b) ++ rest) by now rewrite <- app_assoc.
      apply firstn_length_app. }
    unfold match_at. cbn [exec]. subst w. rewrite <- app_assoc. cbn [app].
    apply version2_greedy; auto; [now apply patch_part_stops|].
    cbn [Nat.add]. rewrite F.
    destruct Hrest as [|c Hc Dc]; [reflexivity|].
    destruct c as [|y c]; [contradiction|]. inversion Dc; subst.
    cbn [exec]. simpl (chr _ _).
    destruct (digit_only y) as (_ & _ & _ & _ & ->); auto.
Qed.

Lemma digit_is_no_space (a : ascii) :
  PyStr.isdigit a = true -> PyStr.isspace a = false.
Proof. intros H. now apply (digit_only a). Qed.

Lemma rstrip_clean_end (u : list ascii) (z : ascii) :
  PyStr.isspace z = false ->
  PyStr.rstrip (string_of_list_ascii (u ++ [z]))
  = string_of_list_ascii (u ++ [z]).
Proof.
  intros Hz. induction u as [|x u IH]; simpl.
  - now rewrite Hz.
  - simpl in IH. rewrite IH. now destruct u.
Qed.

Lemma strip_exact (a b rest : list ascii) :
  a <> [] -> digits a -> b <> [] -> digits b -> patch_part rest ->
  PyStr.strip (string_of_list_ascii (a ++ "."%char :: b ++ rest))
  = string_of_list_ascii (a ++ "."%char :: b ++ rest).
Proof.
  intros Ha Da Hb Db Hrest. unfold PyStr.strip.
  assert (Hend : exists u z, a ++ "."%char :: b ++ rest = u ++ [z]
                             /\ PyStr.isdigit z = true).
  { assert (Hlast : forall d, d <> [] -> digits d ->
                      exists u z, d = u ++ [z] /\ PyStr.isdigit z = true).
    { intros d Hd Dd. destruct (exists_last Hd) as (u & z & ->).
      exists u, z. split; [reflexivity|].
      apply Forall_app in Dd. destruct Dd as [_ Dd]. now inversion Dd. }
    destruct Hrest as [|c Hc Dc].
    - destruct (Hlast b Hb Db) as (u & z & -> & Hz).
      exists (a ++ "."%char :: u), z. split; [|exact Hz].
      rewrite app_nil_r, <- app_assoc. reflexivity.
    - destruct (Hlast c Hc Dc) as (u & z & -> & Hz).
      exists (a ++ "."%char :: b ++ "."%char :: u), z. split; [|exact Hz].
      rewrite <- !app_assoc. cbn [app]. rewrite <- app_assoc. reflexivity. }
  destruct Hend as (u & z & E & Hz).
  rewrite lstrip_clean.
  - rewrite E. apply rstrip_clean_end. now apply digit_is_no_space.
  - destruct a as [|h a']; [contradiction|]. inversion Da; subst.
    simpl. now apply digit_is_no_space.
Qed.

Lemma split_never_empty (sep : ascii) (s : string) :
  1 <= List.length (PyStr.split sep s).
Proof.
  induction s as [|c s IH]; simpl; [lia|].
  destruct (PyStr.same c sep); simpl; [lia|].
  destruct (PyStr.split sep s); simpl in *; lia.
Qed.

(** A text that starts with a numeral and a dot is added to the set. *)
Lemma add_match_dotted (versions : list string) (a t : list ascii) :
  a <> [] -> digits a ->
  add_match versions (Some (a ++ "."%char :: t))
  = set_add (string_of_list_ascii (a ++ "."%char :: t)) versions.
Proof.
  intros Ha Da. destruct a as [|h a']; [contradiction|].
  cbn [app add_match].
  change (h :: a' ++ "."%char :: t) with ((h :: a') ++ "."%char :: t).
  rewrite (split_digits_dot _ _ Da). cbn [List.length].
  pose proof (split_never_empty "." (string_of_list_ascii t)) as H.
  destruct (List.length _) as [|n]; [lia | reflexivity].
Qed.

Lemma leb_longer (u t : list ascii) :
  t <> [] ->
  String.leb (string_of_list_ascii (u ++ t)) (string_of_list_ascii u) = false.
Proof.
  intros Ht. unfold String.leb.
  enough (H : String.compare (string_of_list_ascii (u ++ t))
                             (string_of_list_ascii u) = Gt) by now rewrite H.
  induction u as [|x u IH]; simpl.
  - destruct t; [contradiction | reflexivity].
  - unfold Ascii.compare. now rewrite N.compare_refl.
Qed.

Lemma eqb_longer (u t : list ascii) :
  t <> [] ->
  String.eqb (string_of_list_ascii u) (string_of_list_ascii (u ++ t)) = false.
Proof.
  intros Ht. apply String.eqb_neq. intros E.
  apply (f_equal String.length) in E.
  rewrite string_of_list_ascii_app, length_append in E.
  destruct t; [contradiction|]. simpl in E. lia.
Qed.

(** The versions found in [major.minor] and in [major.minor.patch]. *)
Lemma parse_str_exact (a b rest : list ascii) :
  a <> [] -> digits a -> b <> [] -> digits b -> patch_part rest ->
  parse_str (string_of_list_ascii (a ++ "."%char :: b ++ rest))
  = match rest with
    | [] => [string_of_list_ascii (a ++ "."%char :: b)]
    | _ => [string_of_list_ascii (a ++ "."%char :: b);
            string_of_list_ascii (a ++ "."%char :: b ++ rest)]
    end.
Proof.
  intros Ha Da Hb Db Hrest. unfold parse_str.
  rewrite strip_exact by assumption.
  unfold MC_VERSION_PATTERNS. cbn [fold_left]. unfold add_pattern, finditer.
  rewrite list_ascii_of_string_of_list_ascii.
  rewrite finditer_exact_1, finditer_exact_2, finditer_exact_3,
    finditer_exact_4, finditer_exact_5 by assumption.
  cbn [fold_left].
  rewrite !add_match_dotted by assumption.
  unfold set_add at 3. cbn [mem existsb app].
  unfold set_add at 2. cbn [mem existsb]. rewrite String.eqb_refl.
  cbn [orb].
  destruct Hrest as [|c Hc Dc].
  - rewrite app_nil_r. unfold set_add. cbn [mem existsb].
    now rewrite String.eqb_refl.
  - unfold set_add. cbn [mem existsb].
    assert (Hne : "."%char :: c <> []) by discriminate.
    replace (a ++ "."%char :: b ++ "."%char :: c)
      with ((a ++ "."%char :: b) ++ "."%char :: c)
      by (now rewrite <- app_assoc).
    rewrite (eqb_longer _ _ Hne). cbn [orb app sorted fold_right insert].
    now rewrite (leb_longer _ _ Hne).
Qed.

Lemma numeral_list (s : string) :
  numeral s = true ->
  exists d, s = string_of_list_ascii d /\ d <> [] /\ digits d.
Proof.
  unfold numeral. intros H. apply andb_true_iff in H. destruct H as [Hn Hd].
  exists (list_ascii_of_string s).
  split; [now rewrite string_of_list_ascii_of_string|]. split.
  - destruct s; [discriminate | simpl; discriminate].
  - apply Forall_forall. rewrite forallb_forall in Hd. exact Hd.
Qed.

(** An exact version is found as it is written: [major.minor] gives itself,
    and [major.minor.patch] gives [major.minor] and itself, in this
    order. *)
Theorem exact_version_is_found (rt : Runtime) (major minor : string) :
  numeral major = true -> numeral minor = true ->
  _parse_mc_versions rt (VStr (major ++ "." ++ minor))
  = [(major ++ "." ++ minor)%string]
  /\ forall patch,
      numeral patch = true ->
      _parse_mc_versions rt (VStr (major ++ "." ++ minor ++ "." ++ patch))
      = [(major ++ "." ++ minor)%string;
         (major ++ "." ++ minor ++ "." ++ patch)%string].
Proof.
  intros Hmajor Hminor.
  destruct (numeral_list _ Hmajor) as (a & -> & Ha & Da).
  destruct (numeral_list _ Hminor) as (b & -> & Hb & Db).
  assert (Hstr : forall w,
             w <> [] ->
             _parse_mc_versions rt (VStr (string_of_list_ascii w))
             = parse_str (string_of_list_ascii w)).
  { intros w Hw. destruct w; [contradiction | reflexivity]. }
  assert (Hne : forall t, a ++ "."%char :: t <> []).
  { intros t. destruct a; discriminate. }
  assert (E2 : (string_of_list_ascii a ++ "." ++ string_of_list_ascii b)%string
               = string_of_list_ascii (a ++ "."%char :: b)).
  { now rewrite string_of_list_ascii_app. }
  split.
  - rewrite E2, Hstr by apply Hne.
    rewrite <- (app_nil_r b) at 1.
    rewrite parse_str_exact; auto. constructor.
  - intros patch Hpatch.
    destruct (numeral_list _ Hpatch) as (c & -> & Hc & Dc).
    assert (E3 : (string_of_list_ascii a ++ "." ++ string_of_list_ascii b
                  ++ "." ++ string_of_list_ascii c)%string
                 = string_of_list_ascii (a ++ "."%char :: b ++ "."%char :: c)).
    { rewrite string_of_list_ascii_app. cbn [string_of_list_ascii].
      now rewrite string_of_list_ascii_app. }
    rewrite E2, E3, Hstr by apply Hne.
    rewrite parse_str_exact; auto. now constructor.
Qed.

Lemma exact_version_is_found_witness :
  _parse_mc_versions Examples.rt0 (VStr "1.20") = ["1.20"]
  /\ _parse_mc_versions Examples.rt0 (VStr "1.20.1") = ["1.20"; "1.20.1"].
Proof.
  destruct (exact_version_is_found Examples.rt0 "1" "20" eq_refl eq_refl)
    as [H2 H3].
  split; [exact H2 | exact (H3 "1" eq_refl)].
Defined.

End ExactVersions.

(* ------------------------------------------------------------------ *)
(** ** The list branch of [_parse_mc_versions], on an example *)

Section ListBranch.
Import Py Base Spec.

Lemma parse_list_nodup_union_witness :
  set_order_ok Examples.rt_rev
  /\ _parse_mc_versions Examples.rt_rev
       (VList [VStr "1.19"; VStr ">=1.20"; VStr "1.20.x"])
     = ["1.20"; "1.19"]
  /\ NoDup (_parse_mc_versions Examples.rt_rev
              (VList [VStr "1.19"; VStr ">=1.20"; VStr "1.20.x"])).
Proof.
  assert (Hok : set_order_ok Examples.rt_rev).
  { intros l. simpl. symmetry. apply Permutation_rev. }
  split; [exact Hok|]. split; [vm_compute; reflexivity|].
  exact (proj1 (parse_list_nodup_union Examples.rt_rev
                  [VStr "1.19"; VStr ">=1.20"; VStr "1.20.x"] Hok)).
Defined.

End ListBranch.

(* ------------------------------------------------------------------ *)
(** ** The record of the manifest fallback *)

Section FallbackFacts.
Import Py Zip Models ModScanner Spec Spec2.

(** What the loop over the lines of the manifest keeps: a name and a
    version that are stripped. *)
Lemma manifest_line_stripped (lines : list string) :
  forall acc : option string * option string,
    (forall n, fst acc = Some n -> PyStr.strip n = n) ->
    (forall v, snd acc = Some v -> PyStr.strip v = v) ->
    (forall n, fst (fold_left manifest_line lines acc) = Some n ->
               PyStr.strip n = n)
    /\ (forall v, snd (fold_left manifest_line lines acc) = Some v ->
                  PyStr.strip v = v).
Proof.
  induction lines as [|line lines IH]; intros acc Hn Hv; [now split|].
  cbn [fold_left]. apply IH; unfold manifest_line;
    destruct (PyStr.split_once ":" (PyStr.strip line)) as [[key value]|];
    auto;
    destruct (mem (PyStr.strip key) _); cbn [fst snd]; auto;
    try (intros x [= <-]; apply strip_idempotent);
    destruct (mem (PyStr.strip key) _); cbn [fst snd]; auto;
    intros x [= <-]; apply strip_idempotent.
Qed.

(** A record of the manifest fallback has a name and a version that are
    strings, not empty and without white space around them; its loader is
    the one read off the filename, and it carries no identifier, author,
    description, dependency or Minecraft version. *)
Theorem manifest_record_is_clean
        (jar : ZipFile) (jar_path : Path) (files : list string)
        (m : ModInfo) :
  _fallback_extraction jar jar_path files = Some m ->
  (exists n v,
      Models.name m = VStr n /\ version m = VStr v
      /\ n <> "" /\ v <> ""
      /\ PyStr.strip n = n /\ PyStr.strip v = v)
  /\ loader m = _detect_loader_from_filename (Zip.name jar_path)
  /\ filename m = Zip.name jar_path
  /\ mod_id m = VNone /\ dependencies m = [] /\ author m = None
  /\ description m = None /\ mc_versions m = [] /\ disabled m = false.
Proof.
  unfold _fallback_extraction.
  destruct (mem "META-INF/MANIFEST.MF" files); [|discriminate].
  destruct (read jar "META-INF/MANIFEST.MF") as [mf|]; [|discriminate].
  destruct (manifest_line_stripped
              (PyStr.split PyStr.newline (utf8_replace mf)) (None, None))
    as [Hn Hv]; try (intros ? [=]).
  destruct (fold_left manifest_line _ (None, None)) as [[[|c n]|] [[|d v]|]];
    try discriminate.
  intros [= <-]. cbn. split; [|repeat split].
  exists (String c n), (String d v).
  repeat split; try discriminate; [apply Hn | apply Hv]; reflexivity.
Qed.

Lemma manifest_record_is_clean_witness :
  exists m,
    _fallback_extraction Examples.manifest_jar
                         (Examples.in_mods "waystones-forge-1.20.jar")
                         (namelist Examples.manifest_jar) = Some m
    /\ Models.name m = VStr "Waystones"
    /\ version m = VStr "14.1.3"
    /\ loader m = "forge".
Proof.
  eexists. split; [vm_compute; reflexivity|].
  split; [reflexivity|]. split; [reflexivity|].
  destruct (manifest_record_is_clean Examples.manifest_jar
              (Examples.in_mods "waystones-forge-1.20.jar")
              (namelist Examples.manifest_jar) _ eq_refl) as (_ & H & _).
  exact H.
Defined.

End FallbackFacts.
